(** * Identity mapping of IAM principals: ARN to username and groups

    A shallow embedding of the mapper packages of aws-iam-authenticator
    ([pkg/config/mapper.go], [pkg/mapper/file/mapper.go],
    [pkg/mapper/configmap/configmap.go], [pkg/mapper/configmap/mapper.go],
    [pkg/mapper/configmap/client/client.go]) and the properties of these
    packages that the specification states.

    Conventions.
    - A Go [map[string]T] is a [gmap string T]; a map used as a set is a
      [gset string].  Ranging over a Go map visits every entry once in an
      unspecified order: a loop over a map is a function of the list of
      visited values, and [ranges m l] says that [l] is one possible visit
      order of [m].  The behaviours of a method are all its results over
      all visit orders.
    - A Go result [(v, err)] of which the caller reads [v] only when
      [err == nil] is an [outcome]; where the source returns a value next
      to the error (the store lookups, [ParseMap], [client.add]) it is a
      pair with an [option error].
    - Calls that leave the packages above ([strings.ToLower],
      [arn.Canonicalize], [arnlike.ArnLike], the YAML and JSON codecs) are
      the fields of the classes [Lib] and [Codec], and the two closures of
      the API client are the fields of [client.client]: the theorems hold for
      every implementation of them.  Concrete implementations, used to run
      the code on examples, are in the module [model].
    - [client.add] binds five names to the six results of [ParseMap]; the
      two lists that the source leaves open are the fields of
      [client.Binding], and the theorems hold for every binding. *)

From stdpp Require Import gmap strings list fin_maps.
From Ceres Require Import Ceres.
From Stdlib Require Import Ascii String.

Local Open Scope string_scope.
Local Open Scope list_scope.
Set Warnings "-register-all,-clear-no-such-hyp".

(** ** Go errors *)

(** Reasons of an API status error ([k8s.io/apimachinery/pkg/api/errors]);
    only the two that the code tests for are told apart. *)
Inductive StatusReason : Type :=
| StatusReasonNotFound
| StatusReasonConflict
| StatusReasonOther (reason : string).

Inductive error : Type :=
| ErrNotMapped                    (* mapper.ErrNotMapped *)
| UserNotFound                    (* configmap.UserNotFound *)
| UserARNLikeNotMatched           (* configmap.UserARNLikeNotMatched *)
| RoleNotFound                    (* configmap.RoleNotFound *)
| RoleARNLikeNotMatched           (* configmap.RoleARNLikeNotMatched *)
| Errorf (format : string) (args : list string)   (* fmt.Errorf, errors.New *)
| LibError (msg : string)         (* an error made by a library *)
| StatusError (reason : StatusReason)
| ErrParsingMap (errors : list error).  (* configmap.ErrParsingMap *)

Inductive outcome (A : Type) : Type :=
| Ok (a : A)
| Err (e : error).
Arguments Ok {A} a.
Arguments Err {A} e.

Definition is_Ok {A} (o : outcome A) : bool :=
  match o with Ok _ => true | Err _ => false end.

(** The text of an error, as far as the messages built by this code need
    it ([%v] of an error). *)
Definition Error (e : error) : string :=
  match e with
  | ErrNotMapped => "ARN is not mapped"
  | UserNotFound => "User not found in configmap"
  | UserARNLikeNotMatched => "User not matched to any UserARNLike strings in configmap"
  | RoleNotFound => "Role not found in configmap"
  | RoleARNLikeNotMatched => "Role not matched to any RoleARNLike strings in configmap"
  | Errorf format _ => format
  | LibError msg => msg
  | StatusError StatusReasonNotFound => "not found"
  | StatusError StatusReasonConflict => "conflict"
  | StatusError (StatusReasonOther r) => r
  | ErrParsingMap _ => "error parsing config map: %v"
  end.

(** ** Ranging over a map *)

Definition ranges {V} (m : gmap string V) (l : list V) : Prop :=
  l ≡ₚ (map_to_list m).*2.

(** ** Library calls *)

Class Lib : Type := {
  (** [strings.ToLower] *)
  ToLower : string → string;
  (** [arn.Canonicalize] *)
  Canonicalize : string → outcome string;
  (** [arnlike.ArnLike arn pattern] *)
  ArnLike : string → string → bool * option error;
}.

(** ** Package config *)

Module config.

Module RoleMapping.
Record t : Type := mk {
  RoleARN : string;
  RoleARNLike : string;
  Username : string;
  Groups : list string;
}.
Definition zero : t := mk "" "" "" [].

Section methods.
Context {lib : Lib}.

(** [Validate], on a pointer that may be nil. *)
Definition Validate (p : option t) : option error :=
  match p with
  | None => Some (Errorf "RoleMapping is nil" [])
  | Some m =>
    if bool_decide (RoleARN m = "") && bool_decide (RoleARNLike m = "") then
      Some (Errorf "One of rolearn or rolearnLike must be supplied" [])
    else if bool_decide (RoleARN m ≠ "") && bool_decide (RoleARNLike m ≠ "") then
      Some (Errorf "Only one of rolearn or rolearnLike can be supplied" [])
    else if bool_decide (RoleARNLike m ≠ "") then
      match ArnLike (RoleARNLike m) "arn:*:iam:*:*:role/*" with
      | (_, Some err) => Some err
      | (false, None) =>
        Some (Errorf "RoleARNLike '%s' did not match an ARN for an IAM Role"
                     [RoleARNLike m])
      | (true, None) => None
      end
    else None
  end.

Definition Matches (m : t) (subject : string) : bool :=
  if bool_decide (RoleARN m ≠ "") then bool_decide (RoleARN m = subject)
  else (ArnLike subject (RoleARNLike m)).1.
End methods.

Definition Key (m : t) : string :=
  if bool_decide (RoleARN m ≠ "") then RoleARN m else RoleARNLike m.
End RoleMapping.

Module UserMapping.
Record t : Type := mk {
  UserARN : string;
  UserARNLike : string;
  Username : string;
  Groups : list string;
}.
Definition zero : t := mk "" "" "" [].

Section methods.
Context {lib : Lib}.

Definition Validate (p : option t) : option error :=
  match p with
  | None => Some (Errorf "RoleMapping is nil" [])
  | Some m =>
    if bool_decide (UserARN m = "") && bool_decide (UserARNLike m = "") then
      Some (Errorf "One of userarn or userarnLike must be supplied" [])
    else if bool_decide (UserARN m ≠ "") && bool_decide (UserARNLike m ≠ "") then
      Some (Errorf "Only one of userarn or userarnLike can be supplied" [])
    else if bool_decide (UserARNLike m ≠ "") then
      match ArnLike (UserARNLike m) "arn:*:iam:*:*:user/*" with
      | (_, Some err) => Some err
      | (false, None) =>
        Some (Errorf "RoleARNLike '%s' did not match an ARN for an IAM User"
                     [UserARNLike m])
      | (true, None) => None
      end
    else None
  end.

Definition Matches (m : t) (subject : string) : bool :=
  if bool_decide (UserARN m ≠ "") then bool_decide (UserARN m = subject)
  else (ArnLike subject (UserARNLike m)).1.
End methods.

Definition Key (m : t) : string :=
  if bool_decide (UserARN m ≠ "") then UserARN m else UserARNLike m.
End UserMapping.

Module IdentityMapping.
Record t : Type := mk {
  IdentityARN : string;
  Username : string;
  Groups : list string;
}.
End IdentityMapping.

(** The fields of [Config] that the mappers read. *)
Record Config : Type := {
  RoleMappings : list RoleMapping.t;
  UserMappings : list UserMapping.t;
  AutoMappedAWSAccounts : list string;
}.

End config.
Import config.

(** [%v] of a mapping, for the messages of the unreachable [default] cases. *)
Definition fmt_strings (l : list string) : string :=
  "[" +:+ String.concat " " l +:+ "]".
Definition fmt_RoleMapping (m : RoleMapping.t) : string :=
  "{" +:+ RoleMapping.RoleARN m +:+ " " +:+ RoleMapping.RoleARNLike m +:+ " "
      +:+ RoleMapping.Username m +:+ " " +:+ fmt_strings (RoleMapping.Groups m) +:+ "}".
Definition fmt_UserMapping (m : UserMapping.t) : string :=
  "{" +:+ UserMapping.UserARN m +:+ " " +:+ UserMapping.UserARNLike m +:+ " "
      +:+ UserMapping.Username m +:+ " " +:+ fmt_strings (UserMapping.Groups m) +:+ "}".

(** ** Package file: the static mapper *)

Module file.

Record FileMapper : Type := {
  lowercaseRoleMap : gmap string RoleMapping.t;
  roleArnLikeMap : gmap string RoleMapping.t;
  lowercaseUserMap : gmap string UserMapping.t;
  userArnLikeMap : gmap string UserMapping.t;
  accountMap : gmap string bool;
}.

Definition empty : FileMapper := Build_FileMapper ∅ ∅ ∅ ∅ ∅.

Definition set_lowercaseRoleMap k m fm :=
  Build_FileMapper (<[k:=m]> (lowercaseRoleMap fm)) (roleArnLikeMap fm)
                   (lowercaseUserMap fm) (userArnLikeMap fm) (accountMap fm).
Definition set_roleArnLikeMap k m fm :=
  Build_FileMapper (lowercaseRoleMap fm) (<[k:=m]> (roleArnLikeMap fm))
                   (lowercaseUserMap fm) (userArnLikeMap fm) (accountMap fm).
Definition set_lowercaseUserMap k m fm :=
  Build_FileMapper (lowercaseRoleMap fm) (roleArnLikeMap fm)
                   (<[k:=m]> (lowercaseUserMap fm)) (userArnLikeMap fm) (accountMap fm).
Definition set_userArnLikeMap k m fm :=
  Build_FileMapper (lowercaseRoleMap fm) (roleArnLikeMap fm)
                   (lowercaseUserMap fm) (<[k:=m]> (userArnLikeMap fm)) (accountMap fm).
Definition set_accountMap k b fm :=
  Build_FileMapper (lowercaseRoleMap fm) (roleArnLikeMap fm)
                   (lowercaseUserMap fm) (userArnLikeMap fm) (<[k:=b]> (accountMap fm)).

(** [NewFileMapperWithMaps] leaves the two pattern tables nil; ranging over
    a nil map visits nothing, as over an empty one. *)
Definition NewFileMapperWithMaps (lowercaseRoleMap : gmap string RoleMapping.t)
    (lowercaseUserMap : gmap string UserMapping.t) (accountMap : gmap string bool)
  : FileMapper :=
  Build_FileMapper lowercaseRoleMap ∅ lowercaseUserMap ∅ accountMap.

Section methods.
Context {lib : Lib}.

(** The loop over [cfg.RoleMappings] of [NewFileMapper]. *)
Fixpoint addRoleMappings (ms : list RoleMapping.t) (fm : FileMapper)
  : outcome FileMapper :=
  match ms with
  | [] => Ok fm
  | m :: ms' =>
    if bool_decide (RoleMapping.RoleARN m = "")
       && bool_decide (RoleMapping.RoleARNLike m = "") then
      Err (Errorf "One of rolearn or rolearnLike must be supplied" [])
    else if bool_decide (RoleMapping.RoleARN m ≠ "")
            && bool_decide (RoleMapping.RoleARNLike m ≠ "") then
      Err (Errorf "Only of rolearn or rolearnLike can be supplied" [])
    else if bool_decide (RoleMapping.RoleARN m ≠ "") then
      match Canonicalize (ToLower (RoleMapping.RoleARN m)) with
      | Err err => Err (Errorf "error canonicalizing ARN: %v" [Error err])
      | Ok canonicalizedARN =>
        addRoleMappings ms' (set_lowercaseRoleMap canonicalizedARN m fm)
      end
    else if bool_decide (RoleMapping.RoleARNLike m ≠ "") then
      match ArnLike (RoleMapping.RoleARNLike m) "arn:*:iam:*:*:role/*" with
      | (_, Some err) => Err err
      | (false, None) =>
        Err (Errorf "RoleARNLike '%s' did not match an ARN for an IAM Role"
                    [RoleMapping.RoleARNLike m])
      | (true, None) =>
        addRoleMappings ms' (set_roleArnLikeMap (RoleMapping.RoleARNLike m) m fm)
      end
    else Err (Errorf "Unexpected error parsing roleMapping: %v" [fmt_RoleMapping m])
  end.

(** The loop over [cfg.UserMappings]. *)
Fixpoint addUserMappings (ms : list UserMapping.t) (fm : FileMapper)
  : outcome FileMapper :=
  match ms with
  | [] => Ok fm
  | m :: ms' =>
    if bool_decide (UserMapping.UserARN m = "")
       && bool_decide (UserMapping.UserARNLike m = "") then
      Err (Errorf "One of userarn or userarnLike must be supplied" [])
    else if bool_decide (UserMapping.UserARN m ≠ "")
            && bool_decide (UserMapping.UserARNLike m ≠ "") then
      Err (Errorf "Only one of userarn or userarnLike can be supplied" [])
    else if bool_decide (UserMapping.UserARN m ≠ "") then
      match Canonicalize (ToLower (UserMapping.UserARN m)) with
      | Err err => Err (Errorf "error canonicalizing ARN: %v" [Error err])
      | Ok canonicalizedARN =>
        addUserMappings ms' (set_lowercaseUserMap canonicalizedARN m fm)
      end
    else if bool_decide (UserMapping.UserARNLike m ≠ "") then
      match ArnLike (UserMapping.UserARNLike m) "arn:*:iam:*:*:user/*" with
      | (_, Some err) => Err err
      | (false, None) =>
        Err (Errorf "UserARNLike '%s' did not match an ARN for an IAM User"
                    [UserMapping.UserARNLike m])
      | (true, None) =>
        addUserMappings ms' (set_userArnLikeMap (UserMapping.UserARNLike m) m fm)
      end
    else Err (Errorf "Unexpected error parsing userMapping: %v" [fmt_UserMapping m])
  end.

(** The loop over [cfg.AutoMappedAWSAccounts]. *)
Definition addAccounts (ids : list string) (fm : FileMapper) : FileMapper :=
  fold_left (λ fm id, set_accountMap id true fm) ids fm.

Definition NewFileMapper (cfg : Config) : outcome FileMapper :=
  match addRoleMappings (RoleMappings cfg) empty with
  | Err e => Err e
  | Ok fm =>
    match addUserMappings (UserMappings cfg) fm with
    | Err e => Err e
    | Ok fm => Ok (addAccounts (AutoMappedAWSAccounts cfg) fm)
    end
  end.

(** The loop of [Map] over [m.roleArnLikeMap], on the values in the
    order they are visited: [Some r] when the loop returns [r], [None]
    when it runs to its end. *)
Fixpoint scanRoleArnLike (visit : list RoleMapping.t) (canonicalARN : string)
  : option (outcome IdentityMapping.t) :=
  match visit with
  | [] => None
  | roleArnLikeMapping :: visit' =>
    match ArnLike canonicalARN (RoleMapping.RoleARNLike roleArnLikeMapping) with
    | (_, Some err) => Some (Err err)
    | (true, None) =>
      Some (Ok (IdentityMapping.mk canonicalARN
                  (RoleMapping.Username roleArnLikeMapping)
                  (RoleMapping.Groups roleArnLikeMapping)))
    | (false, None) => scanRoleArnLike visit' canonicalARN
    end
  end.

Fixpoint scanUserArnLike (visit : list UserMapping.t) (canonicalARN : string)
  : option (outcome IdentityMapping.t) :=
  match visit with
  | [] => None
  | userArnLikeMapping :: visit' =>
    match ArnLike canonicalARN (UserMapping.UserARNLike userArnLikeMapping) with
    | (_, Some err) => Some (Err err)
    | (true, None) =>
      Some (Ok (IdentityMapping.mk canonicalARN
                  (UserMapping.Username userArnLikeMapping)
                  (UserMapping.Groups userArnLikeMapping)))
    | (false, None) => scanUserArnLike visit' canonicalARN
    end
  end.

(** [Map], given the visit orders of its two loops. *)
Definition Map_in (roleVisit : list RoleMapping.t) (userVisit : list UserMapping.t)
    (m : FileMapper) (canonicalARN : string) : outcome IdentityMapping.t :=
  let canonicalARN := ToLower canonicalARN in
  match lowercaseRoleMap m !! canonicalARN with
  | Some roleMapping =>
    Ok (IdentityMapping.mk canonicalARN (RoleMapping.Username roleMapping)
          (RoleMapping.Groups roleMapping))
  | None =>
    match lowercaseUserMap m !! canonicalARN with
    | Some userMapping =>
      Ok (IdentityMapping.mk canonicalARN (UserMapping.Username userMapping)
            (UserMapping.Groups userMapping))
    | None =>
      match scanRoleArnLike roleVisit canonicalARN with
      | Some r => r
      | None =>
        match scanUserArnLike userVisit canonicalARN with
        | Some r => r
        | None => Err ErrNotMapped
        end
      end
    end
  end.

(** The behaviours of [Map]: its results over all visit orders. *)
Inductive Map (m : FileMapper) (canonicalARN : string)
  : outcome IdentityMapping.t → Prop :=
| Map_run roleVisit userVisit :
    ranges (roleArnLikeMap m) roleVisit →
    ranges (userArnLikeMap m) userVisit →
    Map m canonicalARN (Map_in roleVisit userVisit m canonicalARN).

Definition IsAccountAllowed (m : FileMapper) (accountID : string) : bool :=
  default false (accountMap m !! accountID).
End methods.

End file.

(** ** API objects and watch events *)

Module core_v1.
(** The fields of [ConfigMap] that the code reads or writes. *)
Record ConfigMap : Type := {
  Name : string;
  ResourceVersion : string;
  Data : gmap string string;
}.
End core_v1.

Module watch.
Inductive EventType : Type := Added | Modified | Deleted | Bookmark | Error.

(** The dynamic type of [Event.Object]: a [*core_v1.ConfigMap] or
    anything else. *)
Inductive Object : Type :=
| ConfigMap (cm : core_v1.ConfigMap)
| Other.

Record Event : Type := { Type_ : EventType; Object_ : Object }.
End watch.

(** ** The YAML and JSON codecs *)

(** [json.Unmarshal] and [yaml.Unmarshal] fill a slice that the caller has
    made empty and may leave elements in it when they fail: they return the
    slice with the error. *)
Class Codec : Type := {
  utilyaml_ToJSON : string → outcome string;
  json_Unmarshal_UserMappings : string → list UserMapping.t * option error;
  json_Unmarshal_RoleMappings : string → list RoleMapping.t * option error;
  yaml_Unmarshal_strings : string → list string * option error;
  yaml_Marshal_UserMappings : list UserMapping.t → outcome string;
  yaml_Marshal_RoleMappings : list RoleMapping.t → outcome string;
  yaml_Marshal_strings : list string → outcome string;
}.

(** ** Package configmap: the live store and its mapper *)

Module configmap.

(** The mapping tables of [MapStore].  The fields [mutex], [configMap]
    and [metrics] hold no mapping data; a nil map reads as an empty
    one. *)
Record MapStore : Type := {
  users : gmap string UserMapping.t;
  userArnLikes : gmap string UserMapping.t;
  roles : gmap string RoleMapping.t;
  roleArnLikes : gmap string RoleMapping.t;
  awsAccounts : gset string;
}.

(** The named results of [ParseMap]. *)
Record Parsed : Type := {
  userMappings : list UserMapping.t;
  userArnLikeMappings : list UserMapping.t;
  roleMappings : list RoleMapping.t;
  roleArnLikeMappings : list RoleMapping.t;
  awsAccountList : list string;
  err : option error;
}.

Definition append_err (errs : list error) (err : option error) : list error :=
  match err with
  | Some err => errs ++ [err]
  | None => errs
  end.

Section functions.
Context {lib : Lib} {codec : Codec}.

(** The body of the loop over [rawUserMappings], on
    [(errs, userMappings, userArnLikeMappings)]. *)
Definition parseUserMapping
    (st : list error * list UserMapping.t * list UserMapping.t)
    (userMapping : UserMapping.t)
  : list error * list UserMapping.t * list UserMapping.t :=
  let '(errs, userMappings, userArnLikeMappings) := st in
  if bool_decide (UserMapping.UserARN userMapping = "")
     && bool_decide (UserMapping.UserARNLike userMapping = "") then
    (errs ++ [Errorf "One of userarn or userarnLike must be supplied" []],
     userMappings, userArnLikeMappings)
  else if bool_decide (UserMapping.UserARN userMapping ≠ "")
          && bool_decide (UserMapping.UserARNLike userMapping ≠ "") then
    (errs ++ [Errorf "Only one of userarn or userarnLike can be supplied" []],
     userMappings, userArnLikeMappings)
  else if bool_decide (UserMapping.UserARN userMapping ≠ "") then
    (errs, userMappings ++ [userMapping], userArnLikeMappings)
  else if bool_decide (UserMapping.UserARNLike userMapping ≠ "") then
    let errs :=
      match ArnLike (UserMapping.UserARNLike userMapping) "arn:*:iam:*:*:user/*" with
      | (_, Some err) => errs ++ [err]
      | (false, None) =>
        errs ++ [Errorf "UserARNLike '%s' did not match an ARN for an IAM User"
                        [UserMapping.UserARNLike userMapping]]
      | (true, None) => errs
      end in
    (errs, userMappings, userArnLikeMappings ++ [userMapping])
  else
    (errs ++ [Errorf "Unexpected error parsing userMapping: %v"
                     [fmt_UserMapping userMapping]],
     userMappings, userArnLikeMappings).

(** The body of the loop over [rawRoleMappings]. *)
Definition parseRoleMapping
    (st : list error * list RoleMapping.t * list RoleMapping.t)
    (roleMapping : RoleMapping.t)
  : list error * list RoleMapping.t * list RoleMapping.t :=
  let '(errs, roleMappings, roleArnLikeMappings) := st in
  if bool_decide (RoleMapping.RoleARN roleMapping = "")
     && bool_decide (RoleMapping.RoleARNLike roleMapping = "") then
    (errs ++ [Errorf "One of rolearn or rolearnLike must be supplied" []],
     roleMappings, roleArnLikeMappings)
  else if bool_decide (RoleMapping.RoleARN roleMapping ≠ "")
          && bool_decide (RoleMapping.RoleARNLike roleMapping ≠ "") then
    (errs ++ [Errorf "Only one of rolearn or rolearnLike can be supplied" []],
     roleMappings, roleArnLikeMappings)
  else if bool_decide (RoleMapping.RoleARN roleMapping ≠ "") then
    (errs, roleMappings ++ [roleMapping], roleArnLikeMappings)
  else if bool_decide (RoleMapping.RoleARNLike roleMapping ≠ "") then
    let errs :=
      match ArnLike (RoleMapping.RoleARNLike roleMapping) "arn:*:iam:*:*:role/*" with
      | (_, Some err) => errs ++ [err]
      | (false, None) =>
        errs ++ [Errorf "RoleARNLike '%s' did not match an ARN for an IAM Role"
                        [RoleMapping.RoleARNLike roleMapping]]
      | (true, None) => errs
      end in
    (errs, roleMappings, roleArnLikeMappings ++ [roleMapping])
  else
    (errs ++ [Errorf "Unexpected error parsing roleMapping: %v"
                     [fmt_RoleMapping roleMapping]],
     roleMappings, roleArnLikeMappings).

Definition ParseMap (m : gmap string string) : Parsed :=
  let errs : list error := [] in
  let '(errs, userMappings, userArnLikeMappings) :=
    match m !! "mapUsers" with
    | Some userData =>
      match utilyaml_ToJSON userData with
      | Err err => (errs ++ [err], [], [])
      | Ok userJson =>
        let '(rawUserMappings, err) := json_Unmarshal_UserMappings userJson in
        fold_left parseUserMapping rawUserMappings (append_err errs err, [], [])
      end
    | None => (errs, [], [])
    end in
  let '(errs, roleMappings, roleArnLikeMappings) :=
    match m !! "mapRoles" with
    | Some roleData =>
      match utilyaml_ToJSON roleData with
      | Err err => (errs ++ [err], [], [])
      | Ok roleJson =>
        let '(rawRoleMappings, err) := json_Unmarshal_RoleMappings roleJson in
        fold_left parseRoleMapping rawRoleMappings (append_err errs err, [], [])
      end
    | None => (errs, [], [])
    end in
  let '(awsAccounts, errs) :=
    match m !! "mapAccounts" with
    | Some accountsData =>
      let '(awsAccounts, err) := yaml_Unmarshal_strings accountsData in
      (awsAccounts, append_err errs err)
    | None => ([], errs)
    end in
  let err :=
    if bool_decide (0 < List.length errs) then Some (ErrParsingMap errs) else None in
  Build_Parsed userMappings userArnLikeMappings roleMappings roleArnLikeMappings
               awsAccounts err.

Definition EncodeMap (userMappings : list UserMapping.t)
    (roleMappings : list RoleMapping.t) (awsAccounts : list string)
  : outcome (gmap string string) :=
  let m : gmap string string := ∅ in
  match
    (if bool_decide (0 < List.length userMappings) then
       match yaml_Marshal_UserMappings userMappings with
       | Err err => Err err
       | Ok body => Ok (<["mapUsers" := body]> m)
       end
     else Ok m)
  with
  | Err err => Err err
  | Ok m =>
    match
      (if bool_decide (0 < List.length roleMappings) then
         match yaml_Marshal_RoleMappings roleMappings with
         | Err err => Err err
         | Ok body => Ok (<["mapRoles" := body]> m)
         end
       else Ok m)
    with
    | Err err => Err err
    | Ok m =>
      if bool_decide (0 < List.length awsAccounts) then
        match yaml_Marshal_strings awsAccounts with
        | Err err => Err err
        | Ok body => Ok (<["mapAccounts" := body]> m)
        end
      else Ok m
    end
  end.

(** [saveMap]: the five tables are made anew, then filled. *)
Definition saveMap (ms : MapStore)
    (userMappings userArnLikeMappings : list UserMapping.t)
    (roleMappings roleArnLikeMappings : list RoleMapping.t)
    (awsAccounts : list string) : MapStore :=
  {| users :=
       fold_left (λ t user, <[ToLower (UserMapping.UserARN user) := user]> t)
                 userMappings ∅;
     userArnLikes :=
       fold_left (λ t userArnLike,
                    <[UserMapping.UserARNLike userArnLike := userArnLike]> t)
                 userArnLikeMappings ∅;
     roles :=
       fold_left (λ t role, <[ToLower (RoleMapping.RoleARN role) := role]> t)
                 roleMappings ∅;
     roleArnLikes :=
       fold_left (λ t roleArnLike,
                    <[RoleMapping.RoleARNLike roleArnLike := roleArnLike]> t)
                 roleArnLikeMappings ∅;
     awsAccounts :=
       fold_left (λ t awsAccount, {[awsAccount]} ∪ t) awsAccounts ∅ |}.

(** The body of the loop of [startLoadConfigMap] over the events of a
    watch: the store after the event [r]. *)
Definition processEvent (ms : MapStore) (r : watch.Event) : MapStore :=
  match watch.Type_ r with
  | watch.Error => ms
  | watch.Deleted => saveMap ms [] [] [] [] []
  | watch.Added | watch.Modified =>
    match watch.Object_ r with
    | watch.ConfigMap cm =>
      if bool_decide (core_v1.Name cm ≠ "aws-auth") then ms
      else
        let p := ParseMap (core_v1.Data cm) in
        saveMap ms (userMappings p) (userArnLikeMappings p)
                (roleMappings p) (roleArnLikeMappings p) (awsAccountList p)
    | watch.Other => ms
    end
  | watch.Bookmark => ms
  end.

(** The events of one watch, in the order of the channel. *)
Definition processEvents (ms : MapStore) (rs : list watch.Event) : MapStore :=
  fold_left processEvent rs ms.

Definition UserMapping (ms : MapStore) (arn : string)
  : UserMapping.t * option error :=
  match users ms !! arn with
  | None => (UserMapping.zero, Some UserNotFound)
  | Some user => (user, None)
  end.

(** The loop of [UserArnLikeMapping], on the values in visit order. *)
Fixpoint UserArnLikeMapping_in (visit : list UserMapping.t) (arn : string)
  : UserMapping.t * option error :=
  match visit with
  | [] => (UserMapping.zero, Some UserARNLikeNotMatched)
  | userArnLike :: visit' =>
    match ArnLike arn (UserMapping.UserARNLike userArnLike) with
    | (_, Some err) => (UserMapping.zero, Some err)
    | (true, None) => (userArnLike, None)
    | (false, None) => UserArnLikeMapping_in visit' arn
    end
  end.

Inductive UserArnLikeMapping (ms : MapStore) (arn : string)
  : UserMapping.t * option error → Prop :=
| UserArnLikeMapping_run visit :
    ranges (userArnLikes ms) visit →
    UserArnLikeMapping ms arn (UserArnLikeMapping_in visit arn).

Definition RoleMapping (ms : MapStore) (arn : string)
  : RoleMapping.t * option error :=
  match roles ms !! arn with
  | None => (RoleMapping.zero, Some RoleNotFound)
  | Some role => (role, None)
  end.

Fixpoint RoleArnLikeMapping_in (visit : list RoleMapping.t) (arn : string)
  : RoleMapping.t * option error :=
  match visit with
  | [] => (RoleMapping.zero, Some RoleARNLikeNotMatched)
  | roleArnLike :: visit' =>
    match ArnLike arn (RoleMapping.RoleARNLike roleArnLike) with
    | (_, Some err) => (RoleMapping.zero, Some err)
    | (true, None) => (roleArnLike, None)
    | (false, None) => RoleArnLikeMapping_in visit' arn
    end
  end.

Inductive RoleArnLikeMapping (ms : MapStore) (arn : string)
  : RoleMapping.t * option error → Prop :=
| RoleArnLikeMapping_run visit :
    ranges (roleArnLikes ms) visit →
    RoleArnLikeMapping ms arn (RoleArnLikeMapping_in visit arn).

Definition AWSAccount (ms : MapStore) (id : string) : bool :=
  bool_decide (id ∈ awsAccounts ms).

(** [ConfigMapMapper.Map], given the visit orders of the two scans of
    the store. *)
Definition Map_in (roleVisit : list RoleMapping.t) (userVisit : list UserMapping.t)
    (m : MapStore) (canonicalARN : string) : outcome IdentityMapping.t :=
  let canonicalARN := ToLower canonicalARN in
  match RoleMapping m canonicalARN with
  | (rm, None) =>
    Ok (IdentityMapping.mk canonicalARN (RoleMapping.Username rm)
          (RoleMapping.Groups rm))
  | (_, Some _) =>
    match UserMapping m canonicalARN with
    | (um, None) =>
      Ok (IdentityMapping.mk canonicalARN (UserMapping.Username um)
            (UserMapping.Groups um))
    | (_, Some _) =>
      match RoleArnLikeMapping_in roleVisit canonicalARN with
      | (ralm, None) =>
        Ok (IdentityMapping.mk canonicalARN (RoleMapping.Username ralm)
              (RoleMapping.Groups ralm))
      | (_, Some _) =>
        match UserArnLikeMapping_in userVisit canonicalARN with
        | (ualm, None) =>
          Ok (IdentityMapping.mk canonicalARN (UserMapping.Username ualm)
                (UserMapping.Groups ualm))
        | (_, Some _) => Err ErrNotMapped
        end
      end
    end
  end.

Inductive Map (m : MapStore) (canonicalARN : string)
  : outcome IdentityMapping.t → Prop :=
| Map_run roleVisit userVisit :
    ranges (roleArnLikes m) roleVisit →
    ranges (userArnLikes m) userVisit →
    Map m canonicalARN (Map_in roleVisit userVisit m canonicalARN).

Definition IsAccountAllowed (m : MapStore) (accountID : string) : bool :=
  AWSAccount m accountID.
End functions.

End configmap.

(** ** Package client: additions to the external document *)

Module client.

Definition mapName : string := "aws-auth".

(** [k8s_errors.IsConflict]. *)
Definition IsConflict (e : error) : bool :=
  match e with
  | StatusError StatusReasonConflict => true
  | _ => false
  end.

(** [retry.RetryOnConflict] with a backoff of [steps] steps: [fn] runs
    again while it fails with a conflict, at most [steps] times; the last
    conflict is the result when the steps are used up.  [S] is the state
    that [fn] reads and writes. *)
Fixpoint RetryOnConflict {S : Type} (steps : nat)
    (fn : S → option error * S) (s : S) : option error * S :=
  match steps with
  | 0 => (None, s)
  | S n =>
    match fn s with
    | (None, s') => (None, s')
    | (Some err, s') =>
      if IsConflict err then
        match n with
        | 0 => (Some err, s')
        | S _ => RetryOnConflict n fn s'
        end
      else (Some err, s')
    end
  end.

(** [retry.DefaultRetry.Steps], of the library [k8s.io/client-go/util/retry]:
    five there.  The theorems use of this number that it is not zero. *)
Definition DefaultRetry_Steps : nat := 5.

(** The two closures of a client, over the state [W] that they share
    (the external document store).  Each returns a non-nil object next
    to its error, as the API client does. *)
Record client (W : Type) : Type := {
  getMap : W → (core_v1.ConfigMap * option error) * W;
  updateMap : core_v1.ConfigMap → W → (core_v1.ConfigMap * option error) * W;
}.
Arguments getMap {W} _ _.
Arguments updateMap {W} _ _ _.

Definition set_Data (cm : core_v1.ConfigMap) (data : gmap string string)
  : core_v1.ConfigMap :=
  {| core_v1.Name := core_v1.Name cm;
     core_v1.ResourceVersion := core_v1.ResourceVersion cm;
     core_v1.Data := data |}.

(** The closure of [add] binds five names to the results of
    [configmap.ParseMap]: [userMappings], [roleMappings], [arnLikeMappings],
    [awsAccounts] and [err]; [ParseMap] returns six.  The types decide
    [awsAccounts], the one list of strings, and [err]; they do not decide
    which of the user lists and of the role lists that [ParseMap] returns
    the names [userMappings] and [roleMappings] stand for.  These two lists
    are parameters of the embedding: functions of the results of
    [ParseMap]. *)
Class Binding : Type := {
  userMappings : configmap.Parsed → list UserMapping.t;
  roleMappings : configmap.Parsed → list RoleMapping.t;
}.

Section methods.
Context {lib : Lib} {codec : Codec} {binding : Binding} {W : Type}.

(** The closure that [add] hands to [RetryOnConflict], on the variable
    [cm] of [add] and the state of the store.  [AddRole] and [AddUser]
    call [add] with a nil [arnLikeMapping]: the block that this argument
    guards is not entered, and the closure reads [userMappings],
    [roleMappings], [awsAccounts] and [err]. *)
Definition attempt (cli : client W)
    (role : option RoleMapping.t) (user : option UserMapping.t)
    (st : option core_v1.ConfigMap * W)
  : option error * (option core_v1.ConfigMap * W) :=
  let '((cm, err), w) := getMap cli st.2 in
  match err with
  | Some err => (Some err, (Some cm, w))
  | None =>
    let data := core_v1.Data cm in
    let p := configmap.ParseMap data in
    match configmap.err p with
    | Some err =>
      (Some (Errorf "failed to parse configmap %v" [Error err]), (Some cm, w))
    | None =>
      let userMappings := userMappings p in
      let roleMappings := roleMappings p in
      let awsAccounts := configmap.awsAccountList p in
      match
        match role with
        | Some role =>
          if existsb (λ r, bool_decide (RoleMapping.RoleARN r = RoleMapping.RoleARN role))
                     roleMappings
          then Err (Errorf "cannot add duplicate role ARN %q" [RoleMapping.RoleARN role])
          else Ok (roleMappings ++ [role])
        | None => Ok roleMappings
        end
      with
      | Err err => (Some err, (Some cm, w))
      | Ok roleMappings =>
        match
          match user with
          | Some user =>
            if existsb (λ r, bool_decide (UserMapping.UserARN r = UserMapping.UserARN user))
                       userMappings
            then Err (Errorf "cannot add duplicate user ARN %q" [UserMapping.UserARN user])
            else Ok (userMappings ++ [user])
          | None => Ok userMappings
          end
        with
        | Err err => (Some err, (Some cm, w))
        | Ok userMappings =>
          match configmap.EncodeMap userMappings roleMappings awsAccounts with
          | Err err => (Some err, (Some cm, w))
          | Ok data =>
            let cm := set_Data cm data in
            let '((updatedCm, err), w) := updateMap cli cm w in
            match err with
            | Some err => (Some err, (Some cm, w))
            | None => (None, (Some updatedCm, w))
            end
          end
        end
      end
    end
  end.

Definition add (cli : client W)
    (role : option RoleMapping.t) (user : option UserMapping.t) (w : W)
  : (option core_v1.ConfigMap * option error) * W :=
  match role, user with
  | None, None => ((None, Some (Errorf "empty role/user" [])), w)
  | _, _ =>
    let '(err, (cm, w)) :=
      RetryOnConflict DefaultRetry_Steps (attempt cli role user) (None, w) in
    ((cm, err), w)
  end.

Definition AddRole (cli : client W) (role : option RoleMapping.t) (w : W)
  : (option core_v1.ConfigMap * option error) * W :=
  match role with
  | None => ((None, Some (Errorf "empty role" [])), w)
  | Some _ => add cli role None w
  end.

Definition AddUser (cli : client W) (user : option UserMapping.t) (w : W)
  : (option core_v1.ConfigMap * option error) * W :=
  match user with
  | None => ((None, Some (Errorf "empty user" [])), w)
  | Some _ => add cli None user w
  end.

(** [AddARNLikeMapping] calls [add] with a nil role and a nil user; [add]
    returns on its first test, before it looks at the mapping.  [A] is the
    type [config.ARNLikeMapping]. *)
Definition AddARNLikeMapping {A : Type} (cli : client W)
    (arnLikeMapping : option A) (w : W)
  : (option core_v1.ConfigMap * option error) * W :=
  match arnLikeMapping with
  | None => ((None, Some (Errorf "empty arnLikeMapping" [])), w)
  | Some _ => add cli None None w
  end.
End methods.

(** The error of a call is a duplicate-entry error. *)
Definition DuplicateEntry (e : error) : Prop :=
  ∃ arn, e = Errorf "cannot add duplicate role ARN %q" [arn]
         ∨ e = Errorf "cannot add duplicate user ARN %q" [arn].

End client.

(** ** Implementations of the library calls, to run the code *)

Module model.

(** [strings.ToLower] on ASCII text. *)
Definition lower (c : ascii) : ascii :=
  let n := nat_of_ascii c in
  if (65 <=? n)%nat && (n <=? 90)%nat then ascii_of_nat (n + 32) else c.

Fixpoint ToLower (s : string) : string :=
  match s with
  | EmptyString => EmptyString
  | String c s' => String (lower c) (ToLower s')
  end.

Definition is_upper (c : ascii) : bool :=
  let n := nat_of_ascii c in (65 <=? n)%nat && (n <=? 90)%nat.

(** A glob over the whole string: [*] is any run of characters, [?] any
    single character, every other character stands for itself. *)
Fixpoint glob (pattern s : string) : bool :=
  match pattern with
  | EmptyString => match s with EmptyString => true | String _ _ => false end
  | String c pattern' =>
    if Ascii.eqb c "*" then
      (fix star (s : string) : bool :=
         glob pattern' s
         || match s with EmptyString => false | String _ s' => star s' end) s
    else
      match s with
      | EmptyString => false
      | String d s' => (Ascii.eqb c "?" || Ascii.eqb c d) && glob pattern' s'
      end
  end.

Fixpoint colons (s : string) : nat :=
  match s with
  | EmptyString => 0
  | String c s' => (if Ascii.eqb c ":" then 1 else 0) + colons s'
  end.

(** The shape [arn:<partition>:<service>:<region>:<account>:<resource>]:
    the prefix and six sections. *)
Definition well_formed (s : string) : bool :=
  String.prefix "arn:" s && (5 <=? colons s)%nat.

(** Modelled from the spec: [arnlike.ArnLike] is not under src/.  The
    spec's [Matches(pattern, candidateARN)] is a glob comparison with
    [*] and [?] over the full string, with an error return for malformed
    input. *)
Definition ArnLike (arn pattern : string) : bool * option error :=
  if negb (well_formed arn) then
    (false, Some (LibError "Could not parse input arn"))
  else if negb (well_formed pattern) then
    (false, Some (LibError "Could not parse ArnLike string"))
  else (glob pattern arn, None).

(** Modelled from the spec: [arn.Canonicalize] is not under src/.  The
    spec's [Canonicalize(arn)] validates the ARN shape and returns the
    lower-cased canonical form, or fails with a malformed-ARN error. *)
Definition Canonicalize (arn : string) : outcome string :=
  if well_formed arn then Ok (ToLower arn) else Err (LibError "malformed ARN").

Definition lib : Lib := Build_Lib ToLower Canonicalize ArnLike.

(** A codec with a textual form of its own (S-expressions) in the place
    of the YAML and JSON libraries. *)
#[global] Instance Serialize_RoleMapping : Serialize RoleMapping.t :=
  fun m => [Atom "role"; to_sexp (RoleMapping.RoleARN m);
            to_sexp (RoleMapping.RoleARNLike m); to_sexp (RoleMapping.Username m);
            to_sexp (RoleMapping.Groups m)]%sexp.

#[global] Instance Deserialize_RoleMapping : Deserialize RoleMapping.t :=
  Deser.match_con "role" [] [("role", Deser.con4_ RoleMapping.mk)].

#[global] Instance Serialize_UserMapping : Serialize UserMapping.t :=
  fun m => [Atom "user"; to_sexp (UserMapping.UserARN m);
            to_sexp (UserMapping.UserARNLike m); to_sexp (UserMapping.Username m);
            to_sexp (UserMapping.Groups m)]%sexp.

#[global] Instance Deserialize_UserMapping : Deserialize UserMapping.t :=
  Deser.match_con "user" [] [("user", Deser.con4_ UserMapping.mk)].

Definition decode {A} `{Deserialize A} (text : string) : list A * option error :=
  match from_string text with
  | inr l => (l, None)
  | inl _ => ([], Some (LibError "cannot decode"))
  end.

Definition codec : Codec := {|
  utilyaml_ToJSON text := Ok text;
  json_Unmarshal_UserMappings := decode;
  json_Unmarshal_RoleMappings := decode;
  yaml_Unmarshal_strings := decode;
  yaml_Marshal_UserMappings l := Ok (to_string l);
  yaml_Marshal_RoleMappings l := Ok (to_string l);
  yaml_Marshal_strings l := Ok (to_string l);
|}.

(** A document store in memory: reads return the stored document, an
    update stores the document it is given. *)
Definition memClient : client.client core_v1.ConfigMap := {|
  client.getMap w := ((w, None), w);
  client.updateMap m _ := ((m, None), m);
|}.

(** Two bindings of the names of [add].  The first gives each name the
    result of [ParseMap] of the same name: the entries with an exact ARN.
    The second gives each name all the entries of its kind, those with an
    exact ARN and those with a pattern: the one user list and the one role
    list that the tests of the client are written for. *)
Definition byName : client.Binding := {|
  client.userMappings := configmap.userMappings;
  client.roleMappings := configmap.roleMappings;
|}.

Definition allEntries : client.Binding := {|
  client.userMappings p := configmap.userMappings p ++ configmap.userArnLikeMappings p;
  client.roleMappings p := configmap.roleMappings p ++ configmap.roleArnLikeMappings p;
|}.

(** A store that holds the document [cm] and refuses every update with a
    conflict; its state counts the updates that were tried. *)
Definition refusingClient (cm : core_v1.ConfigMap) : client.client nat := {|
  client.getMap n := ((cm, None), n);
  client.updateMap m n := ((m, Some (StatusError StatusReasonConflict)), S n);
|}.

(** The configuration of the tests of the static mapper. *)
Definition newConfig : Config := {|
  RoleMappings :=
    [ RoleMapping.mk "arn:aws:iam::0123456789012:role/test-role" "" "roland"
                     ["system:masters"];
      RoleMapping.mk "" "arn:aws:iam::0123456789012:role/cookie-cutt*"
                     "cookie-cutter" ["system:masters"] ];
  UserMappings :=
    [ UserMapping.mk "arn:aws:iam::0123456789012:user/donald" "" "donald"
                     ["system:masters"];
      UserMapping.mk "" "arn:aws:iam::0123456789012:user/shrey*" "shreyas"
                     ["system:masters"] ];
  AutoMappedAWSAccounts := ["000000000000"];
|}.

(** The mapper that [NewFileMapper] builds from [newConfig]. *)
Definition testMapper : file.FileMapper :=
  match file.NewFileMapper (lib := lib) newConfig with
  | Ok fm => fm
  | Err _ => file.empty
  end.

Definition cookieCutter : RoleMapping.t :=
  RoleMapping.mk "" "arn:aws:iam::0123456789012:role/cookie-cutt*"
                 "cookie-cutter" ["system:masters"].
Definition shreyas : UserMapping.t :=
  UserMapping.mk "" "arn:aws:iam::0123456789012:user/shrey*" "shreyas"
                 ["system:masters"].

(** A configuration with the same role ARN twice, in two spellings. *)
Definition first : RoleMapping.t :=
  RoleMapping.mk "arn:aws:iam::0123456789012:role/Admin" "" "first" ["viewers"].
Definition second : RoleMapping.t :=
  RoleMapping.mk "arn:aws:iam::0123456789012:role/admin" "" "second"
                 ["system:masters"].
Definition duplicateConfig : Config := {|
  RoleMappings := [first; second];
  UserMappings := [];
  AutoMappedAWSAccounts := [];
|}.

(** Role lists of a document: a well-formed entry with an entry that has
    both identifying fields; and an entry whose pattern is an ARN of a
    user. *)
Definition nodes : RoleMapping.t :=
  RoleMapping.mk "arn:aws:iam::123456789101:role/test-NodeInstanceRole" ""
                 "system:node:{{EC2PrivateDNSName}}" ["system:nodes"].
Definition both : RoleMapping.t :=
  RoleMapping.mk "arn:aws:iam::123456789101:role/a"
                 "arn:aws:iam::123456789101:role/a*" "a" [].
Definition bob : RoleMapping.t :=
  RoleMapping.mk "" "arn:aws:iam::123456789101:user/bob" "bob" ["system:masters"].

Definition document (roles : list RoleMapping.t) : gmap string string :=
  {["mapRoles" := to_string roles]}.

Definition configMap (data : gmap string string) : core_v1.ConfigMap :=
  {| core_v1.Name := "aws-auth"; core_v1.ResourceVersion := "1";
     core_v1.Data := data |}.

(** The store of the tests of the live mapper. *)
Definition makeStore : configmap.MapStore := {|
  configmap.users :=
    {["matt" := UserMapping.mk "" "" "matlan" ["system:master"; "dev"]]};
  configmap.userArnLikes :=
    {["arn:aws:iam::012345678912:user/logan" :=
        UserMapping.mk "" "arn:aws:iam::012345678912:user/log??" "logan"
                       ["system:master"; "dev"]]};
  configmap.roles :=
    {["instance" := RoleMapping.mk "" "" "computer" ["system:nodes"]]};
  configmap.roleArnLikes :=
    {["arn:aws:iam::012345678912:role/computer" :=
        RoleMapping.mk "" "arn:aws:iam::012345678912:role/comp*" "computer"
                       ["system:nodes"]]};
  configmap.awsAccounts := {["123"]};
|}.

(** A pattern entry of a role in mixed case. *)
Definition mixed : RoleMapping.t :=
  RoleMapping.mk "" "arn:aws:iam::0123456789012:role/Cookie-*" "cookie" [].
End model.


(** ** The properties, in the words of the specification *)

Section properties.
Context {lib : Lib}.

(** A role entry is valid: exactly one of its two identifying fields is
    set, an exact ARN canonicalizes, a pattern has the shape of a role. *)
Definition role_entry_valid (m : RoleMapping.t) : Prop :=
  (RoleMapping.RoleARN m ≠ "" ∧ RoleMapping.RoleARNLike m = ""
   ∧ ∃ c, Canonicalize (ToLower (RoleMapping.RoleARN m)) = Ok c)
  ∨ (RoleMapping.RoleARN m = "" ∧ RoleMapping.RoleARNLike m ≠ ""
     ∧ ArnLike (RoleMapping.RoleARNLike m) "arn:*:iam:*:*:role/*" = (true, None)).

Definition user_entry_valid (m : UserMapping.t) : Prop :=
  (UserMapping.UserARN m ≠ "" ∧ UserMapping.UserARNLike m = ""
   ∧ ∃ c, Canonicalize (ToLower (UserMapping.UserARN m)) = Ok c)
  ∨ (UserMapping.UserARN m = "" ∧ UserMapping.UserARNLike m ≠ ""
     ∧ ArnLike (UserMapping.UserARNLike m) "arn:*:iam:*:*:user/*" = (true, None)).

(** The four ways in which an entry is invalid. *)
Definition role_entry_invalid (m : RoleMapping.t) : Prop :=
  (RoleMapping.RoleARN m = "" ∧ RoleMapping.RoleARNLike m = "")
  ∨ (RoleMapping.RoleARN m ≠ "" ∧ RoleMapping.RoleARNLike m ≠ "")
  ∨ (RoleMapping.RoleARN m = "" ∧ RoleMapping.RoleARNLike m ≠ ""
     ∧ ArnLike (RoleMapping.RoleARNLike m) "arn:*:iam:*:*:role/*" ≠ (true, None))
  ∨ (RoleMapping.RoleARN m ≠ "" ∧ RoleMapping.RoleARNLike m = ""
     ∧ ∃ e, Canonicalize (ToLower (RoleMapping.RoleARN m)) = Err e).

Definition user_entry_invalid (m : UserMapping.t) : Prop :=
  (UserMapping.UserARN m = "" ∧ UserMapping.UserARNLike m = "")
  ∨ (UserMapping.UserARN m ≠ "" ∧ UserMapping.UserARNLike m ≠ "")
  ∨ (UserMapping.UserARN m = "" ∧ UserMapping.UserARNLike m ≠ ""
     ∧ ArnLike (UserMapping.UserARNLike m) "arn:*:iam:*:*:user/*" ≠ (true, None))
  ∨ (UserMapping.UserARN m ≠ "" ∧ UserMapping.UserARNLike m = ""
     ∧ ∃ e, Canonicalize (ToLower (UserMapping.UserARN m)) = Err e).
(** The identity that an entry gives to a principal. *)
Definition role_identity (c : string) (m : RoleMapping.t) : IdentityMapping.t :=
  IdentityMapping.mk c (RoleMapping.Username m) (RoleMapping.Groups m).
Definition user_identity (c : string) (m : UserMapping.t) : IdentityMapping.t :=
  IdentityMapping.mk c (UserMapping.Username m) (UserMapping.Groups m).

(** The pattern matches the candidate. *)
Definition matches (c pattern : string) : bool :=
  match ArnLike c pattern with
  | (true, None) => true
  | _ => false
  end.

(** The evaluation of the pattern on the candidate raises no error. *)
Definition evaluates (c pattern : string) : Prop :=
  (ArnLike c pattern).2 = None.

(** The matcher raises an error on malformed text and on nothing else:
    an evaluation is free of error exactly when the candidate and the
    pattern are both well formed. *)
Definition ArnLike_errors_on_malformed (well_formed : string → bool) : Prop :=
  ∀ arn pattern,
    (ArnLike arn pattern).2 = None
    ↔ well_formed arn = true ∧ well_formed pattern = true.

(** [Map] in the words of the specification, on the two tables of exact
    entries and the pattern entries in the order of the scans: lower-case
    the input, then exact role, exact user, first matching role pattern,
    first matching user pattern, else [NotMapped]. *)
Definition Map_spec (roleExact : gmap string RoleMapping.t)
    (userExact : gmap string UserMapping.t)
    (rolePatterns : list RoleMapping.t) (userPatterns : list UserMapping.t)
    (arn : string) : outcome IdentityMapping.t :=
  let c := ToLower arn in
  match roleExact !! c with
  | Some m => Ok (role_identity c m)
  | None =>
    match userExact !! c with
    | Some m => Ok (user_identity c m)
    | None =>
      match List.find (λ m, matches c (RoleMapping.RoleARNLike m)) rolePatterns with
      | Some m => Ok (role_identity c m)
      | None =>
        match List.find (λ m, matches c (UserMapping.UserARNLike m)) userPatterns with
        | Some m => Ok (user_identity c m)
        | None => Err ErrNotMapped
        end
      end
    end
  end.

(** What a stage of the live mapper yields: the identity of a lookup
    that succeeded, nothing for a lookup that returned an error. *)
Definition role_hit (c : string) (r : RoleMapping.t * option error)
  : option IdentityMapping.t :=
  match r with
  | (m, None) => Some (role_identity c m)
  | (_, Some _) => None
  end.
Definition user_hit (c : string) (r : UserMapping.t * option error)
  : option IdentityMapping.t :=
  match r with
  | (m, None) => Some (user_identity c m)
  | (_, Some _) => None
  end.

(** The first stage that yields an identity, [NotMapped] when none does. *)
Fixpoint first_hit (stages : list (option IdentityMapping.t))
  : outcome IdentityMapping.t :=
  match stages with
  | [] => Err ErrNotMapped
  | Some id :: _ => Ok id
  | None :: stages' => first_hit stages'
  end.

(** The last entry of a list with a property: the entry that a table
    built by successive insertion holds for a key. *)
Definition last_such {A} (P : A → bool) (l : list A) : option A :=
  List.find P (rev l).

(** The keys under which the static mapper files its entries. *)
Definition static_role_exact_key (k : string) (m : RoleMapping.t) : bool :=
  bool_decide (RoleMapping.RoleARN m ≠ "")
  && match Canonicalize (ToLower (RoleMapping.RoleARN m)) with
     | Ok c => bool_decide (c = k)
     | Err _ => false
     end.
Definition static_role_pattern_key (k : string) (m : RoleMapping.t) : bool :=
  bool_decide (RoleMapping.RoleARN m = "") && bool_decide (RoleMapping.RoleARNLike m = k).
Definition static_user_exact_key (k : string) (m : UserMapping.t) : bool :=
  bool_decide (UserMapping.UserARN m ≠ "")
  && match Canonicalize (ToLower (UserMapping.UserARN m)) with
     | Ok c => bool_decide (c = k)
     | Err _ => false
     end.
Definition static_user_pattern_key (k : string) (m : UserMapping.t) : bool :=
  bool_decide (UserMapping.UserARN m = "") && bool_decide (UserMapping.UserARNLike m = k).

(** The keys under which [saveMap] files its entries. *)
Definition store_role_exact_key (k : string) (m : RoleMapping.t) : bool :=
  bool_decide (ToLower (RoleMapping.RoleARN m) = k).
Definition store_role_pattern_key (k : string) (m : RoleMapping.t) : bool :=
  bool_decide (RoleMapping.RoleARNLike m = k).
Definition store_user_exact_key (k : string) (m : UserMapping.t) : bool :=
  bool_decide (ToLower (UserMapping.UserARN m) = k).
Definition store_user_pattern_key (k : string) (m : UserMapping.t) : bool :=
  bool_decide (UserMapping.UserARNLike m = k).
(** The records of a document, by their identifying fields. *)
Definition role_exact_only (m : RoleMapping.t) : bool :=
  bool_decide (RoleMapping.RoleARN m ≠ "") && bool_decide (RoleMapping.RoleARNLike m = "").
Definition role_pattern_only (m : RoleMapping.t) : bool :=
  bool_decide (RoleMapping.RoleARN m = "") && bool_decide (RoleMapping.RoleARNLike m ≠ "").
Definition user_exact_only (m : UserMapping.t) : bool :=
  bool_decide (UserMapping.UserARN m ≠ "") && bool_decide (UserMapping.UserARNLike m = "").
Definition user_pattern_only (m : UserMapping.t) : bool :=
  bool_decide (UserMapping.UserARN m = "") && bool_decide (UserMapping.UserARNLike m ≠ "").

(** A record of a document validates: one identifying field, and a
    pattern of the shape of its principal type. *)
Definition role_record_valid (m : RoleMapping.t) : bool :=
  role_exact_only m
  || (role_pattern_only m && matches (RoleMapping.RoleARNLike m) "arn:*:iam:*:*:role/*").
Definition user_record_valid (m : UserMapping.t) : bool :=
  user_exact_only m
  || (user_pattern_only m && matches (UserMapping.UserARNLike m) "arn:*:iam:*:*:user/*").

(** The causes that the loop body of [ParseMap] adds for a record. *)
Definition role_causes (m : RoleMapping.t) : list error :=
  (configmap.parseRoleMapping ([], [], []) m).1.1.
Definition user_causes (m : UserMapping.t) : list error :=
  (configmap.parseUserMapping ([], [], []) m).1.1.

(** The string has an upper-case ASCII letter. *)
Definition has_upper (s : string) : Prop :=
  ∃ c, In c (list_ascii_of_string s) ∧ model.is_upper c = true.
End properties.

Section document_properties.
Context {lib : Lib} {codec : Codec}.

(** What the fields of a document decode to: the records, and the errors
    of the decoding.  An absent field gives neither. *)
Definition decode_users (m : gmap string string) : list UserMapping.t * list error :=
  match m !! "mapUsers" with
  | None => ([], [])
  | Some userData =>
    match utilyaml_ToJSON userData with
    | Err err => ([], [err])
    | Ok userJson =>
      let '(raw, err) := json_Unmarshal_UserMappings userJson in (raw, option_list err)
    end
  end.

Definition decode_roles (m : gmap string string) : list RoleMapping.t * list error :=
  match m !! "mapRoles" with
  | None => ([], [])
  | Some roleData =>
    match utilyaml_ToJSON roleData with
    | Err err => ([], [err])
    | Ok roleJson =>
      let '(raw, err) := json_Unmarshal_RoleMappings roleJson in (raw, option_list err)
    end
  end.

Definition decode_accounts (m : gmap string string) : list string * list error :=
  match m !! "mapAccounts" with
  | None => ([], [])
  | Some accountsData =>
    let '(raw, err) := yaml_Unmarshal_strings accountsData in (raw, option_list err)
  end.

(** The result of [ParseMap], said at once: the decoded records, sorted by
    their identifying field in the order of the document, and the causes
    in the order users, roles, accounts. *)
Definition ParseMap_spec (m : gmap string string) : configmap.Parsed :=
  let errs :=
    (decode_users m).2 ++ List.concat (map user_causes (decode_users m).1)
    ++ (decode_roles m).2 ++ List.concat (map role_causes (decode_roles m).1)
    ++ (decode_accounts m).2 in
  {| configmap.userMappings := List.filter user_exact_only (decode_users m).1;
     configmap.userArnLikeMappings := List.filter user_pattern_only (decode_users m).1;
     configmap.roleMappings := List.filter role_exact_only (decode_roles m).1;
     configmap.roleArnLikeMappings := List.filter role_pattern_only (decode_roles m).1;
     configmap.awsAccountList := (decode_accounts m).1;
     configmap.err :=
       match errs with
       | [] => None
       | _ :: _ => Some (ErrParsingMap errs)
       end |}.
End document_properties.

(** The events that replace the contents of the store: a [Deleted] event,
    and an [Added] or [Modified] event that carries the document
    [aws-auth]. *)
Definition replaces (r : watch.Event) : bool :=
  match watch.Type_ r with
  | watch.Deleted => true
  | watch.Added | watch.Modified =>
    match watch.Object_ r with
    | watch.ConfigMap cm => bool_decide (core_v1.Name cm = "aws-auth")
    | watch.Other => false
    end
  | watch.Bookmark | watch.Error => false
  end.

(** * Proofs *)

Ltac case_fields :=
  repeat (case_bool_decide; simpl in *; try congruence).

Section fail_fast.
Context {lib : Lib}.

Lemma role_entry_valid_or_invalid m :
  (role_entry_valid m ∧ ¬ role_entry_invalid m)
  ∨ (role_entry_invalid m ∧ ¬ role_entry_valid m).
Proof.
  unfold role_entry_valid, role_entry_invalid.
  destruct (decide (RoleMapping.RoleARN m = "")) as [Ha|Ha],
           (decide (RoleMapping.RoleARNLike m = "")) as [Hl|Hl].
  - right. split; [tauto | intros [[? _]|[_ [? _]]]; congruence].
  - destruct (ArnLike (RoleMapping.RoleARNLike m) "arn:*:iam:*:*:role/*")
      as [[] [e|]] eqn:E.
    all: first [ left; split; [tauto | intros [[? ?]|[[? ?]|[(_ & _ & ?)|[? _]]]]; congruence]
               | right; split; [right; right; left; repeat split; congruence
                               | intros [[? _]|(_ & _ & ?)]; congruence] ].
  - destruct (Canonicalize (ToLower (RoleMapping.RoleARN m))) as [c|e] eqn:E.
    + left. split; [left; eauto |].
      intros [[? ?]|[[? ?]|[[? _]|(_ & _ & e & ?)]]]; congruence.
    + right. split; [right; right; right; eauto |].
      intros [(_ & _ & c & ?)|[? _]]; congruence.
  - right. split; [tauto | intros [(_ & ? & _)|[? _]]; congruence].
Qed.

Lemma user_entry_valid_or_invalid m :
  (user_entry_valid m ∧ ¬ user_entry_invalid m)
  ∨ (user_entry_invalid m ∧ ¬ user_entry_valid m).
Proof.
  unfold user_entry_valid, user_entry_invalid.
  destruct (decide (UserMapping.UserARN m = "")) as [Ha|Ha],
           (decide (UserMapping.UserARNLike m = "")) as [Hl|Hl].
  - right. split; [tauto | intros [[? _]|[_ [? _]]]; congruence].
  - destruct (ArnLike (UserMapping.UserARNLike m) "arn:*:iam:*:*:user/*")
      as [[] [e|]] eqn:E.
    all: first [ left; split; [tauto | intros [[? ?]|[[? ?]|[(_ & _ & ?)|[? _]]]]; congruence]
               | right; split; [right; right; left; repeat split; congruence
                               | intros [[? _]|(_ & _ & ?)]; congruence] ].
  - destruct (Canonicalize (ToLower (UserMapping.UserARN m))) as [c|e] eqn:E.
    + left. split; [left; eauto |].
      intros [[? ?]|[[? ?]|[[? _]|(_ & _ & e & ?)]]]; congruence.
    + right. split; [right; right; right; eauto |].
      intros [(_ & _ & c & ?)|[? _]]; congruence.
  - right. split; [tauto | intros [(_ & ? & _)|[? _]]; congruence].
Qed.

(** One turn of the loop over the role mappings. *)
Lemma addRoleMappings_cons m ms fm :
  (role_entry_valid m ∧
   ∃ fm', file.addRoleMappings (m :: ms) fm = file.addRoleMappings ms fm')
  ∨ (role_entry_invalid m ∧ ∃ e, file.addRoleMappings (m :: ms) fm = Err e).
Proof.
  destruct (role_entry_valid_or_invalid m) as [[Hv _]|[Hi Hn]].
  - left. split; [done |]. simpl.
    destruct Hv as [(Ha & Hl & c & Hc)|(Ha & Hl & Hp)].
    + rewrite Hc. case_fields. eauto.
    + rewrite Hp. case_fields. eauto.
  - right. split; [done |]. simpl. unfold role_entry_valid in Hn.
    case_fields; eauto.
    all: match goal with
         | |- context [match Canonicalize ?x with _ => _ end] =>
           destruct (Canonicalize x) eqn:E
         | |- context [ArnLike ?a ?p] =>
           destruct (ArnLike a p) as [[] [e|]] eqn:E
         end; eauto.
    all: exfalso; apply Hn; first [left; by eauto | right; by eauto].
Qed.

Lemma addUserMappings_cons m ms fm :
  (user_entry_valid m ∧
   ∃ fm', file.addUserMappings (m :: ms) fm = file.addUserMappings ms fm')
  ∨ (user_entry_invalid m ∧ ∃ e, file.addUserMappings (m :: ms) fm = Err e).
Proof.
  destruct (user_entry_valid_or_invalid m) as [[Hv _]|[Hi Hn]].
  - left. split; [done |]. simpl.
    destruct Hv as [(Ha & Hl & c & Hc)|(Ha & Hl & Hp)].
    + rewrite Hc. case_fields. eauto.
    + rewrite Hp. case_fields. eauto.
  - right. split; [done |]. simpl. unfold user_entry_valid in Hn.
    case_fields; eauto.
    all: match goal with
         | |- context [match Canonicalize ?x with _ => _ end] =>
           destruct (Canonicalize x) eqn:E
         | |- context [ArnLike ?a ?p] =>
           destruct (ArnLike a p) as [[] [e|]] eqn:E
         end; eauto.
    all: exfalso; apply Hn; first [left; by eauto | right; by eauto].
Qed.

Lemma addRoleMappings_Ok ms : ∀ fm,
  (∃ fm', file.addRoleMappings ms fm = Ok fm') ↔ Forall role_entry_valid ms.
Proof.
  induction ms as [|m ms IH]; intros fm.
  - split; [constructor | simpl; eauto].
  - destruct (addRoleMappings_cons m ms fm) as [[Hv [fm1 E]]|[Hi [e E]]]; rewrite E.
    + rewrite IH, Forall_cons. tauto.
    + destruct (role_entry_valid_or_invalid m) as [[_ ?]|[_ Hn]]; [done |].
      rewrite Forall_cons. split; [intros [? ?]; discriminate | tauto].
Qed.

Lemma addUserMappings_Ok ms : ∀ fm,
  (∃ fm', file.addUserMappings ms fm = Ok fm') ↔ Forall user_entry_valid ms.
Proof.
  induction ms as [|m ms IH]; intros fm.
  - split; [constructor | simpl; eauto].
  - destruct (addUserMappings_cons m ms fm) as [[Hv [fm1 E]]|[Hi [e E]]]; rewrite E.
    + rewrite IH, Forall_cons. tauto.
    + destruct (user_entry_valid_or_invalid m) as [[_ ?]|[_ Hn]]; [done |].
      rewrite Forall_cons. split; [intros [? ?]; discriminate | tauto].
Qed.

Lemma NewFileMapper_Ok cfg :
  (∃ fm, file.NewFileMapper cfg = Ok fm)
  ↔ Forall role_entry_valid (RoleMappings cfg)
    ∧ Forall user_entry_valid (UserMappings cfg).
Proof.
  unfold file.NewFileMapper.
  rewrite <- (addRoleMappings_Ok _ file.empty).
  destruct (file.addRoleMappings _ _) as [fm1|e] eqn:E1.
  - rewrite <- (addUserMappings_Ok _ fm1).
    destruct (file.addUserMappings _ _) as [fm2|e] eqn:E2.
    + split; eauto.
    + split; [intros [? ?]; discriminate | intros [_ [? ?]]; discriminate].
  - split; [intros [? ?]; discriminate | intros [[? ?] _]; discriminate].
Qed.

Lemma Forall_valid_Exists_invalid_role ms :
  ¬ Forall role_entry_valid ms ↔ Exists role_entry_invalid ms.
Proof.
  induction ms as [|m ms IH].
  - split; [intros Hn; destruct Hn; constructor | inversion 1].
  - rewrite Forall_cons, Exists_cons, <- IH.
    destruct (role_entry_valid_or_invalid m) as [[? ?]|[? ?]]; tauto.
Qed.

Lemma Forall_valid_Exists_invalid_user ms :
  ¬ Forall user_entry_valid ms ↔ Exists user_entry_invalid ms.
Proof.
  induction ms as [|m ms IH].
  - split; [intros Hn; destruct Hn; constructor | inversion 1].
  - rewrite Forall_cons, Exists_cons, <- IH.
    destruct (user_entry_valid_or_invalid m) as [[? ?]|[? ?]]; tauto.
Qed.

Lemma Forall_role_entry_valid_dec ms :
  Forall role_entry_valid ms ∨ ¬ Forall role_entry_valid ms.
Proof.
  induction ms as [|m ms [IH|IH]].
  - left. constructor.
  - destruct (role_entry_valid_or_invalid m) as [[? ?]|[? ?]].
    + left. by constructor.
    + right. rewrite Forall_cons. tauto.
  - right. rewrite Forall_cons. tauto.
Qed.

(** C5.  Static construction is fail-fast: [NewFileMapper] returns an
    error (and so no mapper) exactly when some role or user mapping of the
    configuration is invalid - neither or both of its identifying fields
    set, a pattern that is not of the shape of its principal type, or an
    exact ARN that does not canonicalize - and it returns a mapper exactly
    when every entry is valid. *)
Theorem NewFileMapper_fail_fast (cfg : Config) :
  ((∃ e, file.NewFileMapper cfg = Err e)
   ↔ Exists role_entry_invalid (RoleMappings cfg)
     ∨ Exists user_entry_invalid (UserMappings cfg))
  ∧ ((∃ fm, file.NewFileMapper cfg = Ok fm)
     ↔ Forall role_entry_valid (RoleMappings cfg)
       ∧ Forall user_entry_valid (UserMappings cfg)).
Proof.
  split; [| apply NewFileMapper_Ok].
  rewrite <- Forall_valid_Exists_invalid_role, <- Forall_valid_Exists_invalid_user.
  pose proof (NewFileMapper_Ok cfg) as HOk.
  destruct (file.NewFileMapper cfg) as [fm|e] eqn:E.
  - split; [intros [? ?]; discriminate |].
    destruct HOk as [HOk _]. specialize (HOk (ex_intro _ fm eq_refl)). tauto.
  - split; [intros _ | eauto].
    destruct (Forall_role_entry_valid_dec (RoleMappings cfg)) as [Hr|Hr]; [| tauto].
    right. intros Hu. destruct HOk as [_ HOk].
    destruct (HOk (conj Hr Hu)). discriminate.
Qed.
End fail_fast.

Section resolution.
Context {lib : Lib}.

(** Without an evaluation error the scan of the static mapper returns
    the first entry that matches. *)
Lemma scanRoleArnLike_find visit c :
  Forall (λ m, evaluates c (RoleMapping.RoleARNLike m)) visit →
  file.scanRoleArnLike visit c
  = Ok ∘ role_identity c
    <$> List.find (λ m, matches c (RoleMapping.RoleARNLike m)) visit.
Proof.
  induction 1 as [|m visit Hm _ IH]; [done |]. simpl.
  unfold evaluates in Hm. unfold matches.
  destruct (ArnLike c (RoleMapping.RoleARNLike m)) as [[] [e|]]; simpl in *;
    try discriminate; [done | apply IH].
Qed.

Lemma scanUserArnLike_find visit c :
  Forall (λ m, evaluates c (UserMapping.UserARNLike m)) visit →
  file.scanUserArnLike visit c
  = Ok ∘ user_identity c
    <$> List.find (λ m, matches c (UserMapping.UserARNLike m)) visit.
Proof.
  induction 1 as [|m visit Hm _ IH]; [done |]. simpl.
  unfold evaluates in Hm. unfold matches.
  destruct (ArnLike c (UserMapping.UserARNLike m)) as [[] [e|]]; simpl in *;
    try discriminate; [done | apply IH].
Qed.

(** The same for the scans of the live store. *)
Lemma RoleArnLikeMapping_in_find visit c :
  Forall (λ m, evaluates c (RoleMapping.RoleARNLike m)) visit →
  role_hit c (configmap.RoleArnLikeMapping_in visit c)
  = role_identity c
    <$> List.find (λ m, matches c (RoleMapping.RoleARNLike m)) visit.
Proof.
  induction 1 as [|m visit Hm _ IH]; [done |]. simpl.
  unfold evaluates in Hm. unfold matches.
  destruct (ArnLike c (RoleMapping.RoleARNLike m)) as [[] [e|]]; simpl in *;
    try discriminate; [done | apply IH].
Qed.

Lemma UserArnLikeMapping_in_find visit c :
  Forall (λ m, evaluates c (UserMapping.UserARNLike m)) visit →
  user_hit c (configmap.UserArnLikeMapping_in visit c)
  = user_identity c
    <$> List.find (λ m, matches c (UserMapping.UserARNLike m)) visit.
Proof.
  induction 1 as [|m visit Hm _ IH]; [done |]. simpl.
  unfold evaluates in Hm. unfold matches.
  destruct (ArnLike c (UserMapping.UserARNLike m)) as [[] [e|]]; simpl in *;
    try discriminate; [done | apply IH].
Qed.

(** The live mapper returns what the first successful lookup yields. *)
Lemma configmap_Map_in_first_hit rv uv ms a :
  configmap.Map_in rv uv ms a
  = first_hit [ role_hit (ToLower a) (configmap.RoleMapping ms (ToLower a));
                user_hit (ToLower a) (configmap.UserMapping ms (ToLower a));
                role_hit (ToLower a) (configmap.RoleArnLikeMapping_in rv (ToLower a));
                user_hit (ToLower a) (configmap.UserArnLikeMapping_in uv (ToLower a)) ].
Proof.
  unfold configmap.Map_in. simpl.
  destruct (configmap.RoleMapping ms (ToLower a)) as [rm [e1|]]; [| done].
  destruct (configmap.UserMapping ms (ToLower a)) as [um [e2|]]; [| done].
  destruct (configmap.RoleArnLikeMapping_in rv (ToLower a)) as [ralm [e3|]]; [| done].
  destruct (configmap.UserArnLikeMapping_in uv (ToLower a)) as [ualm [e4|]]; done.
Qed.

Lemma file_Map_in_spec fm rv uv a :
  Forall (λ m, evaluates (ToLower a) (RoleMapping.RoleARNLike m)) rv →
  Forall (λ m, evaluates (ToLower a) (UserMapping.UserARNLike m)) uv →
  file.Map_in rv uv fm a
  = Map_spec (file.lowercaseRoleMap fm) (file.lowercaseUserMap fm) rv uv a.
Proof.
  intros Hr Hu. unfold file.Map_in, Map_spec.
  rewrite (scanRoleArnLike_find _ _ Hr), (scanUserArnLike_find _ _ Hu).
  destruct (file.lowercaseRoleMap fm !! ToLower a); [done |].
  destruct (file.lowercaseUserMap fm !! ToLower a); [done |].
  destruct (List.find _ rv); [done |]. simpl.
  destruct (List.find _ uv); done.
Qed.

Lemma configmap_Map_in_spec ms rv uv a :
  Forall (λ m, evaluates (ToLower a) (RoleMapping.RoleARNLike m)) rv →
  Forall (λ m, evaluates (ToLower a) (UserMapping.UserARNLike m)) uv →
  configmap.Map_in rv uv ms a
  = Map_spec (configmap.roles ms) (configmap.users ms) rv uv a.
Proof.
  intros Hr Hu. rewrite configmap_Map_in_first_hit.
  rewrite (RoleArnLikeMapping_in_find _ _ Hr), (UserArnLikeMapping_in_find _ _ Hu).
  unfold Map_spec, configmap.RoleMapping, configmap.UserMapping.
  destruct (configmap.roles ms !! ToLower a); [done |].
  destruct (configmap.users ms !! ToLower a); [done |]. simpl.
  destruct (List.find _ rv); [done |]. simpl.
  destruct (List.find _ uv); done.
Qed.

(** [Map] has a result on every input, for both mappers. *)
Lemma file_Map_total fm a : ∃ res, file.Map fm a res.
Proof.
  eexists.
  apply (file.Map_run fm a (map_to_list (file.roleArnLikeMap fm)).*2
           (map_to_list (file.userArnLikeMap fm)).*2); by unfold ranges.
Qed.

Lemma configmap_Map_total ms a : ∃ res, configmap.Map ms a res.
Proof.
  eexists.
  apply (configmap.Map_run ms a (map_to_list (configmap.roleArnLikes ms)).*2
           (map_to_list (configmap.userArnLikes ms)).*2); by unfold ranges.
Qed.

(** An evaluation error stops the scan of the static mapper, and the
    scan of the live store at the same entry. *)
Lemma scanRoleArnLike_error visit c e :
  file.scanRoleArnLike visit c = Some (Err e) →
  (configmap.RoleArnLikeMapping_in visit c).2 = Some e.
Proof.
  induction visit as [|m visit IH]; [done |]. simpl.
  destruct (ArnLike c (RoleMapping.RoleARNLike m)) as [[] [e'|]]; simpl;
    try congruence. apply IH.
Qed.

(** C9.  The live mapper never surfaces an error other than [NotMapped]:
    every result of its [Map] is an identity or [NotMapped]; a lookup that
    returns an error, of whatever kind, only makes [Map] go on to the next
    stage, so that the result is what the first successful lookup yields
    and is [NotMapped] when all four lookups return an error.  The static
    mapper differs: when its scan of the role patterns meets an evaluation
    error it returns that error, where the live mapper on the same tables
    goes on to the user patterns. *)
Theorem ConfigMapMapper_Map_hides_errors :
  (∀ ms a res,
      configmap.Map ms a res → (∃ id, res = Ok id) ∨ res = Err ErrNotMapped)
  ∧ (∀ ms rv uv a,
      configmap.Map_in rv uv ms a
      = first_hit
          [ role_hit (ToLower a) (configmap.RoleMapping ms (ToLower a));
            user_hit (ToLower a) (configmap.UserMapping ms (ToLower a));
            role_hit (ToLower a) (configmap.RoleArnLikeMapping_in rv (ToLower a));
            user_hit (ToLower a) (configmap.UserArnLikeMapping_in uv (ToLower a)) ])
  ∧ (∀ ms rv uv a,
      (configmap.RoleMapping ms (ToLower a)).2 ≠ None →
      (configmap.UserMapping ms (ToLower a)).2 ≠ None →
      (configmap.RoleArnLikeMapping_in rv (ToLower a)).2 ≠ None →
      (configmap.UserArnLikeMapping_in uv (ToLower a)).2 ≠ None →
      configmap.Map_in rv uv ms a = Err ErrNotMapped)
  ∧ (∀ fm ms rv uv a e,
      file.lowercaseRoleMap fm !! ToLower a = None →
      file.lowercaseUserMap fm !! ToLower a = None →
      configmap.roles ms !! ToLower a = None →
      configmap.users ms !! ToLower a = None →
      file.scanRoleArnLike rv (ToLower a) = Some (Err e) →
      file.Map_in rv uv fm a = Err e
      ∧ configmap.Map_in rv uv ms a
        = first_hit
            [user_hit (ToLower a) (configmap.UserArnLikeMapping_in uv (ToLower a))]).
Proof.
  split_and!.
  - intros ms a res [rv uv _ _]. rewrite configmap_Map_in_first_hit.
    generalize (role_hit (ToLower a) (configmap.RoleMapping ms (ToLower a)))
      (user_hit (ToLower a) (configmap.UserMapping ms (ToLower a)))
      (role_hit (ToLower a) (configmap.RoleArnLikeMapping_in rv (ToLower a)))
      (user_hit (ToLower a) (configmap.UserArnLikeMapping_in uv (ToLower a))).
    intros [?|] [?|] [?|] [?|]; simpl; eauto.
  - intros. apply configmap_Map_in_first_hit.
  - intros ms rv uv a H1 H2 H3 H4. rewrite configmap_Map_in_first_hit.
    destruct (configmap.RoleMapping ms (ToLower a)) as [? [?|]]; [| done].
    destruct (configmap.UserMapping ms (ToLower a)) as [? [?|]]; [| done].
    destruct (configmap.RoleArnLikeMapping_in rv (ToLower a)) as [? [?|]]; [| done].
    destruct (configmap.UserArnLikeMapping_in uv (ToLower a)) as [? [?|]]; done.
  - intros fm ms rv uv a e Hfr Hfu Hr Hu Hscan. split.
    + unfold file.Map_in. by rewrite Hfr, Hfu, Hscan.
    + rewrite configmap_Map_in_first_hit.
      unfold configmap.RoleMapping, configmap.UserMapping. rewrite Hr, Hu.
      apply scanRoleArnLike_error in Hscan.
      destruct (configmap.RoleArnLikeMapping_in rv (ToLower a)) as [? [?|]];
        [done | discriminate].
Qed.
End resolution.

Section tables.
Context {lib : Lib} {codec : Codec}.

Lemma find_app {A} (P : A → bool) (l1 l2 : list A) :
  List.find P (l1 ++ l2)
  = match List.find P l1 with Some x => Some x | None => List.find P l2 end.
Proof.
  induction l1 as [|x l1 IH]; [done |]. simpl. destruct (P x); [done | apply IH].
Qed.

Lemma last_such_cons {A} (P : A → bool) (x : A) (l : list A) :
  last_such P (x :: l)
  = match last_such P l with
    | Some y => Some y
    | None => if P x then Some x else None
    end.
Proof. unfold last_such. simpl. by rewrite find_app. Qed.

Lemma last_such_snoc {A} (P : A → bool) (x : A) (l : list A) :
  last_such P (l ++ [x]) = if P x then Some x else last_such P l.
Proof. unfold last_such. by rewrite rev_unit. Qed.

Lemma last_such_none {A} (P : A → bool) (l : list A) :
  Forall (λ x, P x = false) l → last_such P l = None.
Proof.
  induction 1 as [|x l Hx _ IH]; [done |].
  by rewrite last_such_cons, IH, Hx.
Qed.

(** Of two entries with the property, the later one is the last when no
    entry after it has the property. *)
Lemma last_such_later {A} (P : A → bool) (l1 : list A) m1 l2 m2 l3 :
  P m2 = true → Forall (λ x, P x = false) l3 →
  last_such P (l1 ++ m1 :: l2 ++ m2 :: l3) = Some m2.
Proof.
  intros H2 H3. induction l1 as [|x l1 IH]; simpl.
  - rewrite last_such_cons.
    assert (last_such P (l2 ++ m2 :: l3) = Some m2) as ->; [| done].
    clear m1. induction l2 as [|y l2 IH]; simpl.
    + by rewrite last_such_cons, (last_such_none _ _ H3), H2.
    + by rewrite last_such_cons, IH.
  - by rewrite last_such_cons, IH.
Qed.

(** A table filled by successive insertion holds, for a key, the last
    entry filed under it. *)
Lemma fold_insert_lookup {A} (key : A → string) (l : list A)
    (t : gmap string A) (k : string) :
  fold_left (λ t x, <[key x := x]> t) l t !! k
  = from_option Some (t !! k) (last_such (λ x, bool_decide (key x = k)) l).
Proof.
  induction l as [|x l IH] using rev_ind; [done |].
  rewrite fold_left_app, last_such_snoc. simpl.
  case_bool_decide as Hk.
  - subst k. by rewrite lookup_insert_eq.
  - by rewrite lookup_insert_ne.
Qed.

Lemma fold_union_elem (l : list string) (t : gset string) (id : string) :
  id ∈ fold_left (λ t x, {[x]} ∪ t) l t ↔ id ∈ l ∨ id ∈ t.
Proof.
  revert t. induction l as [|x l IH]; intros t; simpl.
  - set_solver.
  - rewrite IH. set_solver.
Qed.

(** The tables that [saveMap] builds depend on its arguments only, and
    hold for every key the last entry filed under it. *)
Lemma saveMap_tables ms us uls rs rls accounts :
  let ms' := configmap.saveMap ms us uls rs rls accounts in
  (∀ k, configmap.users ms' !! k = last_such (store_user_exact_key k) us)
  ∧ (∀ k, configmap.userArnLikes ms' !! k = last_such (store_user_pattern_key k) uls)
  ∧ (∀ k, configmap.roles ms' !! k = last_such (store_role_exact_key k) rs)
  ∧ (∀ k, configmap.roleArnLikes ms' !! k = last_such (store_role_pattern_key k) rls)
  ∧ (∀ id, configmap.AWSAccount ms' id = bool_decide (id ∈ accounts)).
Proof.
  simpl. split_and!; intros k.
  - rewrite (fold_insert_lookup (λ u, ToLower (UserMapping.UserARN u))).
    rewrite lookup_empty. by destruct (last_such _ _).
  - rewrite (fold_insert_lookup UserMapping.UserARNLike).
    rewrite lookup_empty. by destruct (last_such _ _).
  - rewrite (fold_insert_lookup (λ r, ToLower (RoleMapping.RoleARN r))).
    rewrite lookup_empty. by destruct (last_such _ _).
  - rewrite (fold_insert_lookup RoleMapping.RoleARNLike).
    rewrite lookup_empty. by destruct (last_such _ _).
  - unfold configmap.AWSAccount. simpl. apply bool_decide_ext.
    rewrite fold_union_elem. set_solver.
Qed.

Lemma ranges_empty {V} (l : list V) : ranges (∅ : gmap string V) l ↔ l = [].
Proof.
  unfold ranges. rewrite map_to_list_empty. simpl. split.
  - apply Permutation_nil_r.
  - by intros ->.
Qed.

(** C3.  A [Deleted] event replaces the contents of the store by empty
    tables as a whole, whatever the store held: afterwards, for every
    ARN, the two exact lookups return the empty record with
    [UserNotFound] and [RoleNotFound], the two scans have the empty record
    with [UserARNLikeNotMatched] and [RoleARNLikeNotMatched] as their only
    result, and [AWSAccount] is false for every account id. *)
Theorem Deleted_event_empties_store (ms : configmap.MapStore) (r : watch.Event) :
  watch.Type_ r = watch.Deleted →
  let ms' := configmap.processEvent ms r in
  ms' = configmap.Build_MapStore ∅ ∅ ∅ ∅ ∅
  ∧ ∀ arn : string,
      configmap.UserMapping ms' arn = (UserMapping.zero, Some UserNotFound)
      ∧ configmap.RoleMapping ms' arn = (RoleMapping.zero, Some RoleNotFound)
      ∧ (∀ res, configmap.UserArnLikeMapping ms' arn res
                ↔ res = (UserMapping.zero, Some UserARNLikeNotMatched))
      ∧ (∀ res, configmap.RoleArnLikeMapping ms' arn res
                ↔ res = (RoleMapping.zero, Some RoleARNLikeNotMatched))
      ∧ configmap.AWSAccount ms' arn = false.
Proof.
  intros Hr. unfold configmap.processEvent. rewrite Hr. simpl.
  split; [done |]. intros arn. split_and!; try done.
  - intros res. split.
    + intros [visit Hv]. simpl in Hv. apply ranges_empty in Hv. by subst.
    + intros ->.
      apply (configmap.UserArnLikeMapping_run (configmap.Build_MapStore ∅ ∅ ∅ ∅ ∅)
               arn []).
      by apply ranges_empty.
  - intros res. split.
    + intros [visit Hv]. simpl in Hv. apply ranges_empty in Hv. by subst.
    + intros ->.
      apply (configmap.RoleArnLikeMapping_run (configmap.Build_MapStore ∅ ∅ ∅ ∅ ∅)
               arn []).
      by apply ranges_empty.
Qed.
End tables.

Section duplicates.
Context {lib : Lib}.

(** The tables after the loop over the role mappings. *)
Lemma addRoleMappings_tables ms : ∀ fm fm',
  file.addRoleMappings ms fm = Ok fm' →
  (∀ k, file.lowercaseRoleMap fm' !! k
        = from_option Some (file.lowercaseRoleMap fm !! k)
                      (last_such (static_role_exact_key k) ms))
  ∧ (∀ k, file.roleArnLikeMap fm' !! k
          = from_option Some (file.roleArnLikeMap fm !! k)
                        (last_such (static_role_pattern_key k) ms))
  ∧ file.lowercaseUserMap fm' = file.lowercaseUserMap fm
  ∧ file.userArnLikeMap fm' = file.userArnLikeMap fm
  ∧ file.accountMap fm' = file.accountMap fm.
Proof.
  induction ms as [|m ms IH]; intros fm fm' Hadd.
  - injection Hadd as <-. by split_and!.
  - destruct (addRoleMappings_cons m ms fm) as [[Hv _]|[_ [e E]]]; [| congruence].
    simpl in Hadd.
    destruct Hv as [(Ha & Hl & c & Hc)|(Ha & Hl & Hp)].
    + rewrite Hc in Hadd. revert Hadd. case_fields. intros Hadd.
      apply IH in Hadd as (Hre & Hrp & -> & -> & ->). split_and!; try done.
      * intros k. rewrite Hre, last_such_cons. simpl.
        destruct (last_such _ ms); [done |]. simpl.
        unfold static_role_exact_key. rewrite Hc. case_fields.
        -- subst. by rewrite lookup_insert_eq.
        -- by rewrite lookup_insert_ne.
      * intros k. rewrite Hrp, last_such_cons. simpl.
        destruct (last_such _ ms); [done |]. simpl.
        unfold static_role_pattern_key. by case_fields.
    + rewrite Hp in Hadd. revert Hadd. case_fields. intros Hadd.
      apply IH in Hadd as (Hre & Hrp & -> & -> & ->). split_and!; try done.
      * intros k. rewrite Hre, last_such_cons. simpl.
        destruct (last_such _ ms); [done |]. simpl.
        unfold static_role_exact_key. by case_fields.
      * intros k. rewrite Hrp, last_such_cons. simpl.
        destruct (last_such _ ms); [done |]. simpl.
        unfold static_role_pattern_key. case_fields.
        -- subst. by rewrite lookup_insert_eq.
        -- by rewrite lookup_insert_ne.
Qed.

Lemma addUserMappings_tables ms : ∀ fm fm',
  file.addUserMappings ms fm = Ok fm' →
  (∀ k, file.lowercaseUserMap fm' !! k
        = from_option Some (file.lowercaseUserMap fm !! k)
                      (last_such (static_user_exact_key k) ms))
  ∧ (∀ k, file.userArnLikeMap fm' !! k
          = from_option Some (file.userArnLikeMap fm !! k)
                        (last_such (static_user_pattern_key k) ms))
  ∧ file.lowercaseRoleMap fm' = file.lowercaseRoleMap fm
  ∧ file.roleArnLikeMap fm' = file.roleArnLikeMap fm
  ∧ file.accountMap fm' = file.accountMap fm.
Proof.
  induction ms as [|m ms IH]; intros fm fm' Hadd.
  - injection Hadd as <-. by split_and!.
  - destruct (addUserMappings_cons m ms fm) as [[Hv _]|[_ [e E]]]; [| congruence].
    simpl in Hadd.
    destruct Hv as [(Ha & Hl & c & Hc)|(Ha & Hl & Hp)].
    + rewrite Hc in Hadd. revert Hadd. case_fields. intros Hadd.
      apply IH in Hadd as (Hre & Hrp & -> & -> & ->). split_and!; try done.
      * intros k. rewrite Hre, last_such_cons. simpl.
        destruct (last_such _ ms); [done |]. simpl.
        unfold static_user_exact_key. rewrite Hc. case_fields.
        -- subst. by rewrite lookup_insert_eq.
        -- by rewrite lookup_insert_ne.
      * intros k. rewrite Hrp, last_such_cons. simpl.
        destruct (last_such _ ms); [done |]. simpl.
        unfold static_user_pattern_key. by case_fields.
    + rewrite Hp in Hadd. revert Hadd. case_fields. intros Hadd.
      apply IH in Hadd as (Hre & Hrp & -> & -> & ->). split_and!; try done.
      * intros k. rewrite Hre, last_such_cons. simpl.
        destruct (last_such _ ms); [done |]. simpl.
        unfold static_user_exact_key. by case_fields.
      * intros k. rewrite Hrp, last_such_cons. simpl.
        destruct (last_such _ ms); [done |]. simpl.
        unfold static_user_pattern_key. case_fields.
        -- subst. by rewrite lookup_insert_eq.
        -- by rewrite lookup_insert_ne.
Qed.

Lemma addAccounts_tables ids : ∀ fm,
  file.lowercaseRoleMap (file.addAccounts ids fm) = file.lowercaseRoleMap fm
  ∧ file.roleArnLikeMap (file.addAccounts ids fm) = file.roleArnLikeMap fm
  ∧ file.lowercaseUserMap (file.addAccounts ids fm) = file.lowercaseUserMap fm
  ∧ file.userArnLikeMap (file.addAccounts ids fm) = file.userArnLikeMap fm.
Proof.
  unfold file.addAccounts. induction ids as [|id ids IH]; intros fm; simpl.
  - done.
  - destruct (IH (file.set_accountMap id true fm)) as (-> & -> & -> & ->). done.
Qed.

(** The four tables of a mapper that [NewFileMapper] returns. *)
Lemma NewFileMapper_tables cfg fm :
  file.NewFileMapper cfg = Ok fm →
  ∀ k,
    file.lowercaseRoleMap fm !! k
    = last_such (static_role_exact_key k) (RoleMappings cfg)
    ∧ file.roleArnLikeMap fm !! k
      = last_such (static_role_pattern_key k) (RoleMappings cfg)
    ∧ file.lowercaseUserMap fm !! k
      = last_such (static_user_exact_key k) (UserMappings cfg)
    ∧ file.userArnLikeMap fm !! k
      = last_such (static_user_pattern_key k) (UserMappings cfg).
Proof.
  unfold file.NewFileMapper. intros Hnew k.
  destruct (file.addRoleMappings _ _) as [fm1|] eqn:E1; [| done].
  destruct (file.addUserMappings _ _) as [fm2|] eqn:E2; [| done].
  injection Hnew as <-.
  apply addRoleMappings_tables in E1 as (Hre & Hrp & Hu1 & Hu2 & _).
  apply addUserMappings_tables in E2 as (Hue & Hup & Hr1 & Hr2 & _).
  destruct (addAccounts_tables (AutoMappedAWSAccounts cfg) fm2) as (-> & -> & -> & ->).
  rewrite Hr1, Hr2, Hre, Hrp, Hue, Hup, Hu1, Hu2. simpl. rewrite !lookup_empty.
  split_and!; by destruct (last_such _ _).
Qed.

(** C10.  Duplicate keys are not detected when the tables are built, and
    the later entry wins.  [NewFileMapper] succeeds as soon as every entry
    is valid by itself, and each table of the mapper it returns holds, for
    every key, the last entry of the configuration that is filed under
    that key; [saveMap] always succeeds, and each table of the store holds
    the last entry filed under the key.  So of two entries with the same
    table key, the later one being the last with that key, it is the later
    one that the table holds and that the exact lookups of the store and
    [Map] return. *)
Theorem duplicate_keys_later_entry_wins :
  (∀ cfg,
      Forall role_entry_valid (RoleMappings cfg) →
      Forall user_entry_valid (UserMappings cfg) →
      ∃ fm, file.NewFileMapper cfg = Ok fm)
  ∧ (∀ cfg fm k,
      file.NewFileMapper cfg = Ok fm →
      file.lowercaseRoleMap fm !! k
      = last_such (static_role_exact_key k) (RoleMappings cfg)
      ∧ file.roleArnLikeMap fm !! k
        = last_such (static_role_pattern_key k) (RoleMappings cfg)
      ∧ file.lowercaseUserMap fm !! k
        = last_such (static_user_exact_key k) (UserMappings cfg)
      ∧ file.userArnLikeMap fm !! k
        = last_such (static_user_pattern_key k) (UserMappings cfg))
  ∧ (∀ ms us uls rs rls accounts k,
      let ms' := configmap.saveMap ms us uls rs rls accounts in
      configmap.users ms' !! k = last_such (store_user_exact_key k) us
      ∧ configmap.userArnLikes ms' !! k = last_such (store_user_pattern_key k) uls
      ∧ configmap.roles ms' !! k = last_such (store_role_exact_key k) rs
      ∧ configmap.roleArnLikes ms' !! k = last_such (store_role_pattern_key k) rls)
  ∧ (∀ (A : Type) (P : A → bool) l1 m1 l2 m2 l3,
      P m1 = true → P m2 = true → Forall (λ x, P x = false) l3 →
      last_such P (l1 ++ m1 :: l2 ++ m2 :: l3) = Some m2)
  ∧ (∀ fm a m res,
      file.lowercaseRoleMap fm !! ToLower a = Some m →
      file.Map fm a res → res = Ok (role_identity (ToLower a) m))
  ∧ (∀ ms k m,
      configmap.roles ms !! k = Some m → configmap.RoleMapping ms k = (m, None))
  ∧ (∀ ms k m,
      configmap.users ms !! k = Some m → configmap.UserMapping ms k = (m, None)).
Proof.
  split_and!.
  - intros cfg Hr Hu. by apply NewFileMapper_Ok.
  - intros cfg fm k Hnew. by apply NewFileMapper_tables.
  - intros ms us uls rs rls accounts k ms'.
    destruct (saveMap_tables ms us uls rs rls accounts) as (H1 & H2 & H3 & H4 & _).
    by split_and!.
  - intros A P l1 m1 l2 m2 l3 _ H2 H3. by apply last_such_later.
  - intros fm a m res Hm [rv uv _ _]. unfold file.Map_in. by rewrite Hm.
  - intros ms k m Hm. unfold configmap.RoleMapping. by rewrite Hm.
  - intros ms k m Hm. unfold configmap.UserMapping. by rewrite Hm.
Qed.
End duplicates.

(** ** Case *)


Lemma lower_idempotent c : model.lower (model.lower c) = model.lower c.
Proof. destruct c as [[] [] [] [] [] [] [] []]; reflexivity. Qed.

Lemma model_ToLower_idempotent s : model.ToLower (model.ToLower s) = model.ToLower s.
Proof. induction s as [|c s IH]; simpl; [done |]. by rewrite lower_idempotent, IH. Qed.





Section case.
Context {lib : Lib}.

Lemma last_such_Some {A} (P : A → bool) (l : list A) (x : A) :
  last_such P l = Some x → P x = true ∧ x ∈ l.
Proof.
  unfold last_such. intros Hf. apply find_some in Hf as [Hin HP].
  split; [done |]. apply list_elem_of_In. by apply in_rev.
Qed.

(** The identity that a scan returns comes from an entry that matches. *)
Lemma scanRoleArnLike_Ok visit c id :
  file.scanRoleArnLike visit c = Some (Ok id) →
  ∃ m, m ∈ visit ∧ matches c (RoleMapping.RoleARNLike m) = true
       ∧ id = role_identity c m.
Proof.
  induction visit as [|m visit IH]; [done |]. simpl. unfold matches at 1.
  destruct (ArnLike c (RoleMapping.RoleARNLike m)) as [[] [e|]] eqn:E;
    try discriminate.
  - intros [= <-]. exists m. split; [left |]. unfold matches. by rewrite E.
  - intros Hs. destruct (IH Hs) as (m' & ? & ? & ?). exists m'. split; [by right | done].
Qed.

Lemma scanUserArnLike_Ok visit c id :
  file.scanUserArnLike visit c = Some (Ok id) →
  ∃ m, m ∈ visit ∧ matches c (UserMapping.UserARNLike m) = true
       ∧ id = user_identity c m.
Proof.
  induction visit as [|m visit IH]; [done |]. simpl. unfold matches at 1.
  destruct (ArnLike c (UserMapping.UserARNLike m)) as [[] [e|]] eqn:E;
    try discriminate.
  - intros [= <-]. exists m. split; [left |]. unfold matches. by rewrite E.
  - intros Hs. destruct (IH Hs) as (m' & ? & ? & ?). exists m'. split; [by right | done].
Qed.

Lemma RoleArnLikeMapping_in_Ok visit c m :
  configmap.RoleArnLikeMapping_in visit c = (m, None) →
  m ∈ visit ∧ matches c (RoleMapping.RoleARNLike m) = true.
Proof.
  induction visit as [|m' visit IH]; [done |]. simpl. unfold matches at 1.
  destruct (ArnLike c (RoleMapping.RoleARNLike m')) as [[] [e|]] eqn:E;
    try discriminate.
  - intros [= <-]. split; [left |]. unfold matches. by rewrite E.
  - intros Hs. destruct (IH Hs). split; [by right | done].
Qed.

Lemma UserArnLikeMapping_in_Ok visit c m :
  configmap.UserArnLikeMapping_in visit c = (m, None) →
  m ∈ visit ∧ matches c (UserMapping.UserARNLike m) = true.
Proof.
  induction visit as [|m' visit IH]; [done |]. simpl. unfold matches at 1.
  destruct (ArnLike c (UserMapping.UserARNLike m')) as [[] [e|]] eqn:E;
    try discriminate.
  - intros [= <-]. split; [left |]. unfold matches. by rewrite E.
  - intros Hs. destruct (IH Hs). split; [by right | done].
Qed.




End case.


Section case_theorem.
Context {lib : Lib}.

End case_theorem.

(** ** The document codec *)

Section codec.
Context {lib : Lib} {codec : Codec}.

Lemma parseRoleMapping_step errs rs rls m :
  configmap.parseRoleMapping (errs, rs, rls) m
  = (errs ++ role_causes m,
     rs ++ (if role_exact_only m then [m] else []),
     rls ++ (if role_pattern_only m then [m] else [])).
Proof.
  unfold role_causes, role_exact_only, role_pattern_only, configmap.parseRoleMapping.
  case_fields; rewrite ?app_nil_r; try done.
  destruct (ArnLike _ _) as [[] [e|]]; by rewrite ?app_nil_r.
Qed.

Lemma parseUserMapping_step errs us uls m :
  configmap.parseUserMapping (errs, us, uls) m
  = (errs ++ user_causes m,
     us ++ (if user_exact_only m then [m] else []),
     uls ++ (if user_pattern_only m then [m] else [])).
Proof.
  unfold user_causes, user_exact_only, user_pattern_only, configmap.parseUserMapping.
  case_fields; rewrite ?app_nil_r; try done.
  destruct (ArnLike _ _) as [[] [e|]]; by rewrite ?app_nil_r.
Qed.

(** The loop processes every record: it classifies each by its fields and
    collects its causes, whatever the records before it. *)
Lemma parseRoleMappings_fold raw : ∀ errs rs rls,
  fold_left configmap.parseRoleMapping raw (errs, rs, rls)
  = (errs ++ List.concat (map role_causes raw),
     rs ++ List.filter role_exact_only raw,
     rls ++ List.filter role_pattern_only raw).
Proof.
  induction raw as [|m raw IH]; intros errs rs rls.
  - simpl. by rewrite !app_nil_r.
  - cbn [fold_left]. rewrite parseRoleMapping_step, IH.
    cbn [map List.concat List.filter]. rewrite <- !app_assoc.
    by destruct (role_exact_only m), (role_pattern_only m).
Qed.

Lemma parseUserMappings_fold raw : ∀ errs us uls,
  fold_left configmap.parseUserMapping raw (errs, us, uls)
  = (errs ++ List.concat (map user_causes raw),
     us ++ List.filter user_exact_only raw,
     uls ++ List.filter user_pattern_only raw).
Proof.
  induction raw as [|m raw IH]; intros errs us uls.
  - simpl. by rewrite !app_nil_r.
  - cbn [fold_left]. rewrite parseUserMapping_step, IH.
    cbn [map List.concat List.filter]. rewrite <- !app_assoc.
    by destruct (user_exact_only m), (user_pattern_only m).
Qed.

(** A record adds a cause exactly when it does not validate. *)
Lemma role_causes_valid m : role_causes m = [] ↔ role_record_valid m = true.
Proof.
  unfold role_causes, role_record_valid, role_exact_only, role_pattern_only,
    matches, configmap.parseRoleMapping.
  case_fields; try (split; [discriminate | done]); try done.
  destruct (ArnLike _ _) as [[] [e|]]; simpl; split; done.
Qed.

Lemma user_causes_valid m : user_causes m = [] ↔ user_record_valid m = true.
Proof.
  unfold user_causes, user_record_valid, user_exact_only, user_pattern_only,
    matches, configmap.parseUserMapping.
  case_fields; try (split; [discriminate | done]); try done.
  destruct (ArnLike _ _) as [[] [e|]]; simpl; split; done.
Qed.

Lemma causes_nonempty {A} (causes : A → list error) (raw : list A) (r : A) :
  r ∈ raw → causes r ≠ [] → List.concat (map causes raw) ≠ [].
Proof.
  induction 1 as [r raw|r r' raw _ IH]; simpl; intros Hr.
  - destruct (causes r); [done | discriminate].
  - intros [_ ?]%app_eq_nil. by apply IH.
Qed.

Lemma filter_all {A} (P : A → bool) (l : list A) :
  Forall (λ x, P x = true) l → List.filter P l = l.
Proof. induction 1 as [|x l Hx _ IH]; simpl; [done |]. by rewrite Hx, IH. Qed.

Lemma filter_none {A} (P : A → bool) (l : list A) :
  Forall (λ x, P x = false) l → List.filter P l = [].
Proof. induction 1 as [|x l Hx _ IH]; simpl; [done |]. by rewrite Hx. Qed.

Lemma causes_none {A} (causes : A → list error) (raw : list A) :
  Forall (λ x, causes x = []) raw → List.concat (map causes raw) = [].
Proof. induction 1 as [|x l Hx _ IH]; simpl; [done |]. by rewrite Hx, IH. Qed.

Lemma elem_of_filter_bool {A} (P : A → bool) (l : list A) (x : A) :
  x ∈ l → P x = true → x ∈ List.filter P l.
Proof.
  intros Hin HP. apply list_elem_of_In, filter_In. split; [| done].
  by apply list_elem_of_In.
Qed.

(** The role results of [ParseMap] on a document whose role list
    decodes to [raw]. *)
Lemma ParseMap_roles m roleData roleJson raw derr :
  m !! "mapRoles" = Some roleData →
  utilyaml_ToJSON roleData = Ok roleJson →
  json_Unmarshal_RoleMappings roleJson = (raw, derr) →
  configmap.roleMappings (configmap.ParseMap m) = List.filter role_exact_only raw
  ∧ configmap.roleArnLikeMappings (configmap.ParseMap m)
    = List.filter role_pattern_only raw
  ∧ (List.concat (map role_causes raw) ≠ [] → configmap.err (configmap.ParseMap m) ≠ None).
Proof.
  intros Hm Hj Hd. unfold configmap.ParseMap. rewrite Hm, Hj, Hd.
  destruct (match m !! "mapUsers" with Some _ => _ | None => _ end) as [[errs us] uls].
  rewrite parseRoleMappings_fold.
  assert (∀ post : list error,
            List.concat (map role_causes raw) ≠ [] →
            ¬ 0 < List.length
                  ((configmap.append_err errs derr
                    ++ List.concat (map role_causes raw)) ++ post) → False)
    as Hlen.
  { intros post Hc. rewrite !length_app.
    destruct (List.concat (map role_causes raw)); [done | simpl; lia]. }
  destruct (m !! "mapAccounts") as [accountsData|];
    [destruct (yaml_Unmarshal_strings accountsData) as [accs [e|]] |]; simpl.
  all: split_and!; try done.
  all: intros Hc; case_bool_decide as Hl; [done |]; exfalso.
  - by apply (Hlen [e]).
  - apply (Hlen []); [done |]. by rewrite app_nil_r.
  - apply (Hlen []); [done |]. by rewrite app_nil_r.
Qed.

(** C2 on the code.  [ParseMap] processes every record of the role list
    and keeps the records with an exact ARN only and those with a pattern
    only; a record that does not validate adds a cause to the aggregate
    error.  But a record whose pattern is not of the shape of a role, or
    cannot be evaluated, is kept all the same: it is in the result set
    that [ParseMap] returns with the error, so that the result sets are
    not the records that validated. *)
Theorem ParseMap_keeps_invalid_pattern
    (m : gmap string string) (roleData roleJson : string)
    (raw : list RoleMapping.t) (derr : option error) (r : RoleMapping.t) :
  m !! "mapRoles" = Some roleData →
  utilyaml_ToJSON roleData = Ok roleJson →
  json_Unmarshal_RoleMappings roleJson = (raw, derr) →
  r ∈ raw →
  role_pattern_only r = true →
  matches (RoleMapping.RoleARNLike r) "arn:*:iam:*:*:role/*" = false →
  role_record_valid r = false
  ∧ r ∈ configmap.roleArnLikeMappings (configmap.ParseMap m)
  ∧ configmap.err (configmap.ParseMap m) ≠ None
  ∧ configmap.roleMappings (configmap.ParseMap m) = List.filter role_exact_only raw
  ∧ configmap.roleArnLikeMappings (configmap.ParseMap m)
    = List.filter role_pattern_only raw.
Proof.
  intros Hm Hj Hd Hin Hp Hmatch.
  destruct (ParseMap_roles m roleData roleJson raw derr Hm Hj Hd) as (He & Hl & Herr).
  assert (role_record_valid r = false) as Hinvalid.
  { unfold role_record_valid. rewrite Hmatch, andb_false_r, orb_false_r.
    unfold role_pattern_only, role_exact_only in *. revert Hp. by case_fields. }
  split_and!; try done.
  - rewrite Hl. by apply elem_of_filter_bool.
  - apply Herr. apply (causes_nonempty _ _ r Hin).
    rewrite role_causes_valid. congruence.
Qed.
End codec.

Section roundtrip.
Context {lib : Lib} {codec : Codec}.

Lemma exact_only_user u :
  user_exact_only u = true → user_pattern_only u = false ∧ user_causes u = [].
Proof.
  intros He. split.
  - unfold user_exact_only, user_pattern_only in *. revert He. by case_fields.
  - apply user_causes_valid. unfold user_record_valid. by rewrite He.
Qed.

Lemma exact_only_role r :
  role_exact_only r = true → role_pattern_only r = false ∧ role_causes r = [].
Proof.
  intros He. split.
  - unfold role_exact_only, role_pattern_only in *. revert He. by case_fields.
  - apply role_causes_valid. unfold role_record_valid. by rewrite He.
Qed.

Lemma parse_exact_users us errs :
  Forall (λ u, user_exact_only u = true) us →
  fold_left configmap.parseUserMapping us (errs, [], []) = (errs, us, []).
Proof.
  intros Hus. rewrite parseUserMappings_fold.
  rewrite (filter_all _ _ Hus), filter_none, causes_none, app_nil_r; [done | |].
  - eapply Forall_impl; [done |]. intros u Hu. by apply exact_only_user.
  - eapply Forall_impl; [done |]. intros u Hu. by apply exact_only_user.
Qed.

Lemma parse_exact_roles rs errs :
  Forall (λ r, role_exact_only r = true) rs →
  fold_left configmap.parseRoleMapping rs (errs, [], []) = (errs, rs, []).
Proof.
  intros Hrs. rewrite parseRoleMappings_fold.
  rewrite (filter_all _ _ Hrs), filter_none, causes_none, app_nil_r; [done | |].
  - eapply Forall_impl; [done |]. intros r Hr. by apply exact_only_role.
  - eapply Forall_impl; [done |]. intros r Hr. by apply exact_only_role.
Qed.

(** C7.  Round trip.  Take valid records without ARN-like patterns: user
    and role mappings each with an exact ARN and no pattern, and account
    ids; and suppose that the YAML and JSON libraries give back each of the
    three lists when they decode their own encoding of it.  Then
    [EncodeMap] succeeds, and [ParseMap] on the document it returns gives
    the same user mappings, role mappings and account ids, no pattern
    entries, and no error. *)
Theorem EncodeMap_ParseMap_roundtrip
    (us : list UserMapping.t) (rs : list RoleMapping.t) (accounts : list string) :
  Forall (λ u, user_exact_only u = true) us →
  Forall (λ r, role_exact_only r = true) rs →
  (us ≠ [] → ∃ body json,
      yaml_Marshal_UserMappings us = Ok body ∧ utilyaml_ToJSON body = Ok json
      ∧ json_Unmarshal_UserMappings json = (us, None)) →
  (rs ≠ [] → ∃ body json,
      yaml_Marshal_RoleMappings rs = Ok body ∧ utilyaml_ToJSON body = Ok json
      ∧ json_Unmarshal_RoleMappings json = (rs, None)) →
  (accounts ≠ [] → ∃ body,
      yaml_Marshal_strings accounts = Ok body
      ∧ yaml_Unmarshal_strings body = (accounts, None)) →
  ∃ m, configmap.EncodeMap us rs accounts = Ok m
       ∧ configmap.ParseMap m = configmap.Build_Parsed us [] rs [] accounts None.
Proof.
  intros Hus Hrs Hcu Hcr Hca.
  assert (∀ A (l : list A), l = [] ∧ bool_decide (0 < List.length l) = false
                            ∨ l ≠ [] ∧ bool_decide (0 < List.length l) = true) as Hlen.
  { intros A [|x l]; [left | right]; (split; [done |]).
    - apply bool_decide_eq_false. simpl. lia.
    - apply bool_decide_eq_true. simpl. lia. }
  unfold configmap.EncodeMap.
  destruct (Hlen _ us) as [[-> ->]|[Hu ->]];
    [| destruct (Hcu Hu) as (bu & ju & -> & Htu & Hdu)];
  (destruct (Hlen _ rs) as [[-> ->]|[Hr ->]];
    [| destruct (Hcr Hr) as (br & jr & -> & Htr & Hdr)]);
  (destruct (Hlen _ accounts) as [[-> ->]|[Ha ->]];
    [| destruct (Hca Ha) as (ba & -> & Hda)]).
  all: eexists; split; [reflexivity |].
  all: unfold configmap.ParseMap; simplify_map_eq.
  all: repeat first
         [ rewrite Htu | rewrite Hdu | rewrite Htr | rewrite Hdr | rewrite Hda
         | rewrite parse_exact_users by done
         | rewrite parse_exact_roles by done
         | progress simpl ].
  all: done.
Qed.
End roundtrip.

(** ** Additions to the document *)

Section additions.
Context {lib : Lib} {codec : Codec} {binding : client.Binding} {W : Type}.

(** The exact lists of [ParseMap] hold records with an exact ARN only. *)
Lemma ParseMap_exact_lists m :
  Forall (λ r, role_exact_only r = true) (configmap.roleMappings (configmap.ParseMap m))
  ∧ Forall (λ u, user_exact_only u = true)
           (configmap.userMappings (configmap.ParseMap m)).
Proof.
  assert (∀ A (P : A → bool) l, Forall (λ x, P x = true) (List.filter P l)) as Hf.
  { intros A P l. apply Forall_forall. intros x Hx%list_elem_of_In.
    by apply filter_In in Hx as [_ ?]. }
  unfold configmap.ParseMap.
  destruct (m !! "mapUsers") as [userData|];
    [destruct (utilyaml_ToJSON userData) as [userJson|];
     [destruct (json_Unmarshal_UserMappings userJson) as [rawu eu];
      rewrite parseUserMappings_fold |] |].
  all: destruct (m !! "mapRoles") as [roleData|];
    [destruct (utilyaml_ToJSON roleData) as [roleJson|];
     [destruct (json_Unmarshal_RoleMappings roleJson) as [rawr er];
      rewrite parseRoleMappings_fold |] |].
  all: destruct (m !! "mapAccounts") as [accountsData|];
    [destruct (yaml_Unmarshal_strings accountsData) as [accs ea] |].
  all: simpl; split; first [apply Hf | constructor].
Qed.

Lemma existsb_false {A} (P : A → bool) (l : list A) :
  Forall (λ x, P x = false) l → existsb P l = false.
Proof. induction 1 as [|x l Hx _ IH]; simpl; [done |]. by rewrite Hx, IH. Qed.

Lemma existsb_true {A} (P : A → bool) (l : list A) (x : A) :
  x ∈ l → P x = true → existsb P l = true.
Proof.
  intros Hin HP. apply existsb_exists. exists x. split; [| done].
  by apply list_elem_of_In.
Qed.

Lemma existsb_false_Forall {A} (P : A → bool) (l : list A) :
  existsb P l = false → Forall (λ x, P x = false) l.
Proof.
  induction l as [|x l IH]; simpl; [constructor |].
  intros [Hx Hl]%orb_false_iff. constructor; [done | by apply IH].
Qed.

(** [RetryOnConflict] returns what the first run of [fn] returns, unless
    that is a conflict. *)
Lemma RetryOnConflict_first {S : Type} (fn : S → option error * S) (s s' : S)
    (r : option error) :
  fn s = (r, s') →
  match r with Some err => client.IsConflict err = false | None => True end →
  client.RetryOnConflict client.DefaultRetry_Steps fn s = (r, s').
Proof.
  intros Hfn Hr. unfold client.DefaultRetry_Steps. cbn [client.RetryOnConflict].
  rewrite Hfn. destruct r as [err|]; [| done]. by rewrite Hr.
Qed.

Lemma add_result (cli : client.client W) role user w r cm w' :
  (is_Some role ∨ is_Some user) →
  client.attempt cli role user (None, w) = (r, (cm, w')) →
  match r with Some err => client.IsConflict err = false | None => True end →
  client.add cli role user w = ((cm, r), w').
Proof.
  intros Hsome Hatt Hr. unfold client.add.
  rewrite (RetryOnConflict_first _ _ _ _ Hatt Hr).
  destruct role, user; try done. destruct Hsome as [[? ?]|[? ?]]; done.
Qed.

(** The runs of the closure on a document that is read and parsed without
    error: the duplicate tests, and the update. *)
Lemma attempt_duplicate_role (cli : client.client W) role st cm w0 :
  client.getMap cli st.2 = ((cm, None), w0) →
  let p := configmap.ParseMap (core_v1.Data cm) in
  configmap.err p = None →
  (∃ r, r ∈ client.roleMappings p
        ∧ RoleMapping.RoleARN r = RoleMapping.RoleARN role) →
  client.attempt cli (Some role) None st
  = (Some (Errorf "cannot add duplicate role ARN %q" [RoleMapping.RoleARN role]),
     (Some cm, w0)).
Proof.
  intros Hget p Herr (r & Hin & Hr). subst p. unfold client.attempt.
  rewrite Hget, Herr.
  rewrite (existsb_true _ _ r Hin); [done |]. by apply bool_decide_eq_true.
Qed.

Lemma attempt_duplicate_user (cli : client.client W) user st cm w0 :
  client.getMap cli st.2 = ((cm, None), w0) →
  let p := configmap.ParseMap (core_v1.Data cm) in
  configmap.err p = None →
  (∃ u, u ∈ client.userMappings p
        ∧ UserMapping.UserARN u = UserMapping.UserARN user) →
  client.attempt cli None (Some user) st
  = (Some (Errorf "cannot add duplicate user ARN %q" [UserMapping.UserARN user]),
     (Some cm, w0)).
Proof.
  intros Hget p Herr (u & Hin & Hu). subst p. unfold client.attempt.
  rewrite Hget, Herr.
  rewrite (existsb_true _ _ u Hin); [done |]. by apply bool_decide_eq_true.
Qed.

Lemma attempt_update (cli : client.client W) role st cm w0 data' :
  client.getMap cli st.2 = ((cm, None), w0) →
  let p := configmap.ParseMap (core_v1.Data cm) in
  configmap.err p = None →
  Forall (λ r, RoleMapping.RoleARN r ≠ RoleMapping.RoleARN role)
         (client.roleMappings p) →
  configmap.EncodeMap (client.userMappings p) (client.roleMappings p ++ [role])
    (configmap.awsAccountList p) = Ok data' →
  client.attempt cli (Some role) None st
  = match client.updateMap cli (client.set_Data cm data') w0 with
    | ((updatedCm, Some err), w') => (Some err, (Some (client.set_Data cm data'), w'))
    | ((updatedCm, None), w') => (None, (Some updatedCm, w'))
    end.
Proof.
  intros Hget p Herr Hfresh Henc. subst p. unfold client.attempt.
  rewrite Hget, Herr, existsb_false.
  - by rewrite Henc.
  - eapply Forall_impl; [exact Hfresh |]. intros r Hr. simpl in Hr.
    by apply bool_decide_eq_false.
Qed.

Lemma attempt_update_user (cli : client.client W) user st cm w0 data' :
  client.getMap cli st.2 = ((cm, None), w0) →
  let p := configmap.ParseMap (core_v1.Data cm) in
  configmap.err p = None →
  Forall (λ u, UserMapping.UserARN u ≠ UserMapping.UserARN user)
         (client.userMappings p) →
  configmap.EncodeMap (client.userMappings p ++ [user]) (client.roleMappings p)
    (configmap.awsAccountList p) = Ok data' →
  client.attempt cli None (Some user) st
  = match client.updateMap cli (client.set_Data cm data') w0 with
    | ((updatedCm, Some err), w') => (Some err, (Some (client.set_Data cm data'), w'))
    | ((updatedCm, None), w') => (None, (Some updatedCm, w'))
    end.
Proof.
  intros Hget p Herr Hfresh Henc. subst p. unfold client.attempt.
  rewrite Hget, Herr, existsb_false.
  - by rewrite Henc.
  - eapply Forall_impl; [exact Hfresh |]. intros r Hr. simpl in Hr.
    by apply bool_decide_eq_false.
Qed.

(** C4 on the code.  Take a document that is read and parsed without
    error, and let [roleMappings] and [userMappings] be the lists that the
    closure of [add] binds, whichever they are.  [AddRole] fails with the
    duplicate-entry error, and writes nothing (the store is as the read left
    it), when [roleMappings] holds an entry whose [RoleARN] is the [RoleARN]
    of the entry to add; [AddUser] likewise on [UserARN].  The test reads
    these two fields only, and they are empty in every entry that is
    identified by a pattern.  So the test cannot tell one pattern from
    another: either every role entry with a pattern is rejected as a
    duplicate, whatever its pattern and whether or not the document holds
    it, or every such entry passes the test and is written, whether or not
    the document holds it; and the same for the user entries. *)
Theorem AddRole_duplicate_check (cli : client.client W) (w w0 : W)
    (cm : core_v1.ConfigMap) :
  client.getMap cli w = ((cm, None), w0) →
  configmap.err (configmap.ParseMap (core_v1.Data cm)) = None →
  let p := configmap.ParseMap (core_v1.Data cm) in
  (∀ role,
      (∃ r, r ∈ client.roleMappings p
            ∧ RoleMapping.RoleARN r = RoleMapping.RoleARN role) →
      client.AddRole cli (Some role) w
      = ((Some cm,
          Some (Errorf "cannot add duplicate role ARN %q" [RoleMapping.RoleARN role])),
         w0))
  ∧ (∀ user,
      (∃ u, u ∈ client.userMappings p
            ∧ UserMapping.UserARN u = UserMapping.UserARN user) →
      client.AddUser cli (Some user) w
      = ((Some cm,
          Some (Errorf "cannot add duplicate user ARN %q" [UserMapping.UserARN user])),
         w0))
  ∧ ((∀ role,
        RoleMapping.RoleARN role = "" →
        client.AddRole cli (Some role) w
        = ((Some cm, Some (Errorf "cannot add duplicate role ARN %q" [""])), w0))
     ∨ (∀ role data' cm' w',
          RoleMapping.RoleARN role = "" →
          configmap.EncodeMap (client.userMappings p) (client.roleMappings p ++ [role])
            (configmap.awsAccountList p) = Ok data' →
          client.updateMap cli (client.set_Data cm data') w0 = ((cm', None), w') →
          client.AddRole cli (Some role) w = ((Some cm', None), w')))
  ∧ ((∀ user,
        UserMapping.UserARN user = "" →
        client.AddUser cli (Some user) w
        = ((Some cm, Some (Errorf "cannot add duplicate user ARN %q" [""])), w0))
     ∨ (∀ user data' cm' w',
          UserMapping.UserARN user = "" →
          configmap.EncodeMap (client.userMappings p ++ [user]) (client.roleMappings p)
            (configmap.awsAccountList p) = Ok data' →
          client.updateMap cli (client.set_Data cm data') w0 = ((cm', None), w') →
          client.AddUser cli (Some user) w = ((Some cm', None), w'))).
Proof.
  intros Hget Herr p.
  assert (∀ role,
             (∃ r, r ∈ client.roleMappings p
                   ∧ RoleMapping.RoleARN r = RoleMapping.RoleARN role) →
             client.AddRole cli (Some role) w
             = ((Some cm,
                 Some (Errorf "cannot add duplicate role ARN %q"
                         [RoleMapping.RoleARN role])), w0)) as Hrole.
  { intros role Hdup. unfold client.AddRole. apply add_result; eauto.
    by apply attempt_duplicate_role. }
  assert (∀ user,
             (∃ u, u ∈ client.userMappings p
                   ∧ UserMapping.UserARN u = UserMapping.UserARN user) →
             client.AddUser cli (Some user) w
             = ((Some cm,
                 Some (Errorf "cannot add duplicate user ARN %q"
                         [UserMapping.UserARN user])), w0)) as Huser.
  { intros user Hdup. unfold client.AddUser. apply add_result; eauto.
    by apply attempt_duplicate_user. }
  split_and!; [exact Hrole | exact Huser | |].
  - destruct (existsb (λ r, bool_decide (RoleMapping.RoleARN r = ""))
                (client.roleMappings p)) eqn:E.
    + left. intros role Hr. apply existsb_exists in E as (r & Hin & Hb).
      apply bool_decide_eq_true in Hb. specialize (Hrole role).
      rewrite Hr in Hrole. apply Hrole.
      exists r. split; [by apply list_elem_of_In | done].
    + right. intros role data' cm' w' Hr Henc Hupd. unfold client.AddRole.
      apply add_result; eauto.
      rewrite (attempt_update cli role (None, w) cm w0 data'); try done.
      * by rewrite Hupd.
      * apply existsb_false_Forall in E. eapply Forall_impl; [exact E |].
        intros r Hb. simpl in Hb. apply bool_decide_eq_false in Hb. congruence.
  - destruct (existsb (λ u, bool_decide (UserMapping.UserARN u = ""))
                (client.userMappings p)) eqn:E.
    + left. intros user Hu. apply existsb_exists in E as (u & Hin & Hb).
      apply bool_decide_eq_true in Hb. specialize (Huser user).
      rewrite Hu in Huser. apply Huser.
      exists u. split; [by apply list_elem_of_In | done].
    + right. intros user data' cm' w' Hu Henc Hupd. unfold client.AddUser.
      apply add_result; eauto.
      rewrite (attempt_update_user cli user (None, w) cm w0 data'); try done.
      * by rewrite Hupd.
      * apply existsb_false_Forall in E. eapply Forall_impl; [exact E |].
        intros r Hb. simpl in Hb. apply bool_decide_eq_false in Hb. congruence.
Qed.
End additions.

(** * Further properties of the code *)

(** ** Validation of a mapping *)

Section validation.
Context {lib : Lib}.

Lemma RoleMapping_Validate_valid m :
  RoleMapping.Validate (Some m) = None ↔ role_record_valid m = true.
Proof.
  unfold RoleMapping.Validate, role_record_valid, role_exact_only, role_pattern_only,
    matches.
  case_fields; try (split; [discriminate | done]); try done.
  destruct (ArnLike _ _) as [[] [e|]]; simpl; split; done.
Qed.

Lemma UserMapping_Validate_valid m :
  UserMapping.Validate (Some m) = None ↔ user_record_valid m = true.
Proof.
  unfold UserMapping.Validate, user_record_valid, user_exact_only, user_pattern_only,
    matches.
  case_fields; try (split; [discriminate | done]); try done.
  destruct (ArnLike _ _) as [[] [e|]]; simpl; split; done.
Qed.

Lemma RoleMapping_Validate_iff (m : RoleMapping.t) :
  RoleMapping.Validate (Some m) = None
  ↔ (RoleMapping.RoleARN m ≠ "" ∧ RoleMapping.RoleARNLike m = "")
    ∨ (RoleMapping.RoleARN m = "" ∧ RoleMapping.RoleARNLike m ≠ ""
       ∧ ArnLike (RoleMapping.RoleARNLike m) "arn:*:iam:*:*:role/*" = (true, None)).
Proof.
  unfold RoleMapping.Validate.
  case_fields; try (split; [discriminate | intros [[? ?]|(? & ? & ?)]; congruence]).
  - destruct (ArnLike _ _) as [[] [e|]] eqn:E; simpl;
      (split; [try discriminate; intros _; right; by split_and!
              | intros [[? ?]|(? & ? & ?)]; congruence]).
  - split; [intros _; by left | done].
Qed.

Lemma UserMapping_Validate_iff (m : UserMapping.t) :
  UserMapping.Validate (Some m) = None
  ↔ (UserMapping.UserARN m ≠ "" ∧ UserMapping.UserARNLike m = "")
    ∨ (UserMapping.UserARN m = "" ∧ UserMapping.UserARNLike m ≠ ""
       ∧ ArnLike (UserMapping.UserARNLike m) "arn:*:iam:*:*:user/*" = (true, None)).
Proof.
  unfold UserMapping.Validate.
  case_fields; try (split; [discriminate | intros [[? ?]|(? & ? & ?)]; congruence]).
  - destruct (ArnLike _ _) as [[] [e|]] eqn:E; simpl;
      (split; [try discriminate; intros _; right; by split_and!
              | intros [[? ?]|(? & ? & ?)]; congruence]).
  - split; [intros _; by left | done].
Qed.

(** X1.  [Validate] accepts a mapping exactly when one and only one of its
    two identifying fields is set and, if that is the pattern, the matcher
    says without error that the pattern has the shape of an ARN of its
    principal type; it rejects a nil mapping. *)
Theorem Validate_accepts_exactly_valid :
  (∀ m : RoleMapping.t,
      RoleMapping.Validate (Some m) = None
      ↔ (RoleMapping.RoleARN m ≠ "" ∧ RoleMapping.RoleARNLike m = "")
        ∨ (RoleMapping.RoleARN m = "" ∧ RoleMapping.RoleARNLike m ≠ ""
           ∧ ArnLike (RoleMapping.RoleARNLike m) "arn:*:iam:*:*:role/*" = (true, None)))
  ∧ (∀ m : UserMapping.t,
      UserMapping.Validate (Some m) = None
      ↔ (UserMapping.UserARN m ≠ "" ∧ UserMapping.UserARNLike m = "")
        ∨ (UserMapping.UserARN m = "" ∧ UserMapping.UserARNLike m ≠ ""
           ∧ ArnLike (UserMapping.UserARNLike m) "arn:*:iam:*:*:user/*" = (true, None)))
  ∧ RoleMapping.Validate None ≠ None
  ∧ UserMapping.Validate None ≠ None.
Proof.
  split_and!; try done.
  - apply RoleMapping_Validate_iff.
  - apply UserMapping_Validate_iff.
Qed.

(** X2.  [Key] and [Matches].  The key of a mapping that [Validate] accepts
    is not empty and is the one identifying field that is set; a mapping
    with an exact ARN matches a subject exactly when the subject is its
    key, character for character. *)
Theorem Key_of_valid_mapping :
  (∀ m : RoleMapping.t,
      RoleMapping.Validate (Some m) = None →
      RoleMapping.Key m ≠ ""
      ∧ (RoleMapping.Key m = RoleMapping.RoleARN m ∧ RoleMapping.RoleARNLike m = ""
         ∨ RoleMapping.Key m = RoleMapping.RoleARNLike m ∧ RoleMapping.RoleARN m = ""))
  ∧ (∀ m : UserMapping.t,
      UserMapping.Validate (Some m) = None →
      UserMapping.Key m ≠ ""
      ∧ (UserMapping.Key m = UserMapping.UserARN m ∧ UserMapping.UserARNLike m = ""
         ∨ UserMapping.Key m = UserMapping.UserARNLike m ∧ UserMapping.UserARN m = ""))
  ∧ (∀ (m : RoleMapping.t) subject,
      RoleMapping.RoleARN m ≠ "" →
      (RoleMapping.Matches m subject = true ↔ subject = RoleMapping.Key m))
  ∧ (∀ (m : UserMapping.t) subject,
      UserMapping.UserARN m ≠ "" →
      (UserMapping.Matches m subject = true ↔ subject = UserMapping.Key m)).
Proof.
  split_and!.
  - intros m. unfold RoleMapping.Validate, RoleMapping.Key.
    case_fields; intros Hv; try discriminate Hv; (split; [done | first [by left | by right]]).
  - intros m. unfold UserMapping.Validate, UserMapping.Key.
    case_fields; intros Hv; try discriminate Hv; (split; [done | first [by left | by right]]).
  - intros m subject Ha. unfold RoleMapping.Matches, RoleMapping.Key.
    rewrite !bool_decide_eq_true_2 by done. rewrite bool_decide_eq_true. split; done.
  - intros m subject Ha. unfold UserMapping.Matches, UserMapping.Key.
    rewrite !bool_decide_eq_true_2 by done. rewrite bool_decide_eq_true. split; done.
Qed.

(** The static mapper takes an entry when [Validate] accepts it and its
    exact ARN, if it has one, canonicalizes. *)
Lemma role_entry_valid_Validate m :
  role_entry_valid m
  ↔ RoleMapping.Validate (Some m) = None
    ∧ (RoleMapping.RoleARN m ≠ "" →
       ∃ c, Canonicalize (ToLower (RoleMapping.RoleARN m)) = Ok c).
Proof.
  rewrite RoleMapping_Validate_iff. unfold role_entry_valid.
  split.
  - intros [(Ha & Hl & Hc)|(Ha & Hl & Hp)]; (split; [tauto |]); [done |].
    intros ?. congruence.
  - intros [[[Ha Hl]|(Ha & Hl & Hp)] Hc]; [left | right]; by split_and!; auto.
Qed.

Lemma user_entry_valid_Validate m :
  user_entry_valid m
  ↔ UserMapping.Validate (Some m) = None
    ∧ (UserMapping.UserARN m ≠ "" →
       ∃ c, Canonicalize (ToLower (UserMapping.UserARN m)) = Ok c).
Proof.
  rewrite UserMapping_Validate_iff. unfold user_entry_valid.
  split.
  - intros [(Ha & Hl & Hc)|(Ha & Hl & Hp)]; (split; [tauto |]); [done |].
    intros ?. congruence.
  - intros [[[Ha Hl]|(Ha & Hl & Hp)] Hc]; [left | right]; by split_and!; auto.
Qed.

(** X3.  The static mapper is built exactly from the configurations of
    which [Validate] accepts every role and user mapping and of which every
    exact ARN canonicalizes (after lower-casing). *)
Theorem NewFileMapper_accepts_validated (cfg : Config) :
  (∃ fm, file.NewFileMapper cfg = Ok fm)
  ↔ Forall (λ m, RoleMapping.Validate (Some m) = None
                 ∧ (RoleMapping.RoleARN m ≠ "" →
                    ∃ c, Canonicalize (ToLower (RoleMapping.RoleARN m)) = Ok c))
           (RoleMappings cfg)
    ∧ Forall (λ m, UserMapping.Validate (Some m) = None
                   ∧ (UserMapping.UserARN m ≠ "" →
                      ∃ c, Canonicalize (ToLower (UserMapping.UserARN m)) = Ok c))
             (UserMappings cfg).
Proof.
  rewrite NewFileMapper_Ok.
  assert (∀ A (P Q : A → Prop) l, (∀ x, P x ↔ Q x) → (Forall P l ↔ Forall Q l)) as Hiff.
  { intros A P Q l HPQ. rewrite !Forall_forall. by setoid_rewrite HPQ. }
  rewrite (Hiff _ _ _ (RoleMappings cfg) role_entry_valid_Validate).
  by rewrite (Hiff _ _ _ (UserMappings cfg) user_entry_valid_Validate).
Qed.

Lemma addAccounts_accountMap ids : ∀ fm id,
  file.accountMap (file.addAccounts ids fm) !! id
  = if bool_decide (id ∈ ids) then Some true else file.accountMap fm !! id.
Proof.
  unfold file.addAccounts.
  induction ids as [|x ids IH]; intros fm id; cbn [fold_left].
  - rewrite bool_decide_eq_false_2; [done | apply not_elem_of_nil].
  - rewrite IH. cbn [file.set_accountMap file.accountMap].
    destruct (decide (id ∈ ids)) as [Hin|Hin].
    + rewrite !bool_decide_eq_true_2; [done | by right | done].
    + rewrite (bool_decide_eq_false_2 (id ∈ ids)) by done.
      destruct (decide (x = id)) as [->|Hx].
      * rewrite lookup_insert_eq, bool_decide_eq_true_2; [done | by left].
      * rewrite lookup_insert_ne by done.
        rewrite bool_decide_eq_false_2; [done |].
        intros [?|?]%elem_of_cons; congruence.
Qed.

(** X4.  An account is allowed by the static mapper exactly when the
    configuration lists it among the auto-mapped accounts. *)
Theorem IsAccountAllowed_iff_auto_mapped (cfg : Config) (fm : file.FileMapper)
    (accountID : string) :
  file.NewFileMapper cfg = Ok fm →
  file.IsAccountAllowed fm accountID
  = bool_decide (accountID ∈ AutoMappedAWSAccounts cfg).
Proof.
  unfold file.NewFileMapper, file.IsAccountAllowed. intros Hnew.
  destruct (file.addRoleMappings _ _) as [fm1|] eqn:E1; [| done].
  destruct (file.addUserMappings _ _) as [fm2|] eqn:E2; [| done].
  injection Hnew as <-.
  apply addRoleMappings_tables in E1 as (_ & _ & _ & _ & Ha1).
  apply addUserMappings_tables in E2 as (_ & _ & _ & _ & Ha2).
  rewrite addAccounts_accountMap, Ha2, Ha1. simpl. rewrite lookup_empty.
  by case_bool_decide.
Qed.
End validation.

(** ** Resolution: what [Map] can return *)

Section results.
Context {lib : Lib}.

Lemma matches_true c pattern :
  matches c pattern = true ↔ ArnLike c pattern = (true, None).
Proof.
  unfold matches. destruct (ArnLike c pattern) as [[] [e|]]; split; done.
Qed.

(** The values that a loop over a map visits are the values of the map. *)
Lemma ranges_elem {V} (t : gmap string V) (l : list V) (v : V) :
  ranges t l → (v ∈ l ↔ ∃ k, t !! k = Some v).
Proof.
  unfold ranges. intros ->. rewrite list_elem_of_fmap. split.
  - intros ([k v'] & -> & Hin). exists k. by apply elem_of_map_to_list.
  - intros [k Hk]. exists (k, v). split; [done |]. by apply elem_of_map_to_list.
Qed.



Lemma scanRoleArnLike_None visit c :
  file.scanRoleArnLike visit c = None
  ↔ Forall (λ m, ArnLike c (RoleMapping.RoleARNLike m) = (false, None)) visit.
Proof.
  induction visit as [|m visit IH]; simpl; [split; [constructor | done] |].
  rewrite Forall_cons.
  destruct (ArnLike c (RoleMapping.RoleARNLike m)) as [[] [e|]];
    try (split; [discriminate | intros [? _]; discriminate]).
  rewrite IH. tauto.
Qed.

Lemma scanUserArnLike_None visit c :
  file.scanUserArnLike visit c = None
  ↔ Forall (λ m, ArnLike c (UserMapping.UserARNLike m) = (false, None)) visit.
Proof.
  induction visit as [|m visit IH]; simpl; [split; [constructor | done] |].
  rewrite Forall_cons.
  destruct (ArnLike c (UserMapping.UserARNLike m)) as [[] [e|]];
    try (split; [discriminate | intros [? _]; discriminate]).
  rewrite IH. tauto.
Qed.

Lemma scanRoleArnLike_Err visit c e :
  file.scanRoleArnLike visit c = Some (Err e) →
  ∃ m, m ∈ visit ∧ (ArnLike c (RoleMapping.RoleARNLike m)).2 = Some e.
Proof.
  induction visit as [|m visit IH]; [done |]. simpl.
  destruct (ArnLike c (RoleMapping.RoleARNLike m)) as [[] [e'|]] eqn:E;
    try discriminate.
  - intros [= <-]. exists m. split; [left | by rewrite E].
  - intros [= <-]. exists m. split; [left | by rewrite E].
  - intros Hs. destruct (IH Hs) as (m' & ? & ?). exists m'. split; [by right | done].
Qed.

Lemma scanUserArnLike_Err visit c e :
  file.scanUserArnLike visit c = Some (Err e) →
  ∃ m, m ∈ visit ∧ (ArnLike c (UserMapping.UserARNLike m)).2 = Some e.
Proof.
  induction visit as [|m visit IH]; [done |]. simpl.
  destruct (ArnLike c (UserMapping.UserARNLike m)) as [[] [e'|]] eqn:E;
    try discriminate.
  - intros [= <-]. exists m. split; [left | by rewrite E].
  - intros [= <-]. exists m. split; [left | by rewrite E].
  - intros Hs. destruct (IH Hs) as (m' & ? & ?). exists m'. split; [by right | done].
Qed.

(** A scan of the live store that returns an error has met no match: no
    pattern that it visited matches, or the evaluation of one raised an
    error. *)
Lemma RoleArnLikeMapping_in_miss visit c m e :
  configmap.RoleArnLikeMapping_in visit c = (m, Some e) →
  Forall (λ m, ArnLike c (RoleMapping.RoleARNLike m) = (false, None)) visit
  ∨ ∃ m', m' ∈ visit ∧ (ArnLike c (RoleMapping.RoleARNLike m')).2 ≠ None.
Proof.
  induction visit as [|x visit IH]; simpl; [by left |].
  destruct (ArnLike c (RoleMapping.RoleARNLike x)) as [[] [e'|]] eqn:Ex; intros Hs.
  - right. exists x. split; [by left | by rewrite Ex].
  - discriminate.
  - right. exists x. split; [by left | by rewrite Ex].
  - destruct (IH Hs) as [Hall|(m' & Hin & Hm')].
    + left. by constructor.
    + right. exists m'. split; [by right | done].
Qed.

(** X5.  [Map] invents nothing, and keeps the order of its stages.  An
    identity that either mapper returns carries the lower-cased input as
    its ARN, and its username and groups are those of an entry of the
    tables:
    - the exact role entry for the lower-cased input; or
    - its exact user entry, and then there is no exact role entry; or
    - a role pattern entry that matches it, and then there is no exact
      entry; or
    - a user pattern entry that matches it, and then there is no exact
      entry and the scan of the role patterns found no match: in the static
      mapper every role pattern evaluates to no match; in the live mapper
      every role pattern evaluates to no match, or the evaluation of one of
      them raises an error. *)
Theorem Map_returns_configured_identity :
  (∀ fm a id,
      file.Map fm a (Ok id) →
      IdentityMapping.IdentityARN id = ToLower a
      ∧ ((∃ m, file.lowercaseRoleMap fm !! ToLower a = Some m
               ∧ id = role_identity (ToLower a) m)
         ∨ (∃ m, file.lowercaseRoleMap fm !! ToLower a = None
                 ∧ file.lowercaseUserMap fm !! ToLower a = Some m
                 ∧ id = user_identity (ToLower a) m)
         ∨ (∃ k m, file.lowercaseRoleMap fm !! ToLower a = None
                   ∧ file.lowercaseUserMap fm !! ToLower a = None
                   ∧ file.roleArnLikeMap fm !! k = Some m
                   ∧ ArnLike (ToLower a) (RoleMapping.RoleARNLike m) = (true, None)
                   ∧ id = role_identity (ToLower a) m)
         ∨ (∃ k m, file.lowercaseRoleMap fm !! ToLower a = None
                   ∧ file.lowercaseUserMap fm !! ToLower a = None
                   ∧ (∀ k' m', file.roleArnLikeMap fm !! k' = Some m' →
                               ArnLike (ToLower a) (RoleMapping.RoleARNLike m')
                               = (false, None))
                   ∧ file.userArnLikeMap fm !! k = Some m
                   ∧ ArnLike (ToLower a) (UserMapping.UserARNLike m) = (true, None)
                   ∧ id = user_identity (ToLower a) m)))
  ∧ (∀ ms a id,
      configmap.Map ms a (Ok id) →
      IdentityMapping.IdentityARN id = ToLower a
      ∧ ((∃ m, configmap.roles ms !! ToLower a = Some m
               ∧ id = role_identity (ToLower a) m)
         ∨ (∃ m, configmap.roles ms !! ToLower a = None
                 ∧ configmap.users ms !! ToLower a = Some m
                 ∧ id = user_identity (ToLower a) m)
         ∨ (∃ k m, configmap.roles ms !! ToLower a = None
                   ∧ configmap.users ms !! ToLower a = None
                   ∧ configmap.roleArnLikes ms !! k = Some m
                   ∧ ArnLike (ToLower a) (RoleMapping.RoleARNLike m) = (true, None)
                   ∧ id = role_identity (ToLower a) m)
         ∨ (∃ k m, configmap.roles ms !! ToLower a = None
                   ∧ configmap.users ms !! ToLower a = None
                   ∧ ((∀ k' m', configmap.roleArnLikes ms !! k' = Some m' →
                                ArnLike (ToLower a) (RoleMapping.RoleARNLike m')
                                = (false, None))
                      ∨ (∃ k' m', configmap.roleArnLikes ms !! k' = Some m'
                                  ∧ (ArnLike (ToLower a)
                                       (RoleMapping.RoleARNLike m')).2 ≠ None))
                   ∧ configmap.userArnLikes ms !! k = Some m
                   ∧ ArnLike (ToLower a) (UserMapping.UserARNLike m) = (true, None)
                   ∧ id = user_identity (ToLower a) m))).
Proof.
  split.
  - intros fm a id HMap. inversion HMap as [rv uv Hr Hu Heq]. clear HMap.
    unfold file.Map_in in Heq.
    destruct (file.lowercaseRoleMap fm !! ToLower a) as [m|] eqn:Er.
    { injection Heq as <-. split; [done |]. left. eauto. }
    destruct (file.lowercaseUserMap fm !! ToLower a) as [m|] eqn:Eu.
    { injection Heq as <-. split; [done |]. right. left. eauto. }
    destruct (file.scanRoleArnLike rv (ToLower a)) as [r|] eqn:Esr.
    { subst r. apply scanRoleArnLike_Ok in Esr as (m & Hin & Hm & ->).
      split; [done |]. right. right. left.
      apply (ranges_elem _ _ _ Hr) in Hin as [k Hk]. exists k, m.
      split_and!; try done. by rewrite <- matches_true. }
    destruct (file.scanUserArnLike uv (ToLower a)) as [r|] eqn:Esu; [| done].
    subst r. apply scanUserArnLike_Ok in Esu as (m & Hin & Hm & ->).
    split; [done |]. right. right. right.
    apply (ranges_elem _ _ _ Hu) in Hin as [k Hk]. exists k, m.
    split_and!; try done.
    + intros k' m' Hk'. apply scanRoleArnLike_None in Esr.
      rewrite Forall_forall in Esr. apply Esr.
      apply (ranges_elem _ _ _ Hr). eauto.
    + by rewrite <- matches_true.
  - intros ms a id HMap. inversion HMap as [rv uv Hr Hu Heq]. clear HMap.
    unfold configmap.Map_in, configmap.RoleMapping, configmap.UserMapping in Heq.
    destruct (configmap.roles ms !! ToLower a) as [m|] eqn:Er.
    { injection Heq as <-. split; [done |]. left. eauto. }
    destruct (configmap.users ms !! ToLower a) as [m|] eqn:Eu.
    { injection Heq as <-. split; [done |]. right. left. eauto. }
    destruct (configmap.RoleArnLikeMapping_in rv (ToLower a)) as [m [e|]] eqn:Esr.
    2:{ injection Heq as <-. apply RoleArnLikeMapping_in_Ok in Esr as [Hin Hm].
        split; [done |]. right. right. left.
        apply (ranges_elem _ _ _ Hr) in Hin as [k Hk]. exists k, m.
        split_and!; try done. by rewrite <- matches_true. }
    destruct (configmap.UserArnLikeMapping_in uv (ToLower a)) as [m' [e'|]] eqn:Esu;
      [done |].
    injection Heq as <-. apply UserArnLikeMapping_in_Ok in Esu as [Hin Hm].
    split; [done |]. right. right. right.
    apply (ranges_elem _ _ _ Hu) in Hin as [k Hk]. exists k, m'.
    split_and!; try done.
    + apply RoleArnLikeMapping_in_miss in Esr as [Hall|(x & Hx & Hbad)].
      * left. intros k' x Hk'. rewrite Forall_forall in Hall. apply Hall.
        apply (ranges_elem _ _ _ Hr). eauto.
      * right. apply (ranges_elem _ _ _ Hr) in Hx as [k' Hk']. eauto.
    + by rewrite <- matches_true.
Qed.

(** X6.  When the matcher does not use [NotMapped] as its own error, the
    static mapper returns [NotMapped] only if nothing matches: there is no
    exact role or user entry for the lower-cased input, and every pattern of
    the two pattern tables evaluates on it, without error, to no match. *)
Theorem NotMapped_means_nothing_matches (fm : file.FileMapper) (a : string) :
  (∀ c pattern, (ArnLike c pattern).2 ≠ Some ErrNotMapped) →
  file.Map fm a (Err ErrNotMapped) →
  file.lowercaseRoleMap fm !! ToLower a = None
  ∧ file.lowercaseUserMap fm !! ToLower a = None
  ∧ (∀ k m, file.roleArnLikeMap fm !! k = Some m →
            ArnLike (ToLower a) (RoleMapping.RoleARNLike m) = (false, None))
  ∧ (∀ k m, file.userArnLikeMap fm !! k = Some m →
            ArnLike (ToLower a) (UserMapping.UserARNLike m) = (false, None)).
Proof.
  intros Hlib HMap. inversion HMap as [rv uv Hr Hu Heq]. clear HMap.
  unfold file.Map_in in Heq.
  destruct (file.lowercaseRoleMap fm !! ToLower a) as [m|] eqn:Er; [done |].
  destruct (file.lowercaseUserMap fm !! ToLower a) as [m|] eqn:Eu; [done |].
  destruct (file.scanRoleArnLike rv (ToLower a)) as [r|] eqn:Esr.
  { subst r. apply scanRoleArnLike_Err in Esr as (m & _ & Hm). by apply Hlib in Hm. }
  destruct (file.scanUserArnLike uv (ToLower a)) as [r|] eqn:Esu.
  { subst r. apply scanUserArnLike_Err in Esu as (m & _ & Hm). by apply Hlib in Hm. }
  apply scanRoleArnLike_None in Esr. apply scanUserArnLike_None in Esu.
  rewrite Forall_forall in Esr. rewrite Forall_forall in Esu.
  split_and!; try done.
  - intros k m Hk. apply Esr. apply (ranges_elem _ _ _ Hr). eauto.
  - intros k m Hk. apply Esu. apply (ranges_elem _ _ _ Hu). eauto.
Qed.

(** The first element with a property, up to what is read from it, does
    not depend on the order when the elements with the property agree. *)
Lemma find_fmap_Permutation {A B} (P : A → bool) (f : A → B) (l1 l2 : list A) :
  l1 ≡ₚ l2 →
  (∀ x y, x ∈ l1 → y ∈ l1 → P x = true → P y = true → f x = f y) →
  f <$> List.find P l1 = f <$> List.find P l2.
Proof.
  intros Hperm Hagree.
  destruct (List.find P l1) as [x|] eqn:E1, (List.find P l2) as [y|] eqn:E2; simpl.
  - apply find_some in E1 as [Hx HPx], E2 as [Hy HPy].
    apply list_elem_of_In in Hx, Hy. rewrite <- Hperm in Hy. f_equal. by apply Hagree.
  - apply find_some in E1 as [Hx HPx]. apply list_elem_of_In in Hx.
    rewrite Hperm in Hx. apply list_elem_of_In in Hx.
    rewrite (find_none _ _ E2 _ Hx) in HPx. discriminate.
  - apply find_some in E2 as [Hy HPy]. apply list_elem_of_In in Hy.
    rewrite <- Hperm in Hy. apply list_elem_of_In in Hy.
    rewrite (find_none _ _ E1 _ Hy) in HPy. discriminate.
  - done.
Qed.

Lemma Map_spec_order (roleExact : gmap string RoleMapping.t)
    (userExact : gmap string UserMapping.t) (roleTable : gmap string RoleMapping.t)
    (userTable : gmap string UserMapping.t) rv1 uv1 rv2 uv2 a :
  ranges roleTable rv1 → ranges roleTable rv2 →
  ranges userTable uv1 → ranges userTable uv2 →
  (∀ k1 m1 k2 m2,
      roleTable !! k1 = Some m1 → roleTable !! k2 = Some m2 →
      matches (ToLower a) (RoleMapping.RoleARNLike m1) = true →
      matches (ToLower a) (RoleMapping.RoleARNLike m2) = true →
      role_identity (ToLower a) m1 = role_identity (ToLower a) m2) →
  (∀ k1 m1 k2 m2,
      userTable !! k1 = Some m1 → userTable !! k2 = Some m2 →
      matches (ToLower a) (UserMapping.UserARNLike m1) = true →
      matches (ToLower a) (UserMapping.UserARNLike m2) = true →
      user_identity (ToLower a) m1 = user_identity (ToLower a) m2) →
  Map_spec roleExact userExact rv1 uv1 a = Map_spec roleExact userExact rv2 uv2 a.
Proof.
  intros Hr1 Hr2 Hu1 Hu2 Hra Hua. unfold Map_spec.
  destruct (roleExact !! ToLower a); [done |].
  destruct (userExact !! ToLower a); [done |].
  assert (rv1 ≡ₚ rv2) as Hrp by (unfold ranges in *; by rewrite Hr1, Hr2).
  assert (uv1 ≡ₚ uv2) as Hup by (unfold ranges in *; by rewrite Hu1, Hu2).
  assert (role_identity (ToLower a)
            <$> List.find (λ m, matches (ToLower a) (RoleMapping.RoleARNLike m)) rv1
          = role_identity (ToLower a)
            <$> List.find (λ m, matches (ToLower a) (RoleMapping.RoleARNLike m)) rv2)
    as Hfr.
  { apply find_fmap_Permutation; [done |].
    intros x y [kx Hx]%(ranges_elem _ _ _ Hr1) [ky Hy]%(ranges_elem _ _ _ Hr1).
    by apply (Hra kx x ky y). }
  assert (user_identity (ToLower a)
            <$> List.find (λ m, matches (ToLower a) (UserMapping.UserARNLike m)) uv1
          = user_identity (ToLower a)
            <$> List.find (λ m, matches (ToLower a) (UserMapping.UserARNLike m)) uv2)
    as Hfu.
  { apply find_fmap_Permutation; [done |].
    intros x y [kx Hx]%(ranges_elem _ _ _ Hu1) [ky Hy]%(ranges_elem _ _ _ Hu1).
    by apply (Hua kx x ky y). }
  destruct (List.find _ rv1), (List.find _ rv2); simpl in Hfr; try discriminate;
    [unfold role_identity in *; congruence |].
  destruct (List.find _ uv1), (List.find _ uv2); simpl in Hfu; try discriminate;
    [unfold user_identity in *; congruence | done].
Qed.

Lemma ranges_Forall {V} (t : gmap string V) (l : list V) (P : V → Prop) :
  ranges t l → (∀ k v, t !! k = Some v → P v) → Forall P l.
Proof.
  intros Hl HP. apply Forall_forall. intros v [k Hk]%(ranges_elem _ _ _ Hl). eauto.
Qed.

(** X7.  Without overlap the result of [Map] does not depend on the order
    in which the pattern tables are visited.  If every pattern of the two
    tables evaluates on the lower-cased input without error, and the
    patterns of one table that match it all give the same identity, then
    [Map] has one result only; this holds for both mappers. *)
Theorem Map_result_unique_without_overlap :
  (∀ fm a r1 r2,
      (∀ k m, file.roleArnLikeMap fm !! k = Some m →
              evaluates (ToLower a) (RoleMapping.RoleARNLike m)) →
      (∀ k m, file.userArnLikeMap fm !! k = Some m →
              evaluates (ToLower a) (UserMapping.UserARNLike m)) →
      (∀ k1 m1 k2 m2,
          file.roleArnLikeMap fm !! k1 = Some m1 →
          file.roleArnLikeMap fm !! k2 = Some m2 →
          matches (ToLower a) (RoleMapping.RoleARNLike m1) = true →
          matches (ToLower a) (RoleMapping.RoleARNLike m2) = true →
          role_identity (ToLower a) m1 = role_identity (ToLower a) m2) →
      (∀ k1 m1 k2 m2,
          file.userArnLikeMap fm !! k1 = Some m1 →
          file.userArnLikeMap fm !! k2 = Some m2 →
          matches (ToLower a) (UserMapping.UserARNLike m1) = true →
          matches (ToLower a) (UserMapping.UserARNLike m2) = true →
          user_identity (ToLower a) m1 = user_identity (ToLower a) m2) →
      file.Map fm a r1 → file.Map fm a r2 → r1 = r2)
  ∧ (∀ ms a r1 r2,
      (∀ k m, configmap.roleArnLikes ms !! k = Some m →
              evaluates (ToLower a) (RoleMapping.RoleARNLike m)) →
      (∀ k m, configmap.userArnLikes ms !! k = Some m →
              evaluates (ToLower a) (UserMapping.UserARNLike m)) →
      (∀ k1 m1 k2 m2,
          configmap.roleArnLikes ms !! k1 = Some m1 →
          configmap.roleArnLikes ms !! k2 = Some m2 →
          matches (ToLower a) (RoleMapping.RoleARNLike m1) = true →
          matches (ToLower a) (RoleMapping.RoleARNLike m2) = true →
          role_identity (ToLower a) m1 = role_identity (ToLower a) m2) →
      (∀ k1 m1 k2 m2,
          configmap.userArnLikes ms !! k1 = Some m1 →
          configmap.userArnLikes ms !! k2 = Some m2 →
          matches (ToLower a) (UserMapping.UserARNLike m1) = true →
          matches (ToLower a) (UserMapping.UserARNLike m2) = true →
          user_identity (ToLower a) m1 = user_identity (ToLower a) m2) →
      configmap.Map ms a r1 → configmap.Map ms a r2 → r1 = r2).
Proof.
  split.
  - intros fm a r1 r2 Her Heu Hra Hua [rv1 uv1 Hr1 Hu1] [rv2 uv2 Hr2 Hu2].
    rewrite !file_Map_in_spec by (eapply ranges_Forall; eauto).
    by apply (Map_spec_order _ _ (file.roleArnLikeMap fm) (file.userArnLikeMap fm)).
  - intros ms a r1 r2 Her Heu Hra Hua [rv1 uv1 Hr1 Hu1] [rv2 uv2 Hr2 Hu2].
    rewrite !configmap_Map_in_spec by (eapply ranges_Forall; eauto).
    by apply (Map_spec_order _ _ (configmap.roleArnLikes ms) (configmap.userArnLikes ms)).
Qed.


(** X9.  A mapper made by [NewFileMapperWithMaps] has no pattern tables:
    its [Map] has one result, which it reads from the two exact tables
    without calling the matcher - the exact role entry for the lower-cased
    input, else the exact user entry, else [NotMapped]. *)
Theorem NewFileMapperWithMaps_exact_only
    (roleMap : gmap string RoleMapping.t) (userMap : gmap string UserMapping.t)
    (accountMap : gmap string bool) (a : string) (res : outcome IdentityMapping.t) :
  file.Map (file.NewFileMapperWithMaps roleMap userMap accountMap) a res
  ↔ res = match roleMap !! ToLower a with
          | Some m => Ok (role_identity (ToLower a) m)
          | None =>
            match userMap !! ToLower a with
            | Some m => Ok (user_identity (ToLower a) m)
            | None => Err ErrNotMapped
            end
          end.
Proof.
  split.
  - intros [rv uv Hr%ranges_empty Hu%ranges_empty]. subst rv uv.
    unfold file.Map_in. simpl.
    destruct (roleMap !! ToLower a); [done |]. by destruct (userMap !! ToLower a).
  - intros ->.
    assert (file.Map_in [] [] (file.NewFileMapperWithMaps roleMap userMap accountMap) a
            = match roleMap !! ToLower a with
              | Some m => Ok (role_identity (ToLower a) m)
              | None =>
                match userMap !! ToLower a with
                | Some m => Ok (user_identity (ToLower a) m)
                | None => Err ErrNotMapped
                end
              end) as <-.
    { unfold file.Map_in. simpl.
      destruct (roleMap !! ToLower a); [done |]. by destruct (userMap !! ToLower a). }
    constructor; by apply ranges_empty.
Qed.
End results.

(** ** Resolution: the four stages *)

Section stages.
Context {lib : Lib}.

(** The patterns that [NewFileMapper] files have passed its test of their
    shape. *)
Lemma NewFileMapper_patterns cfg fm :
  file.NewFileMapper cfg = Ok fm →
  (∀ k m, file.roleArnLikeMap fm !! k = Some m →
          ArnLike (RoleMapping.RoleARNLike m) "arn:*:iam:*:*:role/*" = (true, None))
  ∧ (∀ k m, file.userArnLikeMap fm !! k = Some m →
            ArnLike (UserMapping.UserARNLike m) "arn:*:iam:*:*:user/*" = (true, None)).
Proof.
  intros Hnew.
  destruct (proj1 (NewFileMapper_Ok cfg) (ex_intro _ fm Hnew)) as [Hrs Hus].
  rewrite Forall_forall in Hrs. rewrite Forall_forall in Hus.
  split; intros k m Hk.
  - destruct (NewFileMapper_tables cfg fm Hnew k) as (_ & Ht & _).
    rewrite Ht in Hk. apply last_such_Some in Hk as [Hkey Hin].
    unfold static_role_pattern_key in Hkey.
    apply andb_prop in Hkey as [Harn%bool_decide_eq_true _].
    destruct (Hrs m Hin) as [(Hne & _)|(_ & _ & Hshape)]; [done | exact Hshape].
  - destruct (NewFileMapper_tables cfg fm Hnew k) as (_ & _ & _ & Ht).
    rewrite Ht in Hk. apply last_such_Some in Hk as [Hkey Hin].
    unfold static_user_pattern_key in Hkey.
    apply andb_prop in Hkey as [Harn%bool_decide_eq_true _].
    destruct (Hus m Hin) as [(Hne & _)|(_ & _ & Hshape)]; [done | exact Hshape].
Qed.

(** A pattern whose evaluation raises an error ends the scan of the live
    store, whatever comes after it. *)
Lemma RoleArnLikeMapping_in_aborts pre bad post c :
  Forall (λ m, ArnLike c (RoleMapping.RoleARNLike m) = (false, None)) pre →
  (ArnLike c (RoleMapping.RoleARNLike bad)).2 ≠ None →
  (configmap.RoleArnLikeMapping_in (pre ++ bad :: post) c).2 ≠ None.
Proof.
  intros Hpre Hbad. induction Hpre as [|m pre Hm _ IH]; simpl.
  - destruct (ArnLike c (RoleMapping.RoleARNLike bad)) as [[] [e|]]; done.
  - by rewrite Hm.
Qed.

(** C1 on the code.  [Map] lower-cases the input and then tries, in order,
    the exact role lookup, the exact user lookup, the scan of the role
    patterns and the scan of the user patterns, and returns the identity of
    the first match, or [NotMapped] when no stage matches:
    - the static mapper does so on every input ARN, for every mapper that
      [NewFileMapper] builds, given a matcher that raises an error on
      malformed text and on nothing else and a lower-casing that keeps an
      ARN well formed;
    - the live mapper does so whenever the patterns of its store evaluate
      on the lower-cased input;
    - in both an exact role entry for the input decides the result,
      whatever the patterns, and the live mapper returns [NotMapped] when
      none of its four lookups succeeds.
    The live mapper does otherwise when its store holds a pattern whose
    evaluation raises an error: once the scan of the role patterns visits
    that pattern, [Map] goes on to the user patterns, and the role patterns
    that the scan has not visited yet are not tried, even one that
    matches. *)
Theorem Map_tries_four_stages_in_order :
  (∀ (well_formed : string → bool) cfg fm rv uv a,
      ArnLike_errors_on_malformed well_formed →
      (∀ s, well_formed s = true → well_formed (ToLower s) = true) →
      file.NewFileMapper cfg = Ok fm →
      well_formed a = true →
      ranges (file.roleArnLikeMap fm) rv →
      ranges (file.userArnLikeMap fm) uv →
      file.Map_in rv uv fm a
      = Map_spec (file.lowercaseRoleMap fm) (file.lowercaseUserMap fm) rv uv a)
  ∧ (∀ ms rv uv a,
      Forall (λ m, evaluates (ToLower a) (RoleMapping.RoleARNLike m)) rv →
      Forall (λ m, evaluates (ToLower a) (UserMapping.UserARNLike m)) uv →
      configmap.Map_in rv uv ms a
      = Map_spec (configmap.roles ms) (configmap.users ms) rv uv a)
  ∧ (∀ fm a m res,
      file.lowercaseRoleMap fm !! ToLower a = Some m →
      file.Map fm a res → res = Ok (role_identity (ToLower a) m))
  ∧ (∀ ms a m res,
      configmap.roles ms !! ToLower a = Some m →
      configmap.Map ms a res → res = Ok (role_identity (ToLower a) m))
  ∧ (∀ ms rv uv a,
      (configmap.RoleMapping ms (ToLower a)).2 ≠ None →
      (configmap.UserMapping ms (ToLower a)).2 ≠ None →
      (configmap.RoleArnLikeMapping_in rv (ToLower a)).2 ≠ None →
      (configmap.UserArnLikeMapping_in uv (ToLower a)).2 ≠ None →
      configmap.Map_in rv uv ms a = Err ErrNotMapped)
  ∧ (∀ ms pre bad post uv a,
      configmap.roles ms !! ToLower a = None →
      configmap.users ms !! ToLower a = None →
      Forall (λ m, ArnLike (ToLower a) (RoleMapping.RoleARNLike m) = (false, None))
             pre →
      (ArnLike (ToLower a) (RoleMapping.RoleARNLike bad)).2 ≠ None →
      configmap.Map_in (pre ++ bad :: post) uv ms a
      = first_hit
          [user_hit (ToLower a) (configmap.UserArnLikeMapping_in uv (ToLower a))]).
Proof.
  split_and!.
  - intros well_formed cfg fm rv uv a Hlib Hlower Hnew Ha Hrv Huv.
    destruct (NewFileMapper_patterns cfg fm Hnew) as [Hrp Hup].
    apply file_Map_in_spec.
    + apply (ranges_Forall _ _ _ Hrv). intros k m Hk. apply Hlib. split.
      * by apply Hlower.
      * apply (Hlib (RoleMapping.RoleARNLike m) "arn:*:iam:*:*:role/*").
        by rewrite (Hrp k m Hk).
    + apply (ranges_Forall _ _ _ Huv). intros k m Hk. apply Hlib. split.
      * by apply Hlower.
      * apply (Hlib (UserMapping.UserARNLike m) "arn:*:iam:*:*:user/*").
        by rewrite (Hup k m Hk).
  - intros. by apply configmap_Map_in_spec.
  - intros fm a m res Hm [rv uv _ _]. unfold file.Map_in. by rewrite Hm.
  - intros ms a m res Hm [rv uv _ _].
    unfold configmap.Map_in, configmap.RoleMapping. by rewrite Hm.
  - intros ms rv uv a H1 H2 H3 H4. rewrite configmap_Map_in_first_hit.
    destruct (configmap.RoleMapping ms (ToLower a)) as [? [?|]]; [| done].
    destruct (configmap.UserMapping ms (ToLower a)) as [? [?|]]; [| done].
    destruct (configmap.RoleArnLikeMapping_in rv (ToLower a)) as [? [?|]]; [| done].
    destruct (configmap.UserArnLikeMapping_in uv (ToLower a)) as [? [?|]]; done.
  - intros ms pre bad post uv a Hr Hu Hpre Hbad.
    rewrite configmap_Map_in_first_hit.
    unfold configmap.RoleMapping, configmap.UserMapping. rewrite Hr, Hu.
    pose proof (RoleArnLikeMapping_in_aborts pre bad post (ToLower a) Hpre Hbad) as Hs.
    destruct (configmap.RoleArnLikeMapping_in (pre ++ bad :: post) (ToLower a))
      as [? [?|]]; done.
Qed.
End stages.

(** ** The store under the events of a watch *)

Section store.
Context {lib : Lib} {codec : Codec}.

Lemma processEvent_ignored ms r :
  replaces r = false → configmap.processEvent ms r = ms.
Proof.
  unfold replaces, configmap.processEvent.
  destruct (watch.Type_ r); try done.
  - destruct (watch.Object_ r) as [cm|]; [| done].
    intros Hn%bool_decide_eq_false. by rewrite bool_decide_eq_true_2.
  - destruct (watch.Object_ r) as [cm|]; [| done].
    intros Hn%bool_decide_eq_false. by rewrite bool_decide_eq_true_2.
Qed.

Lemma processEvent_replaces ms1 ms2 r :
  replaces r = true → configmap.processEvent ms1 r = configmap.processEvent ms2 r.
Proof.
  unfold replaces, configmap.processEvent.
  destruct (watch.Type_ r); try done.
  - destruct (watch.Object_ r) as [cm|]; [| done].
    intros Hn%bool_decide_eq_true. by rewrite bool_decide_eq_false_2 by (by intros ?).
  - destruct (watch.Object_ r) as [cm|]; [| done].
    intros Hn%bool_decide_eq_true. by rewrite bool_decide_eq_false_2 by (by intros ?).
Qed.

(** X10.  The store after the events of a watch is decided by the last
    event that replaces its contents - a [Deleted] event, or an [Added] or
    [Modified] event that carries the document [aws-auth] - whatever the
    store held before and whatever came before that event; the other events
    (errors, bookmarks, other documents and objects) leave the store as it
    is. *)
Theorem processEvents_last_replacing_event :
  (∀ ms rs,
      configmap.processEvents ms rs
      = match last_such replaces rs with
        | Some r => configmap.processEvent ms r
        | None => ms
        end)
  ∧ (∀ ms1 ms2 r,
      replaces r = true →
      configmap.processEvent ms1 r = configmap.processEvent ms2 r)
  ∧ (∀ ms r, replaces r = false → configmap.processEvent ms r = ms).
Proof.
  split_and!.
  - intros ms rs. unfold configmap.processEvents.
    induction rs as [|r rs IH] using rev_ind; [done |].
    rewrite fold_left_app, last_such_snoc. simpl.
    destruct (replaces r) eqn:Hr.
    + by apply processEvent_replaces.
    + by rewrite processEvent_ignored.
  - intros. by apply processEvent_replaces.
  - intros. by apply processEvent_ignored.
Qed.

Lemma last_such_is_Some {A} (P : A → bool) (l : list A) (x : A) :
  x ∈ l → P x = true → ∃ y, last_such P l = Some y.
Proof.
  intros Hin HP. unfold last_such.
  destruct (List.find P (rev l)) as [y|] eqn:E; [eauto |].
  apply list_elem_of_In, in_rev in Hin.
  rewrite (find_none _ _ E _ Hin) in HP. discriminate.
Qed.

(** X11.  After an [Added] or [Modified] event with the document
    [aws-auth] the store answers from what [ParseMap] returned for the
    document, whether or not it returned an error with it: an exact lookup
    returns the last exact record whose lower-cased ARN is the key, or its
    not-found error when there is none, and an account is known exactly
    when the document lists it. *)
Theorem store_after_document_event (ms : configmap.MapStore) (r : watch.Event)
    (cm : core_v1.ConfigMap) :
  watch.Type_ r = watch.Added ∨ watch.Type_ r = watch.Modified →
  watch.Object_ r = watch.ConfigMap cm →
  core_v1.Name cm = "aws-auth" →
  let p := configmap.ParseMap (core_v1.Data cm) in
  let ms' := configmap.processEvent ms r in
  (∀ k, configmap.UserMapping ms' k
        = match last_such (store_user_exact_key k) (configmap.userMappings p) with
          | Some u => (u, None)
          | None => (UserMapping.zero, Some UserNotFound)
          end)
  ∧ (∀ k, configmap.RoleMapping ms' k
          = match last_such (store_role_exact_key k) (configmap.roleMappings p) with
            | Some u => (u, None)
            | None => (RoleMapping.zero, Some RoleNotFound)
            end)
  ∧ (∀ id, configmap.AWSAccount ms' id
           = bool_decide (id ∈ configmap.awsAccountList p)).
Proof.
  intros Ht Ho Hn p ms'.
  assert (ms' = configmap.saveMap ms (configmap.userMappings p)
                  (configmap.userArnLikeMappings p) (configmap.roleMappings p)
                  (configmap.roleArnLikeMappings p) (configmap.awsAccountList p))
    as ->.
  { unfold ms', configmap.processEvent. rewrite Ho.
    rewrite bool_decide_eq_false_2 by (by intros ?). by destruct Ht as [-> | ->]. }
  destruct (saveMap_tables ms (configmap.userMappings p)
              (configmap.userArnLikeMappings p) (configmap.roleMappings p)
              (configmap.roleArnLikeMappings p) (configmap.awsAccountList p))
    as (Hu & _ & Hr & _ & Ha).
  split_and!.
  - intros k. unfold configmap.UserMapping. rewrite Hu. by destruct (last_such _ _).
  - intros k. unfold configmap.RoleMapping. rewrite Hr. by destruct (last_such _ _).
  - done.
Qed.

(** X12.  The exact lookups of the store are case-sensitive in their key.
    [saveMap] files every exact record under its lower-cased ARN, so, given
    that lower-casing twice is lower-casing once, a key that is not in
    lower case finds nothing, and the lower-cased ARN of a record that was
    saved finds a record with that lower-cased ARN. *)
Theorem store_lookup_is_case_sensitive
    (ms : configmap.MapStore) (us uls : list UserMapping.t)
    (rs rls : list RoleMapping.t) (accounts : list string) :
  (∀ s, ToLower (ToLower s) = ToLower s) →
  let ms' := configmap.saveMap ms us uls rs rls accounts in
  (∀ k, ToLower k ≠ k →
        configmap.UserMapping ms' k = (UserMapping.zero, Some UserNotFound)
        ∧ configmap.RoleMapping ms' k = (RoleMapping.zero, Some RoleNotFound))
  ∧ (∀ u, u ∈ us →
          ∃ u', configmap.UserMapping ms' (ToLower (UserMapping.UserARN u)) = (u', None)
                ∧ ToLower (UserMapping.UserARN u') = ToLower (UserMapping.UserARN u))
  ∧ (∀ r, r ∈ rs →
          ∃ r', configmap.RoleMapping ms' (ToLower (RoleMapping.RoleARN r)) = (r', None)
                ∧ ToLower (RoleMapping.RoleARN r') = ToLower (RoleMapping.RoleARN r)).
Proof.
  intros Hidem ms'.
  destruct (saveMap_tables ms us uls rs rls accounts) as (Hu & _ & Hr & _ & _).
  fold ms' in Hu, Hr. unfold configmap.UserMapping, configmap.RoleMapping.
  split_and!.
  - intros k Hk. rewrite Hu, Hr. split.
    + destruct (last_such _ us) as [u|] eqn:E; [| done].
      apply last_such_Some in E as [HP _]. apply bool_decide_eq_true in HP.
      destruct Hk. by rewrite <- HP.
    + destruct (last_such _ rs) as [r|] eqn:E; [| done].
      apply last_such_Some in E as [HP _]. apply bool_decide_eq_true in HP.
      destruct Hk. by rewrite <- HP.
  - intros u Hin. rewrite Hu.
    destruct (last_such_is_Some (store_user_exact_key (ToLower (UserMapping.UserARN u)))
                us u Hin) as [u' E].
    { by apply bool_decide_eq_true. }
    rewrite E. exists u'. split; [done |].
    apply last_such_Some in E as [HP _]. by apply bool_decide_eq_true in HP.
  - intros r Hin. rewrite Hr.
    destruct (last_such_is_Some (store_role_exact_key (ToLower (RoleMapping.RoleARN r)))
                rs r Hin) as [r' E].
    { by apply bool_decide_eq_true. }
    rewrite E. exists r'. split; [done |].
    apply last_such_Some in E as [HP _]. by apply bool_decide_eq_true in HP.
Qed.
End store.

(** ** The document codec, in general *)

Section documents.
Context {lib : Lib} {codec : Codec}.

Lemma append_err_option_list errs err :
  configmap.append_err errs err = errs ++ option_list err.
Proof. destruct err; simpl; [done | by rewrite app_nil_r]. Qed.

Lemma aggregate_error (errs : list error) :
  (if bool_decide (0 < List.length errs) then Some (ErrParsingMap errs) else None)
  = match errs with
    | [] => None
    | _ :: _ => Some (ErrParsingMap errs)
    end.
Proof.
  destruct errs.
  - rewrite bool_decide_eq_false_2; [done | simpl; lia].
  - rewrite bool_decide_eq_true_2; [done | simpl; lia].
Qed.

Lemma ParseMap_unfold (m : gmap string string) :
  configmap.ParseMap m = ParseMap_spec m.
Proof.
  unfold configmap.ParseMap, ParseMap_spec, decode_users, decode_roles, decode_accounts.
  destruct (m !! "mapUsers") as [userData|];
    [destruct (utilyaml_ToJSON userData) as [userJson|eu];
     [destruct (json_Unmarshal_UserMappings userJson) as [rawu eu];
      rewrite parseUserMappings_fold |] |].
  all: destruct (m !! "mapRoles") as [roleData|];
    [destruct (utilyaml_ToJSON roleData) as [roleJson|er];
     [destruct (json_Unmarshal_RoleMappings roleJson) as [rawr er];
      rewrite parseRoleMappings_fold |] |].
  all: destruct (m !! "mapAccounts") as [accountsData|];
    [destruct (yaml_Unmarshal_strings accountsData) as [accs ea] |].
  all: cbn -[List.filter List.concat map bool_decide].
  all: rewrite ?aggregate_error, ?append_err_option_list.
  all: cbn -[List.filter List.concat map].
  all: rewrite ?app_nil_r, <- ?app_assoc; reflexivity.
Qed.

(** X13.  [ParseMap] computes [ParseMap_spec]: each of the three fields is
    optional and is decoded by itself; the records of the user and role
    lists are sorted, in the order of the document, into those with an
    exact ARN only and those with a pattern only, the others are left out;
    and the error is nil exactly when there is no cause, the causes being in
    the order users, roles, accounts. *)
Theorem ParseMap_computes_spec (m : gmap string string) :
  configmap.ParseMap m = ParseMap_spec m.
Proof. apply ParseMap_unfold. Qed.

Lemma concat_nil_Forall {A B} (f : A → list B) (l : list A) :
  List.concat (map f l) = [] ↔ Forall (λ x, f x = []) l.
Proof.
  induction l as [|x l IH]; simpl; [split; [constructor | done] |].
  rewrite Forall_cons, <- IH. split.
  - by intros [? ?]%app_eq_nil.
  - intros [-> ->]. done.
Qed.

Lemma Forall_iff_pointwise {A} (P Q : A → Prop) (l : list A) :
  (∀ x, P x ↔ Q x) → (Forall P l ↔ Forall Q l).
Proof. intros HPQ. rewrite !Forall_forall. by setoid_rewrite HPQ. Qed.

(** X14.  [ParseMap] returns a nil error exactly when every field that is
    present decodes without error and [Validate] accepts every decoded user
    and role record. *)
Theorem ParseMap_nil_error_iff (m : gmap string string) :
  configmap.err (configmap.ParseMap m) = None
  ↔ (decode_users m).2 = []
    ∧ Forall (λ u, UserMapping.Validate (Some u) = None) (decode_users m).1
    ∧ (decode_roles m).2 = []
    ∧ Forall (λ r, RoleMapping.Validate (Some r) = None) (decode_roles m).1
    ∧ (decode_accounts m).2 = [].
Proof.
  rewrite ParseMap_unfold. unfold ParseMap_spec. cbn [configmap.err].
  rewrite (Forall_iff_pointwise _ (λ u, user_causes u = []) (decode_users m).1).
  2:{ intros u. by rewrite UserMapping_Validate_valid, user_causes_valid. }
  rewrite (Forall_iff_pointwise _ (λ r, role_causes r = []) (decode_roles m).1).
  2:{ intros r. by rewrite RoleMapping_Validate_valid, role_causes_valid. }
  rewrite <- !concat_nil_Forall.
  destruct ((decode_users m).2 ++ _) as [|e errs] eqn:E.
  - apply app_eq_nil in E as [-> E]. apply app_eq_nil in E as [-> E].
    apply app_eq_nil in E as [-> E]. apply app_eq_nil in E as [-> ->]. done.
  - split; [done |]. intros (H1 & H2 & H3 & H4 & H5).
    rewrite H1, H2, H3, H4, H5 in E. discriminate.
Qed.

Lemma parse_valid_users us errs :
  Forall (λ u, user_record_valid u = true) us →
  fold_left configmap.parseUserMapping us (errs, [], [])
  = (errs, List.filter user_exact_only us, List.filter user_pattern_only us).
Proof.
  intros Hus. rewrite parseUserMappings_fold, causes_none, app_nil_r; [done |].
  eapply Forall_impl; [done |]. intros u Hu. by apply user_causes_valid.
Qed.

Lemma parse_valid_roles rs errs :
  Forall (λ r, role_record_valid r = true) rs →
  fold_left configmap.parseRoleMapping rs (errs, [], [])
  = (errs, List.filter role_exact_only rs, List.filter role_pattern_only rs).
Proof.
  intros Hrs. rewrite parseRoleMappings_fold, causes_none, app_nil_r; [done |].
  eapply Forall_impl; [done |]. intros r Hr. by apply role_causes_valid.
Qed.

Lemma length_cases {A} (l : list A) :
  l = [] ∧ bool_decide (0 < List.length l) = false
  ∨ l ≠ [] ∧ bool_decide (0 < List.length l) = true.
Proof.
  destruct l as [|x l]; [left | right]; (split; [done |]).
  - apply bool_decide_eq_false. simpl. lia.
  - apply bool_decide_eq_true. simpl. lia.
Qed.

(** X15.  What [EncodeMap] writes.  When it succeeds, the document has a
    field for each of the three lists that is not empty, holding the
    encoding of the list, no field for an empty list, and no other field.
    When it fails, the error is that of the encoding of a list that is not
    empty. *)
Theorem EncodeMap_fields (us : list UserMapping.t) (rs : list RoleMapping.t)
    (accounts : list string) :
  (∀ m, configmap.EncodeMap us rs accounts = Ok m →
        (us = [] ∧ m !! "mapUsers" = None
         ∨ us ≠ [] ∧ ∃ body, yaml_Marshal_UserMappings us = Ok body
                             ∧ m !! "mapUsers" = Some body)
        ∧ (rs = [] ∧ m !! "mapRoles" = None
           ∨ rs ≠ [] ∧ ∃ body, yaml_Marshal_RoleMappings rs = Ok body
                               ∧ m !! "mapRoles" = Some body)
        ∧ (accounts = [] ∧ m !! "mapAccounts" = None
           ∨ accounts ≠ [] ∧ ∃ body, yaml_Marshal_strings accounts = Ok body
                                     ∧ m !! "mapAccounts" = Some body)
        ∧ ∀ k, k ≠ "mapUsers" → k ≠ "mapRoles" → k ≠ "mapAccounts" → m !! k = None)
  ∧ (∀ e, configmap.EncodeMap us rs accounts = Err e →
          (us ≠ [] ∧ yaml_Marshal_UserMappings us = Err e)
          ∨ (rs ≠ [] ∧ yaml_Marshal_RoleMappings rs = Err e)
          ∨ (accounts ≠ [] ∧ yaml_Marshal_strings accounts = Err e)).
Proof.
  unfold configmap.EncodeMap. split.
  - intros m.
    destruct (length_cases us) as [[-> ->]|[Hu ->]];
      [| destruct (yaml_Marshal_UserMappings us) as [bu|] eqn:Eu; [| done]];
    (destruct (length_cases rs) as [[-> ->]|[Hr ->]];
      [| destruct (yaml_Marshal_RoleMappings rs) as [br|] eqn:Er; [| done]]);
    (destruct (length_cases accounts) as [[-> ->]|[Ha ->]];
      [| destruct (yaml_Marshal_strings accounts) as [ba|] eqn:Ea; [| done]]).
    all: intros [= <-].
    all: split_and!; try (intros k ? ? ?); simplify_map_eq; eauto.
  - intros e.
    destruct (length_cases us) as [[-> ->]|[Hu ->]];
      [| destruct (yaml_Marshal_UserMappings us) as [bu|] eqn:Eu;
         [| intros [= <-]; eauto]];
    (destruct (length_cases rs) as [[-> ->]|[Hr ->]];
      [| destruct (yaml_Marshal_RoleMappings rs) as [br|] eqn:Er;
         [| intros [= <-]; eauto]]);
    (destruct (length_cases accounts) as [[-> ->]|[Ha ->]];
      [| destruct (yaml_Marshal_strings accounts) as [ba|] eqn:Ea;
         [| intros [= <-]; eauto 6]]).
    all: done.
Qed.

(** X16.  Round trip with patterns.  For user and role records that all
    validate - with an exact ARN, or with a pattern of the right shape - and
    for libraries that decode their own encoding of the three lists,
    [ParseMap] after [EncodeMap] returns the records sorted into exact and
    pattern entries, each in the order of the list, the account ids, and no
    error. *)
Theorem EncodeMap_ParseMap_sorts
    (us : list UserMapping.t) (rs : list RoleMapping.t) (accounts : list string) :
  Forall (λ u, user_record_valid u = true) us →
  Forall (λ r, role_record_valid r = true) rs →
  (us ≠ [] → ∃ body json,
      yaml_Marshal_UserMappings us = Ok body ∧ utilyaml_ToJSON body = Ok json
      ∧ json_Unmarshal_UserMappings json = (us, None)) →
  (rs ≠ [] → ∃ body json,
      yaml_Marshal_RoleMappings rs = Ok body ∧ utilyaml_ToJSON body = Ok json
      ∧ json_Unmarshal_RoleMappings json = (rs, None)) →
  (accounts ≠ [] → ∃ body,
      yaml_Marshal_strings accounts = Ok body
      ∧ yaml_Unmarshal_strings body = (accounts, None)) →
  ∃ m, configmap.EncodeMap us rs accounts = Ok m
       ∧ configmap.ParseMap m
         = configmap.Build_Parsed
             (List.filter user_exact_only us) (List.filter user_pattern_only us)
             (List.filter role_exact_only rs) (List.filter role_pattern_only rs)
             accounts None.
Proof.
  intros Hus Hrs Hcu Hcr Hca. unfold configmap.EncodeMap.
  destruct (length_cases us) as [[-> ->]|[Hu ->]];
    [| destruct (Hcu Hu) as (bu & ju & -> & Htu & Hdu)];
  (destruct (length_cases rs) as [[-> ->]|[Hr ->]];
    [| destruct (Hcr Hr) as (br & jr & -> & Htr & Hdr)]);
  (destruct (length_cases accounts) as [[-> ->]|[Ha ->]];
    [| destruct (Hca Ha) as (ba & -> & Hda)]).
  all: eexists; split; [reflexivity |].
  all: unfold configmap.ParseMap; simplify_map_eq.
  all: repeat first
         [ rewrite Htu | rewrite Hdu | rewrite Htr | rewrite Hdr | rewrite Hda
         | rewrite parse_valid_users by done
         | rewrite parse_valid_roles by done
         | progress cbn -[List.filter] ].
  all: done.
Qed.
End documents.

(** ** Additions to the document, in general *)

Section more_additions.
Context {lib : Lib} {codec : Codec} {binding : client.Binding} {W : Type}.

Lemma attempt_read_error (cli : client.client W) role user st cm e w0 :
  client.getMap cli st.2 = ((cm, Some e), w0) →
  client.attempt cli role user st = (Some e, (Some cm, w0)).
Proof. intros Hget. unfold client.attempt. by rewrite Hget. Qed.

Lemma attempt_parse_error (cli : client.client W) role user st cm e w0 :
  client.getMap cli st.2 = ((cm, None), w0) →
  configmap.err (configmap.ParseMap (core_v1.Data cm)) = Some e →
  client.attempt cli role user st
  = (Some (Errorf "failed to parse configmap %v" [Error e]), (Some cm, w0)).
Proof. intros Hget Herr. unfold client.attempt. by rewrite Hget, Herr. Qed.

(** X17.  A call that fails before the update leaves the store as the read
    left it.  A nil argument fails without a read; an error of the read
    that is not a conflict is returned as it is; and when [ParseMap] returns
    an error for the document that was read, [AddRole] and [AddUser] fail
    with the parse failure.  In none of these cases is an update tried. *)
Theorem add_fails_before_update (cli : client.client W) (w w0 : W)
    (cm : core_v1.ConfigMap) :
  client.AddRole cli None w = ((None, Some (Errorf "empty role" [])), w)
  ∧ client.AddUser cli None w = ((None, Some (Errorf "empty user" [])), w)
  ∧ (∀ e role user,
      client.getMap cli w = ((cm, Some e), w0) →
      client.IsConflict e = false →
      client.AddRole cli (Some role) w = ((Some cm, Some e), w0)
      ∧ client.AddUser cli (Some user) w = ((Some cm, Some e), w0))
  ∧ (∀ e role user,
      client.getMap cli w = ((cm, None), w0) →
      configmap.err (configmap.ParseMap (core_v1.Data cm)) = Some e →
      client.AddRole cli (Some role) w
      = ((Some cm, Some (Errorf "failed to parse configmap %v" [Error e])), w0)
      ∧ client.AddUser cli (Some user) w
        = ((Some cm, Some (Errorf "failed to parse configmap %v" [Error e])), w0)).
Proof.
  split_and!; try done.
  - intros e role user Hget He. unfold client.AddRole, client.AddUser.
    split; apply add_result; eauto; by apply attempt_read_error.
  - intros e role user Hget Herr. unfold client.AddRole, client.AddUser.
    split; apply add_result; eauto; by apply attempt_parse_error.
Qed.

Lemma ParseMap_err_invalid (m : gmap string string) :
  (∃ r, r ∈ (decode_roles m).1 ∧ RoleMapping.Validate (Some r) ≠ None)
  ∨ (∃ u, u ∈ (decode_users m).1 ∧ UserMapping.Validate (Some u) ≠ None) →
  ∃ e, configmap.err (configmap.ParseMap m) = Some e.
Proof.
  intros Hinv. rewrite ParseMap_unfold. unfold ParseMap_spec. cbn [configmap.err].
  destruct ((decode_users m).2 ++ _) as [|e errs] eqn:E; [| eauto].
  apply app_eq_nil in E as [_ E]. apply app_eq_nil in E as [Hu E].
  apply app_eq_nil in E as [_ E]. apply app_eq_nil in E as [Hr _].
  exfalso. destruct Hinv as [(r & Hin & Hv)|(u & Hin & Hv)].
  - apply (causes_nonempty role_causes _ r Hin); [| done].
    by rewrite role_causes_valid, <- RoleMapping_Validate_valid.
  - apply (causes_nonempty user_causes _ u Hin); [| done].
    by rewrite user_causes_valid, <- UserMapping_Validate_valid.
Qed.

(** X18.  Nothing can be added to a document that has a record that
    [Validate] rejects: [ParseMap] returns an error for the document, and
    every [AddRole] and [AddUser] fails with the parse failure and tries no
    update, whatever the entry to add. *)
Theorem add_refuses_invalid_document (cli : client.client W) (w w0 : W)
    (cm : core_v1.ConfigMap) :
  client.getMap cli w = ((cm, None), w0) →
  (∃ r, r ∈ (decode_roles (core_v1.Data cm)).1 ∧ RoleMapping.Validate (Some r) ≠ None)
  ∨ (∃ u, u ∈ (decode_users (core_v1.Data cm)).1
          ∧ UserMapping.Validate (Some u) ≠ None) →
  ∃ e, configmap.err (configmap.ParseMap (core_v1.Data cm)) = Some e
       ∧ (∀ role, client.AddRole cli (Some role) w
                  = ((Some cm, Some (Errorf "failed to parse configmap %v" [Error e])),
                     w0))
       ∧ (∀ user, client.AddUser cli (Some user) w
                  = ((Some cm, Some (Errorf "failed to parse configmap %v" [Error e])),
                     w0)).
Proof.
  intros Hget Hinv. destruct (ParseMap_err_invalid _ Hinv) as [e He].
  exists e. split; [done |]. unfold client.AddRole, client.AddUser.
  split; intros x; apply add_result; eauto; by apply attempt_parse_error.
Qed.


Lemma RetryOnConflict_all_conflicts {S : Type} (fn : S → option error * S)
    (next : S → S) (n : nat) :
  (∀ s, ∃ e, client.IsConflict e = true ∧ fn s = (Some e, next s)) →
  ∀ s, ∃ e, client.IsConflict e = true
            ∧ client.RetryOnConflict (Datatypes.S n) fn s
              = (Some e, Nat.iter (Datatypes.S n) next s).
Proof.
  intros Hfn. induction n as [|n IH]; intros s.
  - destruct (Hfn s) as (e & He & Hs). exists e. split; [done |].
    cbn [client.RetryOnConflict]. by rewrite Hs, He.
  - destruct (Hfn s) as (e & He & Hs). destruct (IH (next s)) as (e' & He' & Hs').
    exists e'. split; [done |].
    change (client.RetryOnConflict (Datatypes.S (Datatypes.S n)) fn s)
      with (match fn s with
            | (None, s') => (None, s')
            | (Some err, s') =>
              if client.IsConflict err
              then client.RetryOnConflict (Datatypes.S n) fn s'
              else (Some err, s')
            end).
    rewrite Hs, He, Hs'. by rewrite <- Nat.iter_succ_r.
Qed.

(** X20.  The retries against a store in conflict.  Let the document of
    the store not change, let every update be refused with a conflict, and
    let the role pass the duplicate test on the lists that the closure of
    [add] binds.  Then every run of the closure reads, parses and encodes
    again and tries the update, and no run ends the retries early: under a
    retry policy of [n] steps, [n] at least one, exactly [n] updates are
    tried and the last conflict is returned with the document that was to
    be written.  [AddRole] tries as many updates as [retry.DefaultRetry]
    has steps. *)
Theorem add_retries_every_step (cli : client.client W)
    (cm : core_v1.ConfigMap) (tick : W → W) (role : RoleMapping.t)
    (data' : gmap string string) :
  (∀ w, client.getMap cli w = ((cm, None), w)) →
  (∀ m w, ∃ u e, client.updateMap cli m w = ((u, Some e), tick w)
                 ∧ client.IsConflict e = true) →
  let p := configmap.ParseMap (core_v1.Data cm) in
  configmap.err p = None →
  Forall (λ r, RoleMapping.RoleARN r ≠ RoleMapping.RoleARN role)
         (client.roleMappings p) →
  configmap.EncodeMap (client.userMappings p) (client.roleMappings p ++ [role])
    (configmap.awsAccountList p) = Ok data' →
  (∀ n w, ∃ e, client.IsConflict e = true
               ∧ client.RetryOnConflict (S n) (client.attempt cli (Some role) None)
                   (None, w)
                 = (Some e, (Some (client.set_Data cm data'), Nat.iter (S n) tick w)))
  ∧ (∀ w, ∃ e, client.IsConflict e = true
               ∧ client.AddRole cli (Some role) w
                 = ((Some (client.set_Data cm data'), Some e),
                    Nat.iter client.DefaultRetry_Steps tick w)).
Proof.
  intros Hget Hupd p Herr Hfresh Henc.
  pose (next := λ st : option core_v1.ConfigMap * W,
                  (Some (client.set_Data cm data'), tick st.2)).
  assert (∀ st, ∃ e, client.IsConflict e = true
                     ∧ client.attempt cli (Some role) None st = (Some e, next st))
    as Hatt.
  { intros st. rewrite (attempt_update cli role st cm st.2 data') by done.
    destruct (Hupd (client.set_Data cm data') st.2) as (u & e & -> & He). eauto. }
  assert (∀ n o w, Nat.iter (S n) next (o, w)
                   = (Some (client.set_Data cm data'), Nat.iter (S n) tick w))
    as Hiter.
  { induction n as [|n IH]; intros o w; [done |].
    rewrite Nat.iter_succ, IH. by rewrite (Nat.iter_succ (S n)). }
  assert (∀ n w, ∃ e, client.IsConflict e = true
                      ∧ client.RetryOnConflict (S n)
                          (client.attempt cli (Some role) None) (None, w)
                        = (Some e, (Some (client.set_Data cm data'),
                                    Nat.iter (S n) tick w))) as Hretry.
  { intros n w.
    destruct (RetryOnConflict_all_conflicts _ next n Hatt (None, w)) as (e & He & Hs).
    exists e. split; [done |]. by rewrite Hs, Hiter. }
  split; [exact Hretry |].
  intros w. destruct (Hretry 4 w) as (e & He & Hs). exists e. split; [done |].
  unfold client.AddRole, client.add, client.DefaultRetry_Steps. by rewrite Hs.
Qed.

(** X21.  [AddARNLikeMapping] adds nothing: it hands [add] a nil role and a
    nil user, and [add] refuses that before it reads the document.  Every
    call fails, returns no document and leaves the store untouched. *)
Theorem AddARNLikeMapping_never_adds {A : Type} (cli : client.client W)
    (arnLikeMapping : option A) (w : W) :
  ∃ e, client.AddARNLikeMapping cli arnLikeMapping w = ((None, Some e), w).
Proof. destruct arnLikeMapping; simpl; eauto. Qed.
End more_additions.

(** * The code on concrete inputs *)

#[local] Existing Instances model.lib model.codec.

(** The scenarios of the tests of the static mapper. *)
Example Map_exact_role :
  file.Map_in [model.cookieCutter] [model.shreyas] model.testMapper
    "arn:aws:iam::0123456789012:role/test-role"
  = Ok (IdentityMapping.mk "arn:aws:iam::0123456789012:role/test-role" "roland"
          ["system:masters"]).
Proof. vm_compute. reflexivity. Qed.

Example Map_role_pattern :
  file.Map_in [model.cookieCutter] [model.shreyas] model.testMapper
    "arn:aws:iam::0123456789012:role/cookie-cutter-two"
  = Ok (IdentityMapping.mk "arn:aws:iam::0123456789012:role/cookie-cutter-two"
          "cookie-cutter" ["system:masters"]).
Proof. vm_compute. reflexivity. Qed.

Example IsAccountAllowed_listed :
  file.IsAccountAllowed model.testMapper "000000000000" = true
  ∧ file.IsAccountAllowed model.testMapper "000000000001" = false.
Proof. split; vm_compute; reflexivity. Qed.

Lemma testMapper_ranges :
  ranges (file.roleArnLikeMap model.testMapper) [model.cookieCutter]
  ∧ ranges (file.userArnLikeMap model.testMapper) [model.shreyas].
Proof. split; unfold ranges; vm_compute; reflexivity. Qed.

(** Partial success: of a well-formed entry and an entry with both
    identifying fields, [ParseMap] returns the first, with an error. *)
Example ParseMap_partial_success :
  let p := configmap.ParseMap (model.document [model.nodes; model.both]) in
  configmap.roleMappings p = [model.nodes]
  ∧ configmap.roleArnLikeMappings p = []
  ∧ configmap.err p
    = Some (ErrParsingMap
              [Errorf "Only one of rolearn or rolearnLike can be supplied" []]).
Proof. vm_compute. done. Qed.

(** The matcher of the model raises an error on malformed text and on
    nothing else, and lower-casing keeps an ARN well formed. *)
Lemma model_ArnLike_errors_on_malformed :
  ArnLike_errors_on_malformed (lib := model.lib) model.well_formed.
Proof.
  intros arn pattern. simpl. unfold model.ArnLike.
  destruct (model.well_formed arn), (model.well_formed pattern); simpl;
    split; try done; intros [? ?]; done.
Qed.

Lemma lower_colon (c : ascii) : Ascii.eqb (model.lower c) ":" = Ascii.eqb c ":".
Proof. destruct c as [[] [] [] [] [] [] [] []]; reflexivity. Qed.

Lemma model_colons_ToLower (s : string) : model.colons (model.ToLower s) = model.colons s.
Proof.
  induction s as [|c s IH]; [done |].
  cbn [model.ToLower model.colons]. by rewrite lower_colon, IH.
Qed.

Lemma model_prefix_ToLower (s : string) :
  String.prefix "arn:" s = true → String.prefix "arn:" (model.ToLower s) = true.
Proof.
  destruct s as [|c1 s]; [done |].
  destruct c1 as [[] [] [] [] [] [] [] []]; try done.
  destruct s as [|c2 s]; [done |].
  destruct c2 as [[] [] [] [] [] [] [] []]; try done.
  destruct s as [|c3 s]; [done |].
  destruct c3 as [[] [] [] [] [] [] [] []]; try done.
  destruct s as [|c4 s]; [done |].
  destruct c4 as [[] [] [] [] [] [] [] []]; try done.
  intros _. destruct s; reflexivity.
Qed.

Lemma model_well_formed_ToLower (s : string) :
  model.well_formed s = true → model.well_formed (model.ToLower s) = true.
Proof.
  unfold model.well_formed. intros [Hp Hc]%andb_prop.
  by rewrite (model_prefix_ToLower _ Hp), model_colons_ToLower, Hc.
Qed.

Lemma Map_tries_four_stages_in_order_witness :
  file.Map_in (lib := model.lib) [model.cookieCutter] [model.shreyas] model.testMapper
    "arn:aws:iam::0123456789012:role/Cookie-Cutter-two"
  = Map_spec (lib := model.lib) (file.lowercaseRoleMap model.testMapper)
      (file.lowercaseUserMap model.testMapper) [model.cookieCutter] [model.shreyas]
      "arn:aws:iam::0123456789012:role/Cookie-Cutter-two".
Proof.
  apply (proj1 (Map_tries_four_stages_in_order (lib := model.lib))
           model.well_formed model.newConfig).
  - exact model_ArnLike_errors_on_malformed.
  - exact model_well_formed_ToLower.
  - vm_compute. reflexivity.
  - reflexivity.
  - apply testMapper_ranges.
  - apply testMapper_ranges.
Defined.

(** On an input that is not an ARN the matcher of the model raises an
    error, which the static mapper returns in the place of [NotMapped]. *)
Example Map_malformed_input :
  model.well_formed "not-an-arn" = false
  ∧ file.Map (lib := model.lib) model.testMapper "not-an-arn"
      (Err (LibError "Could not parse input arn")).
Proof.
  destruct testMapper_ranges as [Hr Hu].
  assert (file.Map_in (lib := model.lib) [model.cookieCutter] [model.shreyas]
            model.testMapper "not-an-arn"
          = Err (LibError "Could not parse input arn")) as Hmap
    by (vm_compute; reflexivity).
  split; [reflexivity |]. rewrite <- Hmap. by constructor.
Qed.

Lemma ParseMap_keeps_invalid_pattern_witness :
  let p := configmap.ParseMap (lib := model.lib) (codec := model.codec)
             (model.document [model.bob]) in
  role_record_valid (lib := model.lib) model.bob = false
  ∧ model.bob ∈ configmap.roleArnLikeMappings p
  ∧ configmap.err p ≠ None
  ∧ configmap.roleMappings p = List.filter role_exact_only [model.bob]
  ∧ configmap.roleArnLikeMappings p = List.filter role_pattern_only [model.bob].
Proof.
  apply (ParseMap_keeps_invalid_pattern (lib := model.lib) (codec := model.codec)
           (model.document [model.bob]) (to_string [model.bob]) (to_string [model.bob])
           [model.bob] None model.bob).
  - vm_compute. reflexivity.
  - reflexivity.
  - vm_compute. reflexivity.
  - constructor.
  - vm_compute. reflexivity.
  - vm_compute. reflexivity.
Defined.

Lemma Deleted_event_empties_store_witness :
  let ms' := configmap.processEvent (lib := model.lib) (codec := model.codec)
               model.makeStore (watch.Build_Event watch.Deleted watch.Other) in
  ms' = configmap.Build_MapStore ∅ ∅ ∅ ∅ ∅
  ∧ ∀ arn : string,
      configmap.UserMapping ms' arn = (UserMapping.zero, Some UserNotFound)
      ∧ configmap.RoleMapping ms' arn = (RoleMapping.zero, Some RoleNotFound)
      ∧ (∀ res, configmap.UserArnLikeMapping (lib := model.lib) ms' arn res
                ↔ res = (UserMapping.zero, Some UserARNLikeNotMatched))
      ∧ (∀ res, configmap.RoleArnLikeMapping (lib := model.lib) ms' arn res
                ↔ res = (RoleMapping.zero, Some RoleARNLikeNotMatched))
      ∧ configmap.AWSAccount ms' arn = false.
Proof.
  apply (Deleted_event_empties_store (lib := model.lib) (codec := model.codec)
           model.makeStore (watch.Build_Event watch.Deleted watch.Other)).
  reflexivity.
Defined.

(** Before the event the store of the tests answers its lookups. *)
Example makeStore_lookups :
  configmap.UserMapping model.makeStore "matt"
  = (UserMapping.mk "" "" "matlan" ["system:master"; "dev"], None)
  ∧ configmap.AWSAccount model.makeStore "123" = true.
Proof. split; vm_compute; reflexivity. Qed.

(** C4 at the document that holds the role entry [cookieCutter], under
    the two bindings: with the exact entries only in the list of the test,
    [cookieCutter] is added a second time; with the pattern entries in it
    too, [mixed] is rejected as a duplicate. *)
Lemma AddRole_duplicate_check_witness :
  let cm := model.configMap (model.document [model.cookieCutter]) in
  client.AddRole (lib := model.lib) (codec := model.codec) (binding := model.byName)
    model.memClient (Some model.cookieCutter) cm
  = ((Some cm, None), cm)
  ∧ client.AddRole (lib := model.lib) (codec := model.codec)
      (binding := model.allEntries) model.memClient (Some model.mixed) cm
    = ((Some cm, Some (Errorf "cannot add duplicate role ARN %q" [""])), cm).
Proof.
  intros cm. split.
  - destruct (AddRole_duplicate_check (lib := model.lib) (codec := model.codec)
                (binding := model.byName) model.memClient cm cm cm)
      as (_ & _ & [Hall|Hnone] & _).
    + reflexivity.
    + vm_compute. reflexivity.
    + specialize (Hall model.mixed eq_refl). vm_compute in Hall. discriminate.
    + apply (Hnone model.cookieCutter (model.document [model.cookieCutter]) cm cm);
        vm_compute; reflexivity.
  - destruct (AddRole_duplicate_check (lib := model.lib) (codec := model.codec)
                (binding := model.allEntries) model.memClient cm cm cm)
      as (_ & _ & [Hall|Hnone] & _).
    + reflexivity.
    + vm_compute. reflexivity.
    + apply (Hall model.mixed eq_refl).
    + pose (cm' := client.set_Data cm (model.document [model.cookieCutter; model.mixed])).
      assert (client.AddRole (lib := model.lib) (codec := model.codec)
                (binding := model.allEntries) model.memClient (Some model.mixed) cm
              = ((Some cm', None), cm')) as Hadd.
      { apply (Hnone model.mixed (model.document [model.cookieCutter; model.mixed])
                 cm' cm'); vm_compute; reflexivity. }
      vm_compute in Hadd. discriminate.
Defined.

(** The two ways in which the duplicate test misses the identifying key,
    at the document that holds the role entry [cookieCutter].  When the
    list of the test holds the exact entries only, [cookieCutter] is added
    a second time.  When it holds the pattern entries too, [mixed], whose
    pattern the document does not hold, is rejected as a duplicate. *)
Example AddRole_pattern_duplicate_accepted :
  let cm := model.configMap (model.document [model.cookieCutter]) in
  model.cookieCutter
    ∈ configmap.roleArnLikeMappings (configmap.ParseMap (core_v1.Data cm))
  ∧ client.AddRole (binding := model.byName) model.memClient
      (Some model.cookieCutter) cm
    = ((Some cm, None), cm).
Proof. split; [vm_compute; constructor | vm_compute; reflexivity]. Qed.

Example AddRole_other_pattern_rejected :
  let cm := model.configMap (model.document [model.cookieCutter]) in
  Forall (λ r, RoleMapping.Key r ≠ RoleMapping.Key model.mixed)
         (client.roleMappings (Binding := model.allEntries)
            (configmap.ParseMap (core_v1.Data cm)))
  ∧ client.AddRole (binding := model.allEntries) model.memClient
      (Some model.mixed) cm
    = ((Some cm, Some (Errorf "cannot add duplicate role ARN %q" [""])), cm).
Proof.
  split; [| vm_compute; reflexivity].
  vm_compute. repeat constructor. discriminate.
Qed.

(** An exact ARN that the document holds is rejected, and nothing is
    written, under both bindings. *)
Example AddRole_exact_duplicate :
  let cm := model.configMap (model.document [model.nodes]) in
  client.AddRole (binding := model.byName) model.memClient (Some model.nodes) cm
  = ((Some cm,
      Some (Errorf "cannot add duplicate role ARN %q"
              ["arn:aws:iam::123456789101:role/test-NodeInstanceRole"])),
     cm)
  ∧ client.AddRole (binding := model.allEntries) model.memClient (Some model.nodes) cm
    = ((Some cm,
        Some (Errorf "cannot add duplicate role ARN %q"
                ["arn:aws:iam::123456789101:role/test-NodeInstanceRole"])),
       cm).
Proof. split; vm_compute; reflexivity. Qed.


(** The pattern in mixed case matches neither spelling of the ARN. *)
Example mixed_case_pattern :
  has_upper (RoleMapping.RoleARNLike model.mixed)
  ∧ matches "arn:aws:iam::0123456789012:role/cookie-x"
            (RoleMapping.RoleARNLike model.mixed) = false
  ∧ file.Map_in [model.mixed] [] file.empty "arn:aws:iam::0123456789012:role/Cookie-x"
    = Err ErrNotMapped.
Proof.
  split_and!; try (vm_compute; reflexivity).
  exists "C"%char. split; [| reflexivity]. vm_compute. tauto.
Qed.

Lemma EncodeMap_ParseMap_roundtrip_witness :
  let us := [UserMapping.mk "arn:aws:iam::0123456789012:user/donald" "" "donald"
                            ["system:masters"]] in
  let rs := [model.nodes] in
  let accounts := ["123"; "345"] in
  ∃ m, configmap.EncodeMap (codec := model.codec) us rs accounts = Ok m
       ∧ configmap.ParseMap (lib := model.lib) (codec := model.codec) m
         = configmap.Build_Parsed us [] rs [] accounts None.
Proof.
  intros us rs accounts.
  apply (EncodeMap_ParseMap_roundtrip (lib := model.lib) (codec := model.codec)).
  - constructor; [reflexivity | constructor].
  - constructor; [reflexivity | constructor].
  - intros _. exists (to_string us), (to_string us).
    split_and!; [reflexivity | reflexivity | vm_compute; reflexivity].
  - intros _. exists (to_string rs), (to_string rs).
    split_and!; [reflexivity | reflexivity | vm_compute; reflexivity].
  - intros _. exists (to_string accounts).
    split; [reflexivity | vm_compute; reflexivity].
Defined.

Lemma ConfigMapMapper_Map_hides_errors_witness :
  file.Map_in (lib := model.lib) [model.cookieCutter] [model.shreyas] model.testMapper
    "not-an-arn"
  = Err (LibError "Could not parse input arn")
  ∧ configmap.Map_in (lib := model.lib) [model.cookieCutter] [model.shreyas]
      (configmap.Build_MapStore ∅ ∅ ∅ ∅ ∅) "not-an-arn"
    = first_hit
        [user_hit (ToLower "not-an-arn")
           (configmap.UserArnLikeMapping_in (lib := model.lib) [model.shreyas]
              (ToLower "not-an-arn"))].
Proof.
  apply (ConfigMapMapper_Map_hides_errors (lib := model.lib)); vm_compute; reflexivity.
Defined.

(** The live mapper on the same input: [NotMapped]. *)
Example ConfigMapMapper_Map_not_mapped :
  configmap.Map_in [model.cookieCutter] [model.shreyas]
    (configmap.Build_MapStore ∅ ∅ ∅ ∅ ∅) "not-an-arn"
  = Err ErrNotMapped.
Proof. vm_compute. reflexivity. Qed.

Lemma duplicate_keys_later_entry_wins_witness :
  ∃ fm, file.NewFileMapper (lib := model.lib) model.duplicateConfig = Ok fm
        ∧ file.lowercaseRoleMap fm !! "arn:aws:iam::0123456789012:role/admin"
          = Some model.second.
Proof.
  destruct (duplicate_keys_later_entry_wins (lib := model.lib))
    as (Hok & Htab & _ & Hlast & _).
  destruct (Hok model.duplicateConfig) as [fm Hfm].
  - constructor; [| constructor; [| constructor]].
    + left. split_and!; [discriminate | reflexivity | by eexists].
    + left. split_and!; [discriminate | reflexivity | by eexists].
  - constructor.
  - exists fm. split; [done |].
    rewrite (proj1 (Htab _ _ "arn:aws:iam::0123456789012:role/admin" Hfm)).
    apply (Hlast _ _ [] model.first [] model.second []);
      [reflexivity | reflexivity | constructor].
Defined.

(** A record with a pattern that cannot be evaluated, kept by [ParseMap]
    and stored by [saveMap], stops the scan of the live store: visited
    first, it hides the entry that matches.  On this input ARN the stages,
    tried in order, give the identity of the entry that matches, in both
    visit orders; [Map] can return [NotMapped]. *)
Example stored_invalid_pattern_hides_match :
  let bogus := RoleMapping.mk "" "bogus" "nobody" [] in
  let ms := configmap.processEvent (configmap.Build_MapStore ∅ ∅ ∅ ∅ ∅)
              (watch.Build_Event watch.Added
                 (watch.ConfigMap
                    (model.configMap (model.document [bogus; model.cookieCutter])))) in
  let a := "arn:aws:iam::0123456789012:role/cookie-cutter-two" in
  let id := IdentityMapping.mk a "cookie-cutter" ["system:masters"] in
  model.well_formed a = true
  ∧ ranges (configmap.roleArnLikes ms) [bogus; model.cookieCutter]
  ∧ ranges (configmap.roleArnLikes ms) [model.cookieCutter; bogus]
  ∧ ranges (configmap.userArnLikes ms) []
  ∧ Map_spec (configmap.roles ms) (configmap.users ms) [bogus; model.cookieCutter] [] a
    = Ok id
  ∧ Map_spec (configmap.roles ms) (configmap.users ms) [model.cookieCutter; bogus] [] a
    = Ok id
  ∧ configmap.Map_in [bogus; model.cookieCutter] [] ms a = Err ErrNotMapped
  ∧ configmap.Map_in [model.cookieCutter; bogus] [] ms a = Ok id
  ∧ configmap.Map ms a (Err ErrNotMapped).
Proof.
  intros bogus ms a id.
  assert (ranges (configmap.roleArnLikes ms) [bogus; model.cookieCutter]) as Hr.
  { unfold ranges. vm_compute. apply perm_swap. }
  assert (ranges (configmap.userArnLikes ms) []) as Hu.
  { unfold ranges. vm_compute. reflexivity. }
  assert (configmap.Map_in [bogus; model.cookieCutter] [] ms a = Err ErrNotMapped)
    as Hmap by (vm_compute; reflexivity).
  split_and!.
  - reflexivity.
  - exact Hr.
  - unfold ranges. vm_compute. reflexivity.
  - exact Hu.
  - vm_compute. reflexivity.
  - vm_compute. reflexivity.
  - exact Hmap.
  - vm_compute. reflexivity.
  - rewrite <- Hmap. by constructor.
Qed.

(** Two events of a watch: the account ids of the second replace those of
    the first. *)
Example accounts_replaced :
  let doc (ids : list string) : gmap string string :=
    {["mapAccounts" := to_string ids]} in
  let ms := configmap.processEvents (configmap.Build_MapStore ∅ ∅ ∅ ∅ ∅)
              [ watch.Build_Event watch.Added
                  (watch.ConfigMap (model.configMap (doc ["123"; "345"])));
                watch.Build_Event watch.Modified
                  (watch.ConfigMap (model.configMap (doc ["567"]))) ] in
  configmap.AWSAccount ms "345" = false ∧ configmap.AWSAccount ms "567" = true.
Proof. split; vm_compute; reflexivity. Qed.


(** ** The further properties on concrete inputs *)

Lemma model_ArnLike_error (c pattern : string) :
  (model.ArnLike c pattern).2 ≠ Some ErrNotMapped.
Proof.
  unfold model.ArnLike.
  destruct (negb (model.well_formed c)); [discriminate |].
  destruct (negb (model.well_formed pattern)); discriminate.
Qed.

Lemma IsAccountAllowed_iff_auto_mapped_witness :
  file.IsAccountAllowed model.testMapper "000000000000"
  = bool_decide ("000000000000" ∈ AutoMappedAWSAccounts model.newConfig).
Proof.
  apply (IsAccountAllowed_iff_auto_mapped (lib := model.lib) model.newConfig
           model.testMapper "000000000000").
  vm_compute. reflexivity.
Defined.

Lemma NotMapped_means_nothing_matches_witness :
  let a := "arn:aws:iam::0123456789012:role/Unknown" in
  file.lowercaseRoleMap model.testMapper !! model.ToLower a = None
  ∧ file.lowercaseUserMap model.testMapper !! model.ToLower a = None
  ∧ (∀ k m, file.roleArnLikeMap model.testMapper !! k = Some m →
            model.ArnLike (model.ToLower a) (RoleMapping.RoleARNLike m) = (false, None))
  ∧ (∀ k m, file.userArnLikeMap model.testMapper !! k = Some m →
            model.ArnLike (model.ToLower a) (UserMapping.UserARNLike m) = (false, None)).
Proof.
  intros a.
  apply (NotMapped_means_nothing_matches (lib := model.lib) model.testMapper a).
  - exact model_ArnLike_error.
  - destruct testMapper_ranges as [Hr Hu].
    assert (file.Map_in (lib := model.lib) [model.cookieCutter] [model.shreyas]
              model.testMapper a = Err ErrNotMapped) as Hmap
      by (vm_compute; reflexivity).
    rewrite <- Hmap. by constructor.
Defined.

Lemma store_after_document_event_witness :
  let cm := model.configMap (model.document [model.nodes; model.both]) in
  let p := configmap.ParseMap (lib := model.lib) (codec := model.codec)
             (core_v1.Data cm) in
  let ms' := configmap.processEvent (lib := model.lib) (codec := model.codec)
               model.makeStore
               (watch.Build_Event watch.Modified (watch.ConfigMap cm)) in
  (∀ k, configmap.UserMapping ms' k
        = match last_such (store_user_exact_key (lib := model.lib) k)
                  (configmap.userMappings p) with
          | Some u => (u, None)
          | None => (UserMapping.zero, Some UserNotFound)
          end)
  ∧ (∀ k, configmap.RoleMapping ms' k
          = match last_such (store_role_exact_key (lib := model.lib) k)
                    (configmap.roleMappings p) with
            | Some u => (u, None)
            | None => (RoleMapping.zero, Some RoleNotFound)
            end)
  ∧ (∀ id, configmap.AWSAccount ms' id
           = bool_decide (id ∈ configmap.awsAccountList p)).
Proof.
  intros cm.
  apply (store_after_document_event (lib := model.lib) (codec := model.codec)
           model.makeStore (watch.Build_Event watch.Modified (watch.ConfigMap cm)) cm).
  - right. reflexivity.
  - reflexivity.
  - reflexivity.
Defined.

Lemma store_lookup_is_case_sensitive_witness :
  let ms' := configmap.saveMap (lib := model.lib) model.makeStore [] []
               [model.first] [] [] in
  (∀ k, model.ToLower k ≠ k →
        configmap.UserMapping ms' k = (UserMapping.zero, Some UserNotFound)
        ∧ configmap.RoleMapping ms' k = (RoleMapping.zero, Some RoleNotFound))
  ∧ (∀ u, u ∈ [] →
          ∃ u', configmap.UserMapping ms' (model.ToLower (UserMapping.UserARN u))
                = (u', None)
                ∧ model.ToLower (UserMapping.UserARN u')
                  = model.ToLower (UserMapping.UserARN u))
  ∧ (∀ r, r ∈ [model.first] →
          ∃ r', configmap.RoleMapping ms' (model.ToLower (RoleMapping.RoleARN r))
                = (r', None)
                ∧ model.ToLower (RoleMapping.RoleARN r')
                  = model.ToLower (RoleMapping.RoleARN r)).
Proof.
  apply (store_lookup_is_case_sensitive (lib := model.lib) model.makeStore [] []
           [model.first] [] [] model_ToLower_idempotent).
Defined.

Lemma EncodeMap_ParseMap_sorts_witness :
  let us := [UserMapping.mk "arn:aws:iam::0123456789012:user/donald" "" "donald"
                            ["system:masters"]; model.shreyas] in
  let rs := [model.cookieCutter; model.nodes] in
  let accounts := ["123"] in
  ∃ m, configmap.EncodeMap (codec := model.codec) us rs accounts = Ok m
       ∧ configmap.ParseMap (lib := model.lib) (codec := model.codec) m
         = configmap.Build_Parsed
             (List.filter user_exact_only us) (List.filter user_pattern_only us)
             (List.filter role_exact_only rs) (List.filter role_pattern_only rs)
             accounts None.
Proof.
  intros us rs accounts.
  apply (EncodeMap_ParseMap_sorts (lib := model.lib) (codec := model.codec)).
  - repeat constructor.
  - repeat constructor.
  - intros _. exists (to_string us), (to_string us).
    split_and!; [reflexivity | reflexivity | vm_compute; reflexivity].
  - intros _. exists (to_string rs), (to_string rs).
    split_and!; [reflexivity | reflexivity | vm_compute; reflexivity].
  - intros _. exists (to_string accounts).
    split; [reflexivity | vm_compute; reflexivity].
Defined.

Lemma add_refuses_invalid_document_witness :
  let cm := model.configMap (model.document [model.nodes; model.both]) in
  ∃ e, configmap.err (configmap.ParseMap (lib := model.lib) (codec := model.codec)
                        (core_v1.Data cm)) = Some e
       ∧ (∀ role, client.AddRole (lib := model.lib) (codec := model.codec)
                    (binding := model.allEntries) model.memClient (Some role) cm
                  = ((Some cm, Some (Errorf "failed to parse configmap %v" [Error e])),
                     cm))
       ∧ (∀ user, client.AddUser (lib := model.lib) (codec := model.codec)
                    (binding := model.allEntries) model.memClient (Some user) cm
                  = ((Some cm, Some (Errorf "failed to parse configmap %v" [Error e])),
                     cm)).
Proof.
  intros cm.
  apply (add_refuses_invalid_document (lib := model.lib) (codec := model.codec)
           (binding := model.allEntries) model.memClient cm cm cm).
  - reflexivity.
  - left. exists model.both. split.
    + vm_compute. repeat constructor.
    + vm_compute. discriminate.
Defined.


Lemma add_retries_every_step_witness :
  let cm := model.configMap (model.document [model.nodes]) in
  let cm' := client.set_Data cm (model.document [model.nodes; model.first]) in
  (∀ n w, ∃ e, client.IsConflict e = true
               ∧ client.RetryOnConflict (S n)
                   (client.attempt (lib := model.lib) (codec := model.codec)
                      (binding := model.byName) (model.refusingClient cm)
                      (Some model.first) None) (None, w)
                 = (Some e, (Some cm', Nat.iter (S n) S w)))
  ∧ (∀ w, ∃ e, client.IsConflict e = true
               ∧ client.AddRole (lib := model.lib) (codec := model.codec)
                   (binding := model.byName) (model.refusingClient cm)
                   (Some model.first) w
                 = ((Some cm', Some e), Nat.iter client.DefaultRetry_Steps S w)).
Proof.
  intros cm cm'.
  apply (add_retries_every_step (lib := model.lib) (codec := model.codec)
           (binding := model.byName) (model.refusingClient cm) cm S model.first
           (model.document [model.nodes; model.first])).
  - reflexivity.
  - intros m w. eexists _, _. split; reflexivity.
  - vm_compute. reflexivity.
  - vm_compute. repeat constructor; discriminate.
  - vm_compute. reflexivity.
Defined.

(** Three updates under a policy of three steps. *)
Example three_steps_three_updates :
  let cm := model.configMap (model.document [model.nodes]) in
  (client.RetryOnConflict 3
     (client.attempt (binding := model.byName) (model.refusingClient cm)
        (Some model.first) None) (None, 0)).2.2
  = 3.
Proof. vm_compute. reflexivity. Qed.
